(** * kmol: object factory, cache keys and the preprocessing pipeline

    A shallow embedding of [lib/core/helpers.py] ([SuperFactory],
    [CacheManager]) and of [kmol/data/preprocessor.py]
    ([AbstractPreprocessor], [CachePreprocessor], [OnlinePreprocessor],
    [FilePreprocessor]),
    followed by the properties established for them.

    Python values are modelled as the code sees them: integers are [Z],
    [str] is [string], a [dict] is an association list in insertion order
    (iteration order is observable in the code below), exceptions are the
    [Raise] branch of [result]. *)

From Stdlib Require Import ZArith Lia String Ascii List Permutation DecimalString.
From stdpp Require Import base list strings gmap.

Open Scope string_scope.
Open Scope list_scope.
Open Scope Z_scope.

(** ** Python runtime: exceptions and the list primitives the code uses *)

Module Py.

(** The payload of a [ReflectionError] raised by [SuperFactory.create]. *)
Inductive reflection_msg :=
| DependencyNotFound (dependency_name : string) (available : list string)
| UnknownOption (instantiator_name option_name : string).

Inductive exn :=
| ZeroDivisionError
| IndexError
| KeyError (key : string)
| ReflectionError (msg : reflection_msg)
| TypeError (detail : string)
| AttributeError (detail : string)
| ModuleNotFoundError (module_name : string)
| RecursionError.

Inductive result (A : Type) :=
| Ok (a : A)
| Raise (e : exn).
Arguments Ok {A} a.
Arguments Raise {A} e.

(** [a // b] on Python integers. *)
Definition floordiv (a b : Z) : result Z :=
  if b =? 0 then Raise ZeroDivisionError else Ok (a / b).

(** [list(range(0, n))]. *)
Definition range (n : Z) : list Z :=
  map Z.of_nat (seq 0 (Z.to_nat n)).

(** A slice bound brought into [0, len], a negative bound counting from
    the end. *)
Definition slice_index (i len : Z) : Z :=
  if i <? 0 then Z.max 0 (i + len) else Z.min i len.

(** [l[lo:hi]]. *)
Definition slice {A} (l : list A) (lo hi : Z) : list A :=
  let len := Z.of_nat (length l) in
  let lo' := slice_index lo len in
  let hi' := slice_index hi len in
  take (Z.to_nat (hi' - lo')) (drop (Z.to_nat lo') l).

(** [l[i]] for a list. *)
Definition getitem {A} (l : list A) (i : Z) : result A :=
  let len := Z.of_nat (length l) in
  let i' := if i <? 0 then i + len else i in
  if i' <? 0 then Raise IndexError
  else match l !! Z.to_nat i' with
       | Some x => Ok x
       | None => Raise IndexError
       end.

(** The line feed of ["\n"]. *)
Definition nl : string := String (ascii_of_nat 10) EmptyString.

(** [d[k]] read on a dict kept as an association list. *)
Fixpoint dict_get {V} (k : string) (d : list (string * V)) : option V :=
  match d with
  | [] => None
  | (k', v) :: rest => if String.eqb k k' then Some v else dict_get k rest
  end.

End Py.
Import Py.

(** ** [kmol/data/preprocessor.py] *)

(** Modelled from the spec: [kmol/data/resources.py] is not among the
    sources.  A sample is a record with a unique identifier and a mapping
    of named input fields; field values are kept as text. *)
Record DataPoint := {
  id_ : Z;
  inputs : list (string * string)
}.

(** What a stage raised, with [str(e)] and the text that
    [traceback.format_exc()] gives for it.  [FeaturizationError] is the
    designated recoverable failure, [OtherException] any other
    [Exception]. *)
Inductive raised :=
| FeaturizationError (e tb_str : string)
| OtherException (e tb_str : string).

(** [featurizer.run(sample)] and [transformer.apply(sample)] mutate the
    sample in place and may raise: a stage returns the sample as it is
    left and the exception, if any. *)
Definition stage : Type := DataPoint -> DataPoint * option raised.

Inductive levelname := DEBUG | INFO | WARNING | ERROR.

Record log_record := {
  level : levelname;
  message : string
}.

Module AbstractPreprocessor.

Section Chain.
Variables _featurizers _transformers : list stage.

Fixpoint run_stages (stages : list stage) (sample : DataPoint)
  : DataPoint * option raised :=
  match stages with
  | [] => (sample, None)
  | s :: rest =>
      match s sample with
      | (sample', None) => run_stages rest sample'
      | (sample', Some e) => (sample', Some e)
      end
  end.

Definition _featurize (sample : DataPoint) := run_stages _featurizers sample.

Definition _apply_transformers (sample : DataPoint) :=
  run_stages _transformers sample.

Definition preprocess (sample : DataPoint) : DataPoint * option raised :=
  match _featurize sample with
  | (sample', None) => _apply_transformers sample'
  | (sample', Some e) => (sample', Some e)
  end.

End Chain.

(** A transformer: [apply(sample)] and [reverse(sample)], each mutating
    the sample in place. *)
Record transformer := {
  apply : stage;
  reverse : stage
}.

(** [reverse_transformers]: [reverse] of every transformer, in the
    reversed order of the list. *)
Definition reverse_transformers (_transformers : list transformer)
    (sample : DataPoint) : DataPoint * option raised :=
  run_stages (map reverse (rev _transformers)) sample.

(** [_get_chunks]: the index lists handed to [Subset(dataset, chunk)], for
    [n_jobs = config.featurization_jobs] and a dataset of [len_dataset]
    samples. *)
Definition _get_chunks (n_jobs : Z) (len_dataset : nat) : result (list (list Z)) :=
  let len := Z.of_nat len_dataset in
  match floordiv len n_jobs with
  | Raise e => Raise e
  | Ok chunk_size =>
      let range_list := range len in
      match floordiv (len + chunk_size - 1) chunk_size with
      | Raise e => Raise e
      | Ok count =>
          Ok (map (fun i => slice range_list (i * chunk_size) ((i + 1) * chunk_size))
                  (range count))
      end
  end.

(** Iterating [Subset(dataset, chunk)] yields [dataset[i]] for the indices
    of the chunk. *)
Fixpoint Subset {A} (dataset : list A) (chunk : list Z) : result (list A) :=
  match chunk with
  | [] => Ok []
  | i :: rest =>
      match getitem dataset i with
      | Raise e => Raise e
      | Ok x =>
          match Subset dataset rest with
          | Raise e => Raise e
          | Ok xs => Ok (x :: xs)
          end
      end
  end.

(** The merge of [_run_parrallel] for disk-backed results.  The lists that
    the futures return are distinct objects, kept in a store under their
    position; [dataset] is an alias of [disk_lists[0]].
    [dataset.extend(disk_list)] appends to object 0, [dl.clear()] empties
    the others. *)
Definition extend_first (store : list (list DataPoint)) (i : nat)
  : list (list DataPoint) :=
  match store !! 0%nat, store !! i with
  | Some dataset, Some disk_list => <[0%nat := dataset ++ disk_list]> store
  | _, _ => store
  end.

Definition clear (store : list (list DataPoint)) (i : nat)
  : list (list DataPoint) :=
  <[i := []]> store.

Definition merge_disk_lists (disk_lists : list (list DataPoint))
  : result (list DataPoint) :=
  match disk_lists with
  | [] => Raise IndexError
  | _ :: _ =>
      let others := seq 1 (length disk_lists - 1) in
      let store := foldl extend_first disk_lists others in
      let store := foldl clear store others in
      match store !! 0%nat with
      | Some dataset => Ok dataset
      | None => Raise IndexError
      end
  end.

(** [_run_parrallel(func, dataset, use_disk)].  Every chunk is run by
    [func] in a worker process of its own, which shares no state with the
    others but the advisory progress map; [future.result()] is the list
    the worker returned.  Task [n] (from 1) gets the [n]-th chunk. *)
Fixpoint submit {A B} (func : nat -> list A -> B) (dataset : list A)
    (n : nat) (chunks : list (list Z)) : result (list B) :=
  match chunks with
  | [] => Ok []
  | chunk :: rest =>
      match Subset dataset chunk with
      | Raise e => Raise e
      | Ok loader =>
          match submit func dataset (S n) rest with
          | Raise e => Raise e
          | Ok futures => Ok (func n loader :: futures)
          end
      end
  end.

Definition _run_parrallel (n_jobs : Z)
    (func : nat -> list DataPoint -> list DataPoint)
    (dataset : list DataPoint) (use_disk : bool) : result (list DataPoint) :=
  match _get_chunks n_jobs (length dataset) with
  | Raise e => Raise e
  | Ok chunks =>
      match submit func dataset 1 chunks with
      | Raise e => Raise e
      | Ok futures =>
          if use_disk then merge_disk_lists futures
          else Ok (concat futures)
      end
  end.

End AbstractPreprocessor.

Module CachePreprocessor.

(** What a worker leaves behind: the list it returns, the records it sent
    to the logger and the progress map. *)
Record worker := {
  dataset : list DataPoint;
  records : list log_record;
  progress : gmap nat (Z * Z)
}.

(** A worker that has done nothing yet. *)
Definition idle : worker := {| dataset := []; records := []; progress := ∅ |}.

Section PrepareChunk.
Variables _featurizers _transformers : list stage.
(** [str(sample)], as [DataPoint] defines it. *)
Variable str : DataPoint -> string.

Definition smiles_of (sample : DataPoint) : string :=
  match dict_get "smiles" (inputs sample) with
  | Some s => s
  | None => ""
  end.

(** One turn of the loop of [_prepare_chunk], for the [n]-th sample of a
    loader of [total] samples. *)
Definition prepare_sample (task_id : nat) (total : Z) (w : worker) (n : Z)
    (sample : DataPoint) : worker :=
  let smiles := smiles_of sample in
  let w' :=
    match AbstractPreprocessor.preprocess _featurizers _transformers sample with
    | (sample', None) =>
        {| dataset := dataset w ++ [sample'];
           records := records w; progress := progress w |}
    | (_, Some (FeaturizationError e tb_str)) =>
        {| dataset := dataset w;
           records := records w
             ++ [{| level := WARNING; message := e +:+ nl +:+ tb_str |}];
           progress := progress w |}
    | (sample', Some (OtherException e tb_str)) =>
        {| dataset := dataset w;
           records := records w
             ++ [{| level := ERROR;
                    message := str sample' +:+ " " +:+ smiles +:+ " - "
                               +:+ e +:+ nl +:+ tb_str |}];
           progress := progress w |}
    end in
  {| dataset := dataset w'; records := records w';
     progress := <[task_id := (n + 1, total)]> (progress w') |}.

Fixpoint enumerate_from (task_id : nat) (total : Z) (n : Z)
    (loader : list DataPoint) (w : worker) : worker :=
  match loader with
  | [] => w
  | sample :: rest =>
      enumerate_from task_id total (n + 1) rest
        (prepare_sample task_id total w n sample)
  end.

Definition _prepare_chunk (progress : gmap nat (Z * Z)) (task_id : nat)
    (loader : list DataPoint) : worker :=
  enumerate_from task_id (Z.of_nat (length loader)) 0 loader
    {| dataset := []; records := []; progress := progress |}.

(** [_prepare_dataset]: the samples of
    [_run_parrallel(self._prepare_chunk, loader, self._use_disk)]. *)
Definition _prepare_dataset (n_jobs : Z) (use_disk : bool)
    (loader : list DataPoint) : result (list DataPoint) :=
  AbstractPreprocessor._run_parrallel n_jobs
    (fun task_id chunk => dataset (_prepare_chunk ∅ task_id chunk))
    loader use_disk.

End PrepareChunk.

(** [data.id_ = value]. *)
Definition set_id (data : DataPoint) (value : Z) : DataPoint :=
  {| id_ := value; inputs := inputs data |}.

(** The inner loop of the numbering: the samples of one augmented dataset
    get [dataset_size + i], [i] going up by one; the counter is returned
    with the samples. *)
Fixpoint number_from (dataset_size i : Z) (dataset : list DataPoint)
  : list DataPoint * Z :=
  match dataset with
  | [] => ([], i)
  | data :: rest =>
      let '(rest', i') := number_from dataset_size (i + 1) rest in
      (set_id data (dataset_size + i) :: rest', i')
  end.

(** Lines 289 to 294 of [_load_augmented_data], "Add id to augmented
    data", over the [aug_dataset] of the augmentations in their order. *)
Fixpoint number_all (dataset_size i : Z) (aug_datasets : list (list DataPoint))
  : list (list DataPoint) :=
  match aug_datasets with
  | [] => []
  | dataset :: rest =>
      let '(dataset', i') := number_from dataset_size i dataset in
      dataset' :: number_all dataset_size i' rest
  end.

Definition _load_augmented_data (dataset_size : Z)
    (aug_datasets : list (list DataPoint)) : list (list DataPoint) :=
  number_all dataset_size 0 aug_datasets.

(** [_add_static_aug_dataset]: [tmp_dataset] is the list object
    [dataset._dataset] itself, and [tmp_dataset += a.aug_dataset] extends
    it in place.  The result is that list as the call leaves it, with the
    indices [range(len(tmp_dataset))] given to [ListLoader]. *)
Definition _add_static_aug_dataset (aug_datasets : list (list DataPoint))
    (_dataset : list DataPoint) : list DataPoint * list Z :=
  let tmp_dataset := foldl (fun tmp aug => tmp ++ aug) _dataset aug_datasets in
  (tmp_dataset, range (Z.of_nat (length tmp_dataset))).

End CachePreprocessor.

Module OnlinePreprocessor.

(** [run_f] of [run_preprocess]: the featurizer runs on every sample, with
    nothing caught.  The samples are returned as the loop leaves them,
    with the exception that ended it, if any. *)
Fixpoint run_f (f : stage) (dataset : list DataPoint)
  : list DataPoint * option raised :=
  match dataset with
  | [] => ([], None)
  | sample :: rest =>
      match f sample with
      | (sample', None) =>
          let '(rest', e) := run_f f rest in (sample' :: rest', e)
      | (sample', Some e) => (sample' :: rest, Some e)
      end
  end.

(** The [aug_dataset] of an augmentation: a plain [list] of samples, or a
    loader. *)
Inductive aug_dataset :=
| AsList (samples : list DataPoint)
| AsLoader (samples : list DataPoint).

Definition is_list (dataset : aug_dataset) : bool :=
  match dataset with
  | AsList _ => true
  | AsLoader _ => false
  end.

Definition len (dataset : aug_dataset) : Z :=
  match dataset with
  | AsList samples | AsLoader samples => Z.of_nat (length samples)
  end.

(** Lines 188 to 197 of [_load_augmented_data]: the loaders are counted,
    then the samples of the lists are numbered. *)
Fixpoint count_loaders (i : Z) (aug_datasets : list aug_dataset) : Z :=
  match aug_datasets with
  | [] => i
  | dataset :: rest =>
      if is_list dataset then count_loaders i rest
      else count_loaders (i + len dataset) rest
  end.

Fixpoint number_lists (dataset_size i : Z) (aug_datasets : list aug_dataset)
  : list aug_dataset :=
  match aug_datasets with
  | [] => []
  | AsList samples :: rest =>
      let '(samples', i') :=
        CachePreprocessor.number_from dataset_size i samples in
      AsList samples' :: number_lists dataset_size i' rest
  | AsLoader samples :: rest =>
      AsLoader samples :: number_lists dataset_size i rest
  end.

Definition _load_augmented_data (dataset_size : Z)
    (aug_datasets : list aug_dataset) : list aug_dataset :=
  number_lists dataset_size (count_loaders 0 aug_datasets) aug_datasets.

Section AddStaticAugDataset.
(** [x + y] where a loader takes part, and [dataset.get_all()]: defined
    by the loader classes, which are not among the sources. *)
Variable loader_add : aug_dataset -> aug_dataset -> result aug_dataset.
Variable get_all : aug_dataset -> result aug_dataset.

(** [x + y]: two lists are concatenated. *)
Definition add (x y : aug_dataset) : result aug_dataset :=
  match x, y with
  | AsList l1, AsList l2 => Ok (AsList (l1 ++ l2))
  | _, _ => loader_add x y
  end.

(** The first loop: the loaders are added to the dataset. *)
Fixpoint add_loaders (dataset : aug_dataset) (aug_datasets : list aug_dataset)
  : result aug_dataset :=
  match aug_datasets with
  | [] => Ok dataset
  | aug :: rest =>
      if is_list aug then add_loaders dataset rest
      else match add dataset aug with
           | Raise e => Raise e
           | Ok dataset' => add_loaders dataset' rest
           end
  end.

(** The last loop: its variable is [dataset] itself, and [a] is still the
    last augmentation of the first loop. *)
Fixpoint add_lists (a : aug_dataset) (dataset : aug_dataset)
    (aug_datasets : list aug_dataset) : result aug_dataset :=
  match aug_datasets with
  | [] => Ok dataset
  | aug :: rest =>
      if is_list aug then
        match add aug a with
        | Raise e => Raise e
        | Ok dataset' => add_lists a dataset' rest
        end
      else add_lists a aug rest
  end.

Definition _add_static_aug_dataset (aug_datasets : list aug_dataset)
    (dataset : aug_dataset) : result aug_dataset :=
  match add_loaders dataset aug_datasets with
  | Raise e => Raise e
  | Ok dataset =>
      match (if existsb is_list aug_datasets then get_all dataset
             else Ok dataset) with
      | Raise e => Raise e
      | Ok dataset =>
          match aug_datasets with
          | [] => Ok dataset
          | first :: _ => add_lists (List.last aug_datasets first) dataset aug_datasets
          end
      end
  end.

End AddStaticAugDataset.
End OnlinePreprocessor.

Module FilePreprocessor.

(** A [Path] built with [/]: the segments that were joined, from the
    left.  What path they make (a segment may hold a slash, or be
    absolute) is for [pathlib] and the operating system to say. *)
Abbreviation Path := (list string).

(** What the operating system makes of a path: the regular file that it
    names, which [open(path, "wb")] creates or truncates, or, a directory
    on the way to the file being missing, the text of the
    [FileNotFoundError] that [open] raises.  Two paths may name one file.
    Permissions, a path that names a directory and a path that runs
    through a regular file are left out. *)
Inductive located :=
| File (name : string)
| NoFile (strerror : string).

(** The regular files on disk (name to content; the pickled bytes are
    represented by the value they encode), the records sent to [logging],
    the samples handed to [preprocess] so far, and the last
    [progress.update]. *)
Record run := {
  files : gmap string string;
  records : list log_record;
  preprocessed : list DataPoint;
  completed : option (Z * Z)
}.

Section LoadDataset.
Variables _featurizers _transformers : list stage.
Variable str : DataPoint -> string.
(** How the paths are read.  The loop makes no directory, so a path is
    read in the same way at every turn. *)
Variable locate : Path -> located.
Variable folder_name : string.
Variables feature_to_save input_to_use_has_filename : list string.
Variable overwrite : bool.

(** [self.folder_name / input_field_filename / f"{value}.pkl"]. *)
Definition path_of (input_field_filename value : string) : Path :=
  [folder_name; input_field_filename; value +:+ ".pkl"].

Fixpoint filenames_of (fields : list string) (sample : DataPoint)
  : result (list Path) :=
  match fields with
  | [] => Ok []
  | input_field_filename :: rest =>
      match dict_get input_field_filename (inputs sample) with
      | None => Raise (KeyError input_field_filename)
      | Some value =>
          match filenames_of rest sample with
          | Raise e => Raise e
          | Ok filenames => Ok (path_of input_field_filename value :: filenames)
          end
      end
  end.

(** [filename.exists()]. *)
Definition exists_ (files : gmap string string) (filename : Path) : bool :=
  match locate filename with
  | File name => bool_decide (is_Some (files !! name))
  | NoFile _ => false
  end.

(** The loop over [zip(self.feature_to_save, filenames)]: [open(filename,
    "wb")] creates or truncates the file, or raises [FileNotFoundError]
    with no file made; then the value is looked up and dumped, a missing
    output field raising [KeyError] with the file left empty.  The loop
    ends at the first exception. *)
Fixpoint dump_all (outputs : DataPoint) (pairs : list (string * Path))
    (files : gmap string string) : gmap string string * option raised :=
  match pairs with
  | [] => (files, None)
  | (output_name, filename) :: rest =>
      match locate filename with
      | NoFile strerror => (files, Some (OtherException strerror ""))
      | File name =>
          let files := <[name := ""]> files in
          match dict_get output_name (inputs outputs) with
          | None =>
              (files, Some (OtherException ("'" +:+ output_name +:+ "'") ""))
          | Some value => dump_all outputs rest (<[name := value]> files)
          end
      end
  end.

(** One turn of the loop of [_load_dataset]. *)
Definition load_sample (total : Z) (r : run) (n : Z) (sample : DataPoint)
  : result run :=
  let smiles := CachePreprocessor.smiles_of sample in
  match filenames_of input_to_use_has_filename sample with
  | Raise e => Raise e
  | Ok filenames =>
      if negb overwrite && forallb (exists_ (files r)) filenames
      then Ok r
      else
        let '(outputs, raised_in_chain) :=
          AbstractPreprocessor.preprocess _featurizers _transformers sample in
        let '(files', raised) :=
          match raised_in_chain with
          | Some e => (files r, Some e)
          | None => dump_all outputs (zip feature_to_save filenames) (files r)
          end in
        let records' :=
          match raised with
          | None => records r
          | Some (FeaturizationError e _) =>
              records r ++ [{| level := WARNING; message := e |}]
          | Some (OtherException e _) =>
              records r ++ [{| level := DEBUG;
                               message := str outputs +:+ " " +:+ smiles
                                          +:+ " - " +:+ e |}]
          end in
        Ok {| files := files'; records := records';
              preprocessed := preprocessed r ++ [sample];
              completed := Some (n + 1, total) |}
  end.

Fixpoint enumerate_from (total : Z) (n : Z) (loader : list DataPoint)
    (r : run) : result run :=
  match loader with
  | [] => Ok r
  | sample :: rest =>
      match load_sample total r n sample with
      | Raise e => Raise e
      | Ok r' => enumerate_from total (n + 1) rest r'
      end
  end.

(** [_load_dataset], from the files already on disk. *)
Definition _load_dataset (loader : list DataPoint) (r : run) : result run :=
  enumerate_from (Z.of_nat (length loader)) 0 loader r.

End LoadDataset.
End FilePreprocessor.

(** ** [lib/core/helpers.py]: [CacheManager] *)

(** [hashlib.md5] (RFC 1321) over a byte string. *)
Module Md5.

Definition K : list Z := [
  0xd76aa478; 0xe8c7b756; 0x242070db; 0xc1bdceee;
  0xf57c0faf; 0x4787c62a; 0xa8304613; 0xfd469501;
  0x698098d8; 0x8b44f7af; 0xffff5bb1; 0x895cd7be;
  0x6b901122; 0xfd987193; 0xa679438e; 0x49b40821;
  0xf61e2562; 0xc040b340; 0x265e5a51; 0xe9b6c7aa;
  0xd62f105d; 0x02441453; 0xd8a1e681; 0xe7d3fbc8;
  0x21e1cde6; 0xc33707d6; 0xf4d50d87; 0x455a14ed;
  0xa9e3e905; 0xfcefa3f8; 0x676f02d9; 0x8d2a4c8a;
  0xfffa3942; 0x8771f681; 0x6d9d6122; 0xfde5380c;
  0xa4beea44; 0x4bdecfa9; 0xf6bb4b60; 0xbebfbc70;
  0x289b7ec6; 0xeaa127fa; 0xd4ef3085; 0x04881d05;
  0xd9d4d039; 0xe6db99e5; 0x1fa27cf8; 0xc4ac5665;
  0xf4292244; 0x432aff97; 0xab9423a7; 0xfc93a039;
  0x655b59c3; 0x8f0ccc92; 0xffeff47d; 0x85845dd1;
  0x6fa87e4f; 0xfe2ce6e0; 0xa3014314; 0x4e0811a1;
  0xf7537e82; 0xbd3af235; 0x2ad7d2bb; 0xeb86d391 ].

Definition shifts : list Z := [
  7; 12; 17; 22; 7; 12; 17; 22; 7; 12; 17; 22; 7; 12; 17; 22;
  5; 9; 14; 20; 5; 9; 14; 20; 5; 9; 14; 20; 5; 9; 14; 20;
  4; 11; 16; 23; 4; 11; 16; 23; 4; 11; 16; 23; 4; 11; 16; 23;
  6; 10; 15; 21; 6; 10; 15; 21; 6; 10; 15; 21; 6; 10; 15; 21 ].

Definition word (x : Z) : Z := Z.land x 0xffffffff.

Definition not32 (x : Z) : Z := Z.lxor x 0xffffffff.

Definition leftrotate (x c : Z) : Z :=
  word (Z.lor (Z.shiftl x c) (Z.shiftr x (32 - c))).

Definition nth_word (l : list Z) (i : Z) : Z := nth (Z.to_nat i) l 0.

Definition step (M : list Z) (s : Z * Z * Z * Z) (i : Z) : Z * Z * Z * Z :=
  let '(A, B, C, D) := s in
  let '(F, g) :=
    if i <? 16 then (Z.lor (Z.land B C) (Z.land (not32 B) D), i)
    else if i <? 32 then
      (Z.lor (Z.land D B) (Z.land (not32 D) C), (5 * i + 1) mod 16)
    else if i <? 48 then (Z.lxor B (Z.lxor C D), (3 * i + 5) mod 16)
    else (Z.lxor C (Z.lor B (not32 D)), (7 * i) mod 16) in
  let F := word (F + A + nth_word K i + nth_word M g) in
  (D, word (B + leftrotate F (nth_word shifts i)), B, C).

(** The little-endian 32-bit words of a block. *)
Fixpoint words (bytes : list Z) : list Z :=
  match bytes with
  | b0 :: b1 :: b2 :: b3 :: rest =>
      (b0 + 256 * (b1 + 256 * (b2 + 256 * b3))) :: words rest
  | _ => []
  end.

Definition block (s : Z * Z * Z * Z) (bytes : list Z) : Z * Z * Z * Z :=
  let '(a0, b0, c0, d0) := s in
  let '(A, B, C, D) := foldl (step (words bytes)) s (range 64) in
  (word (a0 + A), word (b0 + B), word (c0 + C), word (d0 + D)).

Definition le_bytes (n : nat) (x : Z) : list Z :=
  map (fun i => Z.land (Z.shiftr x (8 * Z.of_nat i)) 0xff) (seq 0 n).

Definition pad (message : list Z) : list Z :=
  let len := Z.of_nat (length message) in
  let zeros := Z.to_nat ((55 - len) mod 64) in
  message ++ [0x80] ++ repeat 0 zeros ++ le_bytes 8 (word (8 * len) + 2 ^ 32 * word (Z.shiftr (8 * len) 32)).

Fixpoint blocks (n : nat) (s : Z * Z * Z * Z) (bytes : list Z) : Z * Z * Z * Z :=
  match n with
  | O => s
  | S n' => blocks n' (block s (take 64 bytes)) (drop 64 bytes)
  end.

Definition hexdigit (d : Z) : ascii :=
  ascii_of_nat (Z.to_nat (if d <? 10 then 48 + d else 87 + d)).

Definition hex (byte : Z) : string :=
  String (hexdigit (byte / 16)) (String (hexdigit (byte mod 16)) EmptyString).

Definition hexdigest (message : list Z) : string :=
  let padded := pad message in
  let '(a0, b0, c0, d0) :=
    blocks (length padded / 64) (0x67452301, 0xefcdab89, 0x98badcfe, 0x10325476)
           padded in
  String.concat "" (map hex (le_bytes 4 a0 ++ le_bytes 4 b0 ++ le_bytes 4 c0 ++ le_bytes 4 d0)).

End Md5.

Module CacheManager.

(** The values that [json.dumps] serialises and [key] receives (floats
    left out). *)
#[local] Unset Elimination Schemes.
Inductive value :=
| None_
| Bool (b : bool)
| Int (z : Z)
| Str (s : string)
| List_ (items : list value)
| Dict (items : list (string * value)).
#[local] Set Elimination Schemes.

(** [sorted(dictionary.items())]: the keys of a dict are distinct, so the
    tuples are ordered by key alone. *)
Fixpoint insort (item : string * value) (l : list (string * value))
  : list (string * value) :=
  match l with
  | [] => [item]
  | item' :: rest =>
      if String.leb (fst item) (fst item') then item :: l
      else item' :: insort item rest
  end.

Definition sorted (items : list (string * value)) : list (string * value) :=
  foldr insort [] items.

(** [_sort]: the values that are dicts are replaced by their sorted form,
    then the items are sorted. *)
Fixpoint _sort_value (v : value) : value :=
  match v with
  | Dict dictionary =>
      Dict (sorted (map (fun kv => (fst kv, _sort_value (snd kv))) dictionary))
  | _ => v
  end.

Definition _sort (dictionary : list (string * value)) : list (string * value) :=
  sorted (map (fun kv => (fst kv, _sort_value (snd kv))) dictionary).

(** [json.dumps] with its defaults: [", "] and [": "] as separators,
    [ensure_ascii] on. *)
Definition quote : string := String (ascii_of_nat 34) EmptyString.

Definition escape (c : ascii) : string :=
  let n := Z.of_nat (nat_of_ascii c) in
  if n =? 34 then "\" +:+ quote
  else if n =? 92 then "\\"
  else if n =? 10 then "\n"
  else if n =? 13 then "\r"
  else if n =? 9 then "\t"
  else if n =? 8 then "\b"
  else if n =? 12 then "\f"
  else if (n <? 32) || (126 <? n) then "\u00" +:+ Md5.hex n
  else String c EmptyString.

Fixpoint escape_all (s : string) : string :=
  match s with
  | EmptyString => EmptyString
  | String c rest => escape c +:+ escape_all rest
  end.

Definition dumps_str (s : string) : string := quote +:+ escape_all s +:+ quote.

Definition dumps_int (z : Z) : string :=
  DecimalString.NilZero.string_of_int (Z.to_int z).

Fixpoint dumps (v : value) : string :=
  match v with
  | None_ => "null"
  | Bool true => "true"
  | Bool false => "false"
  | Int z => dumps_int z
  | Str s => dumps_str s
  | List_ items => "[" +:+ String.concat ", " (map dumps items) +:+ "]"
  | Dict items =>
      "{" +:+ String.concat ", "
                (map (fun kv => dumps_str (fst kv) +:+ ": " +:+ dumps (snd kv)) items)
          +:+ "}"
  end.

(** [options.encode("utf-8")] on the ASCII text of [json.dumps]. *)
Definition encode (s : string) : list Z :=
  map (fun c => Z.of_nat (nat_of_ascii c)) (list_ascii_of_string s).

Definition key (kwargs : list (string * value)) : string :=
  let options := _sort kwargs in
  let options := dumps (Dict options) in
  Md5.hexdigest (encode options).

End CacheManager.

(** ** [lib/core/helpers.py]: [SuperFactory] *)

Module Str.

(** [sub in s]. *)
Fixpoint contains (sub s : string) : bool :=
  match s with
  | EmptyString => String.prefix sub s
  | String _ rest => String.prefix sub s || contains sub rest
  end.

(** [s.replace(old, new)] for a non-empty [old]: the occurrences are
    replaced from the left, [skip] characters of a replaced occurrence
    being still to pass. *)
Fixpoint replace_from (old new : string) (skip : nat) (s : string) : string :=
  match s with
  | EmptyString => EmptyString
  | String c rest =>
      match skip with
      | S skip' => replace_from old new skip' rest
      | O =>
          if String.prefix old s
          then new +:+ replace_from old new (String.length old - 1) rest
          else String c (replace_from old new O rest)
      end
  end.

Definition replace (old new s : string) : string := replace_from old new O s.

(** [s.rsplit(".", 1)] for an [s] that holds a dot: the text before the
    last dot and the text after it. *)
Fixpoint rsplit_dot (s : string) : option (string * string) :=
  match s with
  | EmptyString => None
  | String c rest =>
      match rsplit_dot rest with
      | Some (before, after) => Some (String c before, after)
      | None => if Ascii.eqb c "."%char then Some (EmptyString, rest) else None
      end
  end.

End Str.

Module SuperFactory.

(** *** Classes *)

(** The [__init__] of a class, as the code reads it: the variable names of
    its code object (the first parameter, the named parameters, the
    [**kwargs] name if any, then the local variables of the body), how many
    of them are parameters, whether it takes [**kwargs], how many
    parameters have a default, and the annotations, each a reference
    resolved by the program's table of types. *)
Record function := {
  co_varnames : list string;
  co_argcount : nat;
  co_varkeywords : bool;
  defaults : nat;
  __annotations__ : list (string * nat)
}.

(** A class with its direct subclasses, [__subclasses__()] being unfolded
    into a tree. *)
#[local] Unset Elimination Schemes.
Inductive cls :=
| Class (__name__ : string) (__init__ : function) (__subclasses__ : list cls).
#[local] Set Elimination Schemes.

Definition __name__ (c : cls) : string := let 'Class n _ _ := c in n.
Definition __init__ (c : cls) : function := let 'Class _ f _ := c in f.
Definition __subclasses__ (c : cls) : list cls := let 'Class _ _ l := c in l.

(** What an [instantiator] or an annotation may be: a class,
    [Optional[class]], a [typing.Dict], [None], or something else
    ([int], [List[str]], ...).  [Optional[class]] is an alias object of
    the [typing] module and not the class: it has no [__subclasses__]. *)
Inductive typ :=
| T_class (c : cls)
| T_optional (c : cls)
| T_dict
| T_none
| T_other.

(** *** Values and the store of dict objects *)

Abbreviation addr := nat.

(** A dict is a mutable object: a value holds a reference to it.  An
    instance is represented by the name of its class and the keyword
    arguments its constructor received. *)
#[local] Unset Elimination Schemes.
Inductive pyval :=
| PNone
| PBool (b : bool)
| PInt (z : Z)
| PStr (s : string)
| PList (items : list pyval)
| PDict (a : addr)
| PInstance (class_name : string) (kwargs : list (string * pyval)).
#[local] Set Elimination Schemes.

Abbreviation dict := (list (string * pyval)).
Abbreviation heap := (list dict).

(** [d[k] = v]: in place for a key that is there, at the end otherwise. *)
Fixpoint dict_set {V} (k : string) (v : V) (d : list (string * V))
  : list (string * V) :=
  match d with
  | [] => [(k, v)]
  | (k', v') :: rest =>
      if String.eqb k k' then (k, v) :: rest else (k', v') :: dict_set k v rest
  end.

(** [{**d1, **d2}]. *)
Definition dict_merge {V} (d1 d2 : list (string * V)) : list (string * V) :=
  foldl (fun d kv => dict_set (fst kv) (snd kv) d) d1 d2.

Fixpoint dict_remove {V} (k : string) (d : list (string * V))
  : list (string * V) :=
  match d with
  | [] => []
  | (k', v') :: rest =>
      if String.eqb k k' then rest else (k', v') :: dict_remove k rest
  end.

Definition keys {V} (d : list (string * V)) : list string := map fst d.

Definition mem (k : string) (l : list string) : bool :=
  existsb (String.eqb k) l.

(** Code that runs on the store and may raise; what was written before an
    exception stays written. *)
Definition M (A : Type) : Type := heap -> heap * result A.

Definition ret {A} (a : A) : M A := fun h => (h, Ok a).

Definition bind {A B} (m : M A) (f : A -> M B) : M B := fun h =>
  match m h with
  | (h', Ok a) => f a h'
  | (h', Raise e) => (h', Raise e)
  end.

Notation "'let*' x ':=' m 'in' k" := (bind m (fun x => k))
  (at level 10, x name, m at level 100, k at level 200).
Notation "m ';;' k" := (bind m (fun _ => k))
  (at level 100, k at level 200, right associativity).

Definition raise {A} (e : exn) : M A := fun h => (h, Raise e).

Definition lift {A} (r : result A) : M A := fun h => (h, r).

Definition read (a : addr) : M dict := fun h =>
  match h !! a with
  | Some d => (h, Ok d)
  | None => (h, Raise (TypeError "not a dict"))
  end.

Definition write (a : addr) (d : dict) : M unit := fun h =>
  (<[a := d]> h, Ok tt).

(** [d.copy()]: a new dict object with the same items. *)
Definition copy (a : addr) : M addr :=
  let* d := read a in fun h => (h ++ [d], Ok (length h)).

(** [d.pop(k)]. *)
Definition pop (a : addr) (k : string) : M pyval :=
  let* d := read a in
  match dict_get k d with
  | None => raise (KeyError k)
  | Some v => write a (dict_remove k d);; ret v
  end.

(** [d[k] = v]. *)
Definition setitem (a : addr) (k : string) (v : pyval) : M unit :=
  let* d := read a in write a (dict_set k v d).

(** [m] leaves the first [n] objects of the store as they are, lets the
    store only grow, and its result satisfies [post]. *)
Definition keeps {A} (n : nat) (m : M A) (post : A → Prop) : Prop :=
  ∀ h, (n ≤ length h)%nat →
    take n (m h).1 = take n h
    ∧ (length h ≤ length (m h).1)%nat
    ∧ match (m h).2 with Ok x => post x | Raise _ => True end.

(** *** [find_descendants] *)

Fixpoint find_descendants (parent : cls) : list (string * cls) :=
  let 'Class _ _ children := parent in
  (fix loop (children : list cls) (descendants : list (string * cls)) :=
     match children with
     | [] => descendants
     | child :: rest =>
         let descendants := dict_set (__name__ child) child descendants in
         loop rest
           (if (0 <? length (__subclasses__ child))%nat
            then dict_merge descendants (find_descendants child)
            else descendants)
     end) children [].

(** One turn of the loop of [find_descendants]. *)
Definition visit (descendants : list (string * cls)) (child : cls)
  : list (string * cls) :=
  let descendants := dict_set (__name__ child) child descendants in
  if (0 <? length (__subclasses__ child))%nat
  then dict_merge descendants (find_descendants child)
  else descendants.

(** *** [create] *)

Section Create.
(** [humps.pascalize]. *)
Variable pascalize : string -> string.
(** The modules that [importlib.import_module] finds, with the classes they
    define. *)
Variable modules : string -> option (list (string * cls)).
(** The types that the annotations refer to. *)
Variable types : nat -> typ.

Definition reflect (dependency : string) : result cls :=
  match Str.rsplit_dot dependency with
  | None => Raise (TypeError "rsplit")
  | Some (module_name, class_name) =>
      match modules module_name with
      | None => Raise (ModuleNotFoundError module_name)
      | Some module =>
          match dict_get class_name module with
          | None => Raise (AttributeError class_name)
          | Some c => Ok c
          end
      end
  end.

(** [instantiator] called with [options] as keywords.  They are bound to the parameters of
    [__init__]: a keyword that is no parameter (and no [**kwargs] takes it)
    or that names the first parameter, and a parameter without default that
    gets no value, raise [TypeError].  The body of the constructor is taken
    to succeed. *)
Definition named_parameters (f : function) : list string :=
  drop 1 (take (co_argcount f) (co_varnames f)).

Definition accepts (f : function) (k : string) : bool :=
  negb (mem k (take 1 (co_varnames f)))
  && (mem k (named_parameters f) || co_varkeywords f).

Definition required (f : function) : list string :=
  take (co_argcount f - 1 - defaults f) (named_parameters f).

Definition call (c : cls) (options : dict) : result pyval :=
  let f := __init__ c in
  match List.find (fun k => negb (accepts f k)) (keys options) with
  | Some k => Raise (TypeError ("unexpected keyword argument " +:+ k))
  | None =>
      match List.find (fun p => negb (mem p (keys options))) (required f) with
      | Some p => Raise (TypeError ("missing required argument " +:+ p))
      | None => Ok (PInstance (__name__ c) options)
      end
  end.

(** What the interpreter and the libraries make of the rest of [create]
    on an input that the model does not cover: an [instantiator] that is
    no class of the program ([None], [Optional[...]] or another typing
    construct, a builtin), a ["type"] entry that is no [str].  It is given
    the instantiator, the items of the parameters as the caller passed
    them, and the loaded parameters.  (For [Optional[...]] and a ["type"]
    without a dot it is the [AttributeError] of the alias, which has no
    [__subclasses__] and, before Python 3.10, no [__name__].) *)
Variable otherwise : typ -> dict -> option dict -> result pyval.

(** Lines 73 to 94: the class that the code goes on with, [None] on an
    input that the model does not cover. *)
Definition resolve (instantiator : typ) (dynamic_parameters : addr)
  : M (option cls) :=
  let* d := read dynamic_parameters in
  if mem "type" (keys d) then
    let* dependency_type := pop dynamic_parameters "type" in
    match dependency_type with
    | PStr dependency_type =>
        if Str.contains "." dependency_type then
          let* c := lift (reflect dependency_type) in ret (Some c)
        else
          (* [type(instantiator) is type(Union)] holds neither for a class
             nor for [Optional[...]]: from Python 3.7 to 3.13 [typing.Union]
             is a special form and [Optional[...]] a generic alias, of
             another type.  Lines 81 and 82 are not reached and the
             instantiator stays as it was given. *)
          match instantiator with
          | T_class parent =>
              let option_key := Str.replace "Abstract" "" (__name__ parent) in
              let dependency_name :=
                pascalize (dependency_type +:+ "_" +:+ option_key) in
              let subclasses := find_descendants parent in
              match dict_get dependency_name subclasses with
              | None =>
                  raise (ReflectionError
                           (DependencyNotFound dependency_name (keys subclasses)))
              | Some c => ret (Some c)
              end
          | _ => ret None
          end
    | _ => ret None
    end
  else
    match instantiator with
    | T_class c => ret (Some c)
    | _ => ret None
    end.

(** Lines 100 to 115: the loop over the items of the copy. *)
Fixpoint inject (create : typ -> addr -> M pyval) (instantiator : cls)
    (dynamic_parameters : addr) (items : dict) : M unit :=
  match items with
  | [] => ret tt
  | (option_name, option_value) :: rest =>
      let parameters := co_varnames (__init__ instantiator) in
      let attributes := __annotations__ (__init__ instantiator) in
      if negb (mem option_name parameters) then
        raise (ReflectionError
                 (UnknownOption (__name__ instantiator) option_name))
      else
        match dict_get option_name attributes with
        | None => inject create instantiator dynamic_parameters rest
        | Some t =>
            match option_value, types t with
            | PDict _, T_dict =>
                inject create instantiator dynamic_parameters rest
            | PDict nested, attribute =>
                let* v := create attribute nested in
                setitem dynamic_parameters option_name v;;
                inject create instantiator dynamic_parameters rest
            | _, _ => inject create instantiator dynamic_parameters rest
            end
        end
  end.

(** Lines 96 to 121, for a class. *)
Definition build (create : typ -> addr -> M pyval) (instantiator : cls)
    (dynamic_parameters : addr) (loaded_parameters : option dict) : M pyval :=
  let* items := read dynamic_parameters in
  (if (0 <? length items)%nat
   then inject create instantiator dynamic_parameters items
   else ret tt);;
  let* options := read dynamic_parameters in
  let options :=
    match loaded_parameters with
    | Some loaded => dict_merge options loaded
    | None => options
    end in
  lift (call instantiator options).

(** [create(instantiator, dynamic_parameters, loaded_parameters)], with
    [depth] frames left on the interpreter's stack. *)
Fixpoint create (depth : nat) (instantiator : typ) (dynamic_parameters : addr)
    (loaded_parameters : option dict) : M pyval :=
  match depth with
  | O => raise RecursionError
  | S depth' =>
      let* given := read dynamic_parameters in
      let* dynamic_parameters := copy dynamic_parameters in
      let* resolved := resolve instantiator dynamic_parameters in
      match resolved with
      | Some c =>
          build (fun attribute nested => create depth' attribute nested None)
                c dynamic_parameters loaded_parameters
      | None => lift (otherwise instantiator given loaded_parameters)
      end
  end.

End Create.
End SuperFactory.

(** ** [CacheManager._sort] on dict objects *)

(** [_sort] assigns to the dict it is given ([dictionary[key] = ...]):
    here it runs on the store of dict objects, to tell what a call does to
    the dicts of its caller.  [CacheManager._sort] above is the value it
    returns. *)
Module CacheManagerObjects.
Import SuperFactory.

Fixpoint insort (item : string * pyval) (l : dict) : dict :=
  match l with
  | [] => [item]
  | item' :: rest =>
      if String.leb (fst item) (fst item') then item :: l
      else item' :: insort item rest
  end.

(** [sorted(dictionary.items())], the keys being distinct. *)
Definition sorted (items : dict) : dict := foldr insort [] items.

(** [dict(items)]: a new dict object. *)
Definition new_dict (items : dict) : M addr := fun h =>
  (h ++ [items], Ok (length h)).

(** [d[k]]. *)
Definition getitem (a : addr) (k : string) : M pyval :=
  let* d := read a in
  match dict_get k d with
  | Some v => ret v
  | None => raise (KeyError k)
  end.

(** The loop over [dictionary.items()].  The view is a live one: the
    value of a key is read when the loop comes to it; the assignments are
    to keys that are there, so that the keys and their order stay. *)
Fixpoint sort_values (_sort : addr -> M addr) (dictionary : addr)
    (keys : list string) : M unit :=
  match keys with
  | [] => ret tt
  | key :: rest =>
      let* value := getitem dictionary key in
      (match value with
       | PDict nested =>
           let* sorted_value := _sort nested in
           setitem dictionary key (PDict sorted_value)
       | _ => ret tt
       end);;
      sort_values _sort dictionary rest
  end.

(** [_sort(dictionary)], with [depth] frames left on the stack. *)
Fixpoint _sort (depth : nat) (dictionary : addr) : M addr :=
  match depth with
  | O => raise RecursionError
  | S depth' =>
      let* items := read dictionary in
      sort_values (_sort depth') dictionary (keys items);;
      let* items := read dictionary in
      new_dict (sorted items)
  end.

End CacheManagerObjects.

(** ** Reference definitions, after the specification *)

Module Reference.

Section SequentialRun.
Variables _featurizers _transformers : list stage.

(** A single-threaded sequential run over the dataset and the transform
    chain: the samples are transformed one after the other, in their order,
    and those whose transform fails are left out. *)
Fixpoint sequential_run (dataset : list DataPoint) : list DataPoint :=
  match dataset with
  | [] => []
  | sample :: rest =>
      match AbstractPreprocessor.preprocess _featurizers _transformers sample with
      | (sample', None) => sample' :: sequential_run rest
      | (_, Some _) => sequential_run rest
      end
  end.

End SequentialRun.

Import CacheManager.

(** Two values that differ only in the ordering of keys inside maps, at
    any nesting depth: scalars are the same, lists hold such values at the
    same positions, and maps hold such values under the same keys, the
    keys coming in any order. *)
Inductive reordered : value -> value -> Prop :=
| reordered_same v : reordered v v
| reordered_list l1 l2 :
    reordered_each l1 l2 -> reordered (List_ l1) (List_ l2)
| reordered_dict d1 d2 :
    reordered_items d1 d2 -> reordered (Dict d1) (Dict d2)
with reordered_each : list value -> list value -> Prop :=
| each_nil : reordered_each [] []
| each_cons v1 v2 l1 l2 :
    reordered v1 v2 -> reordered_each l1 l2 ->
    reordered_each (v1 :: l1) (v2 :: l2)
with reordered_items : list (string * value) -> list (string * value) -> Prop :=
| items_nil : reordered_items [] []
| items_cons k v1 v2 d1 d2 :
    reordered v1 v2 -> reordered_items d1 d2 ->
    reordered_items ((k, v1) :: d1) ((k, v2) :: d2)
| items_perm d1 d1' d2 :
    Permutation d1 d1' -> reordered_items d1' d2 -> reordered_items d1 d2.

Scheme reordered_min := Minimality for reordered Sort Prop
  with reordered_each_min := Minimality for reordered_each Sort Prop
  with reordered_items_min := Minimality for reordered_items Sort Prop.

(** No map anywhere in the value. *)
Fixpoint dict_free (v : value) : bool :=
  match v with
  | Dict _ => false
  | List_ items => forallb dict_free items
  | _ => true
  end.

(** Every map of the value is the parameter map itself or the value of a
    key of such a map; no list holds a map. *)
Fixpoint maps_only_under_keys (v : value) : bool :=
  match v with
  | Dict items => forallb (fun kv => maps_only_under_keys (snd kv)) items
  | List_ items => forallb dict_free items
  | _ => true
  end.

(** The keys of a dict are distinct, in every map reached through keys. *)
Fixpoint distinct_keys (v : value) : bool :=
  match v with
  | Dict items =>
      bool_decide (NoDup (map fst items))
      && forallb (fun kv => distinct_keys (snd kv)) items
  | _ => true
  end.

(** The keys of the items come in ascending order. *)
Fixpoint ascending (items : list (string * value)) : bool :=
  match items with
  | x :: (y :: _) as rest => String.leb (fst x) (fst y) && ascending rest
  | _ => true
  end.

(** A dict none of whose values is a dict. *)
Definition flat (items : SuperFactory.dict) : bool :=
  forallb (fun kv => match snd kv with
                     | SuperFactory.PDict _ => false
                     | _ => true
                     end) items.

(** The classes below [parent]: its subclasses, and theirs, at any depth. *)
Inductive descendant : SuperFactory.cls -> SuperFactory.cls -> Prop :=
| descendant_child c parent :
    In c (SuperFactory.__subclasses__ parent) -> descendant c parent
| descendant_below c child parent :
    In child (SuperFactory.__subclasses__ parent) -> descendant c child ->
    descendant c parent.

(** The samples of the augmented datasets that are plain lists, and those
    of the loaders, in the order of the augmentations. *)
Definition listed (aug_datasets : list OnlinePreprocessor.aug_dataset)
  : list DataPoint :=
  flat_map (fun dataset =>
              match dataset with
              | OnlinePreprocessor.AsList samples => samples
              | OnlinePreprocessor.AsLoader _ => []
              end) aug_datasets.

Definition loaded (aug_datasets : list OnlinePreprocessor.aug_dataset)
  : list DataPoint :=
  flat_map (fun dataset =>
              match dataset with
              | OnlinePreprocessor.AsList _ => []
              | OnlinePreprocessor.AsLoader samples => samples
              end) aug_datasets.

End Reference.

(** ** Data for the scenarios *)

Module Scenario.

Definition sample (i : Z) (smiles : string) : DataPoint :=
  {| id_ := i; inputs := [("smiles", smiles)] |}.

(** Ten samples, numbered from 0. *)
Definition ten_samples : list DataPoint :=
  map (fun i => sample i ("C" +:+ CacheManager.dumps_int i)) (range 10).

Definition show (s : DataPoint) : string :=
  "DataPoint(id_=" +:+ CacheManager.dumps_int (id_ s) +:+ ")".

Definition trace : string := "Traceback (most recent call last): ...".

(** A featurizer that raises the recoverable error on the samples whose
    identifier is listed. *)
Definition rejects (ids : list Z) : stage := fun s =>
  if bool_decide (id_ s ∈ ids)
  then (s, Some (FeaturizationError "invalid molecule" trace))
  else (s, None).

(** A featurizer that raises some other exception on every sample. *)
Definition crashes : stage := fun s =>
  (s, Some (OtherException "division by zero" trace)).

(** A featurizer that adds a [graph] field computed from the SMILES text. *)
Definition draws : stage := fun s =>
  ({| id_ := id_ s;
      inputs := inputs s ++ [("graph", "G(" +:+ CachePreprocessor.smiles_of s +:+ ")")] |},
   None).

(** A transformer that puts a [scaled] field in front of the inputs, and
    takes the first field away again. *)
Definition scales : AbstractPreprocessor.transformer :=
  {| AbstractPreprocessor.apply := fun s =>
       ({| id_ := id_ s; inputs := ("scaled", "1") :: inputs s |}, None);
     AbstractPreprocessor.reverse := fun s =>
       ({| id_ := id_ s; inputs := tail (inputs s) |}, None) |}.

(** Loaders whose sum is a loader over the samples of both, and whose
    [get_all] is the list of their samples. *)
Definition samples_of (dataset : OnlinePreprocessor.aug_dataset) : list DataPoint :=
  match dataset with
  | OnlinePreprocessor.AsList samples
  | OnlinePreprocessor.AsLoader samples => samples
  end.

Definition concat_loaders (x y : OnlinePreprocessor.aug_dataset)
  : result OnlinePreprocessor.aug_dataset :=
  Ok (OnlinePreprocessor.AsLoader (samples_of x ++ samples_of y)).

Definition list_of (x : OnlinePreprocessor.aug_dataset)
  : result OnlinePreprocessor.aug_dataset :=
  Ok (OnlinePreprocessor.AsList (samples_of x)).

Definition no_files : FilePreprocessor.run :=
  {| FilePreprocessor.files := ∅; FilePreprocessor.records := [];
     FilePreprocessor.preprocessed := []; FilePreprocessor.completed := None |}.

(** A disk that holds the folder of the features with the directory of
    every field, as [FilePreprocessor.__init__] makes them, and no other
    directory: segments without a slash name the file of their joined
    text, and a value with a slash, such as [a/b], names no file. *)
Definition locate (filename : FilePreprocessor.Path) : FilePreprocessor.located :=
  let text := String.concat "/" filename in
  if existsb (Str.contains "/") filename
  then FilePreprocessor.NoFile
         ("[Errno 2] No such file or directory: '" +:+ text +:+ "'")
  else FilePreprocessor.File text.

(** Two molecules under one name, of two batches; the file of the second
    batch is on disk. *)
Definition ethanol : DataPoint :=
  {| id_ := 0;
     inputs := [("smiles", "CCO"); ("name", "alcohol"); ("batch", "b1")] |}.

Definition methanol : DataPoint :=
  {| id_ := 1;
     inputs := [("smiles", "CO"); ("name", "alcohol"); ("batch", "b2")] |}.

Definition second_batch : FilePreprocessor.run :=
  {| FilePreprocessor.files := {[ "features/batch/b2.pkl" := "b2" ]};
     FilePreprocessor.records := [];
     FilePreprocessor.preprocessed := []; FilePreprocessor.completed := None |}.

(** [humps.pascalize] on the names of the scenarios, lower-case words and
    the name of a class joined by single underscores ([foo_Bar],
    [message_passing_Network]): the first letter and the letters after an
    underscore in upper case, the underscores left out.  On other text
    [humps] does otherwise: a name all in upper case is returned as it
    is, and hyphens and underscores at the ends have rules of their own. *)
Definition upper (c : ascii) : ascii :=
  let n := nat_of_ascii c in
  if (96 <? n)%nat && (n <? 123)%nat then ascii_of_nat (n - 32) else c.

Fixpoint pascalize_from (capital : bool) (s : string) : string :=
  match s with
  | EmptyString => EmptyString
  | String c rest =>
      if Ascii.eqb c "_"%char then pascalize_from true rest
      else String (if capital then upper c else c) (pascalize_from false rest)
  end.

Definition pascalize (s : string) : string := pascalize_from true s.

Import SuperFactory.

(** The networks of [lib/model/architectures.py]. *)
Definition GraphConvolutionalNetwork : cls :=
  Class "GraphConvolutionalNetwork"
    {| co_varnames :=
         ["self"; "in_features"; "hidden_features"; "out_features";
          "molecule_features"; "dropout"; "layer_type"; "layers_count";
          "is_residual"; "norm_layer"; "activation"; "kwargs"; "_"];
       co_argcount := 11; co_varkeywords := true; defaults := 5;
       __annotations__ :=
         [("in_features", 0); ("hidden_features", 0); ("out_features", 0);
          ("molecule_features", 0); ("dropout", 0); ("layer_type", 0);
          ("layers_count", 0); ("is_residual", 0); ("norm_layer", 0);
          ("activation", 0)]%nat |} [].

Definition MessagePassingNetwork : cls :=
  Class "MessagePassingNetwork"
    {| co_varnames :=
         ["self"; "in_features"; "hidden_features"; "out_features";
          "edge_features"; "edge_hidden"; "steps"; "dropout"; "aggregation";
          "set2set_layers"; "set2set_steps"; "edge_network"];
       co_argcount := 11; co_varkeywords := false; defaults := 4;
       __annotations__ :=
         [("in_features", 0); ("hidden_features", 0); ("out_features", 0);
          ("edge_features", 0); ("edge_hidden", 0); ("steps", 0);
          ("dropout", 0); ("aggregation", 0); ("set2set_layers", 0);
          ("set2set_steps", 0)]%nat |} [].

Definition TripletMessagePassingNetwork : cls :=
  Class "TripletMessagePassingNetwork"
    {| co_varnames :=
         ["self"; "in_features"; "hidden_features"; "out_features";
          "edge_features"; "layers_count"; "dropout"; "set2set_layers";
          "set2set_steps"];
       co_argcount := 9; co_varkeywords := false; defaults := 3;
       __annotations__ :=
         [("in_features", 0); ("hidden_features", 0); ("out_features", 0);
          ("edge_features", 0); ("layers_count", 0); ("dropout", 0);
          ("set2set_layers", 0); ("set2set_steps", 0)]%nat |} [].

Definition AbstractNetwork : cls :=
  Class "AbstractNetwork"
    {| co_varnames := ["self"]; co_argcount := 1; co_varkeywords := false;
       defaults := 0; __annotations__ := [] |}
    [GraphConvolutionalNetwork; MessagePassingNetwork;
     TripletMessagePassingNetwork].

(** Annotations that are no class of the program ([int], [float],
    [str], ...), and no importable module. *)
Definition builtin_types : nat -> typ := fun _ => T_other.
Definition no_modules : string -> option (list (string * cls)) := fun _ => None.
Definition not_covered : typ -> dict -> option dict -> result pyval :=
  fun _ _ _ => Raise (TypeError "not covered").

(** The family of the factory-resolution scenario: [AbstractBar] with the
    descendants [FooBar] and [BazBar]. *)
Definition plain_init : function :=
  {| co_varnames := ["self"]; co_argcount := 1; co_varkeywords := false;
     defaults := 0; __annotations__ := [] |}.

Definition FooBar : cls := Class "FooBar" plain_init [].
Definition BazBar : cls := Class "BazBar" plain_init [].
Definition AbstractBar : cls := Class "AbstractBar" plain_init [FooBar; BazBar].

(** A family with a nested object: [ChainStep] takes an [inner] step,
    annotated with the abstract type, entry 1 of the table of types. *)
Definition LoadStep : cls := Class "LoadStep" plain_init [].

Definition ChainStep : cls :=
  Class "ChainStep"
    {| co_varnames := ["self"; "inner"]; co_argcount := 2;
       co_varkeywords := false; defaults := 0;
       __annotations__ := [("inner", 1%nat)] |} [].

Definition AbstractStep : cls :=
  Class "AbstractStep" plain_init [LoadStep; ChainStep].

Definition step_types : nat -> typ := fun t =>
  match t with
  | 1%nat => T_class AbstractStep
  | _ => T_other
  end.

(** The module [lib.model.architectures], the only one that can be
    imported. *)
Definition lib_modules : string -> option (list (string * cls)) :=
  fun module_name =>
    if String.eqb module_name "lib.model.architectures"
    then Some [("AbstractNetwork", AbstractNetwork);
               ("GraphConvolutionalNetwork", GraphConvolutionalNetwork);
               ("MessagePassingNetwork", MessagePassingNetwork);
               ("TripletMessagePassingNetwork", TripletMessagePassingNetwork)]
    else None.

(** A step that keeps its options as a dict: [options] is annotated
    [Dict[str, Any]], entry 2 of the table of types, and [inner] with the
    abstract type. *)
Definition ConfiguredStep : cls :=
  Class "ConfiguredStep"
    {| co_varnames := ["self"; "inner"; "options"]; co_argcount := 3;
       co_varkeywords := false; defaults := 0;
       __annotations__ := [("inner", 1%nat); ("options", 2%nat)] |} [].

Definition option_types : nat -> typ := fun t =>
  match t with
  | 1%nat => T_class AbstractStep
  | 2%nat => T_dict
  | _ => T_other
  end.

End Scenario.

(** * Properties *)

(** ** Chunks *)

Section Chunks.
Import AbstractPreprocessor.

Lemma range_length n : length (range n) = Z.to_nat n.
Proof. unfold range. by rewrite length_map, length_seq. Qed.

Lemma range_snoc (k : nat) :
  range (Z.of_nat (S k)) = range (Z.of_nat k) ++ [Z.of_nat k].
Proof.
  unfold range. rewrite !Nat2Z.id, seq_S, map_app. reflexivity.
Qed.

(** A slice between bounds that are not negative. *)
Lemma slice_nonneg {A} (l : list A) (lo hi : nat) :
  slice l (Z.of_nat lo) (Z.of_nat hi) = take (hi - lo) (drop lo l).
Proof.
  unfold slice, slice_index.
  destruct (Z.ltb_spec (Z.of_nat lo) 0); [lia|].
  destruct (Z.ltb_spec (Z.of_nat hi) 0); [lia|].
  destruct (decide (length l ≤ lo)%nat) as [Hlo|Hlo].
  - rewrite !(drop_ge l) by lia. by rewrite !take_nil.
  - replace (Z.to_nat (Z.of_nat lo `min` Z.of_nat (length l))) with lo by lia.
    destruct (decide (hi ≤ length l)%nat).
    + f_equal. lia.
    + rewrite !take_ge; [done | rewrite length_drop; lia ..].
Qed.

(** The first [k] chunks of [c] elements put end to end. *)
Lemma concat_slices {A} (l : list A) (c k : nat) :
  concat (map (fun i => slice l (i * Z.of_nat c) ((i + 1) * Z.of_nat c))
              (range (Z.of_nat k)))
  = take (k * c) l.
Proof.
  induction k as [|k IH].
  - reflexivity.
  - rewrite range_snoc, map_app, concat_app, IH. simpl.
    replace (Z.of_nat k * Z.of_nat c) with (Z.of_nat (k * c)) by lia.
    replace ((Z.of_nat k + 1) * Z.of_nat c) with (Z.of_nat (k * c + c)) by lia.
    rewrite slice_nonneg, app_nil_r, take_take_drop.
    f_equal. lia.
Qed.

(** The chunk at a position is a run of consecutive indices. *)
Lemma slice_range (len lo hi : nat) :
  slice (range (Z.of_nat len)) (Z.of_nat lo) (Z.of_nat hi)
  = map Z.of_nat (seq lo ((hi - lo) `min` (len - lo))).
Proof.
  rewrite slice_nonneg. unfold range.
  rewrite Nat2Z.id, skipn_map, firstn_map, drop_seq, take_seq.
  reflexivity.
Qed.

(** With at least as many samples as jobs, [_get_chunks] returns chunks
    of [c = len // n_jobs] indices, [k = ceil(len / c)] of them. *)
Lemma get_chunks_unfold (n_jobs : Z) (len : nat) :
  1 ≤ n_jobs ≤ Z.of_nat len →
  ∃ c k : nat,
    Z.of_nat c = Z.of_nat len / n_jobs ∧
    Z.of_nat k = (Z.of_nat len + Z.of_nat c - 1) / Z.of_nat c ∧
    (1 ≤ c)%nat ∧ (len ≤ k * c)%nat ∧ ((k - 1) * c < len)%nat ∧
    _get_chunks n_jobs len
    = Ok (map (fun i => slice (range (Z.of_nat len))
                              (i * Z.of_nat c) ((i + 1) * Z.of_nat c))
              (range (Z.of_nat k))).
Proof.
  intros Hn.
  assert (Hc : 1 ≤ Z.of_nat len / n_jobs)
    by (apply Z.div_le_lower_bound; lia).
  set (c := Z.of_nat len / n_jobs) in *.
  assert (Hk : 0 ≤ (Z.of_nat len + c - 1) / c)
    by (apply Z.div_pos; lia).
  exists (Z.to_nat c), (Z.to_nat ((Z.of_nat len + c - 1) / c)).
  rewrite !Z2Nat.id by lia.
  pose proof (Z.div_mod (Z.of_nat len + c - 1) c ltac:(lia)) as Hdm.
  pose proof (Z.mod_pos_bound (Z.of_nat len + c - 1) c ltac:(lia)) as Hmod.
  set (k := (Z.of_nat len + c - 1) / c) in *.
  repeat split; try lia; try nia.
  unfold _get_chunks, floordiv. fold c.
  destruct (Z.eqb_spec n_jobs 0); [lia|].
  destruct (Z.eqb_spec c 0); [lia|].
  reflexivity.
Qed.

Lemma get_chunks_concat (n_jobs : Z) (len : nat) :
  1 ≤ n_jobs ≤ Z.of_nat len →
  ∃ chunks, _get_chunks n_jobs len = Ok chunks
            ∧ concat chunks = range (Z.of_nat len).
Proof.
  intros Hn. destruct (get_chunks_unfold n_jobs len Hn)
    as (c & k & _ & _ & Hc & Hk & _ & ->).
  eexists. split; [reflexivity|].
  rewrite concat_slices. apply take_ge. rewrite range_length. lia.
Qed.

(** With fewer samples than jobs the chunk size is zero and the second
    division raises. *)
Lemma get_chunks_zero_division (n_jobs : Z) (len : nat) :
  Z.of_nat len < n_jobs →
  _get_chunks n_jobs len = Raise ZeroDivisionError.
Proof.
  intros Hn. unfold _get_chunks, floordiv.
  destruct (Z.eqb_spec n_jobs 0); [reflexivity|].
  rewrite Z.div_small by lia. reflexivity.
Qed.

End Chunks.

Section ChunkClaims.
Import AbstractPreprocessor.

Lemma range_lookup (n : Z) (i : nat) (x : Z) :
  range n !! i = Some x → x = Z.of_nat i ∧ (i < Z.to_nat n)%nat.
Proof.
  unfold range. rewrite list_lookup_fmap.
  destruct (seq 0 (Z.to_nat n) !! i) as [j|] eqn:Hj; [|done].
  apply lookup_seq in Hj as [-> ?]. simpl. intros [= <-]. split; [done | lia].
Qed.

(** C2, on the code: for a dataset with fewer samples than featurization
    jobs [_get_chunks] produces no chunk at all; the chunk size
    [len // n_jobs] is zero and the next division raises
    [ZeroDivisionError]. *)
Theorem get_chunks_fewer_samples_than_jobs (n_jobs : Z) (len : nat) :
  1 ≤ Z.of_nat len → Z.of_nat len < n_jobs →
  _get_chunks n_jobs len = Raise ZeroDivisionError.
Proof. intros _ Hn. by apply get_chunks_zero_division. Qed.

(** Three samples with the default of four jobs. *)
Lemma get_chunks_three_samples_four_jobs :
  _get_chunks 4 3 = Raise ZeroDivisionError.
Proof. apply (get_chunks_fewer_samples_than_jobs 4 3); simpl; lia. Defined.

(** C6, as stated, fails: ten samples and four jobs give five chunks of
    two, not four chunks with a longer last one. *)
Lemma get_chunks_count_is_not_n_jobs :
  ∃ chunks, _get_chunks 4 10 = Ok chunks
            ∧ chunks = [[0; 1]; [2; 3]; [4; 5]; [6; 7]; [8; 9]]
            ∧ Z.of_nat (length chunks) ≠ 4.
Proof. eexists. split; [reflexivity|]. split; [reflexivity|]. simpl. lia. Qed.

(** C6, amended: with [1 <= n_jobs <= len] the chunks are runs of
    consecutive indices of [c = len // n_jobs] elements each, the last one
    holding what is left (between 1 and [c] elements); there are
    [ceil(len / c)] of them, at least [n_jobs], and exactly [n_jobs] when
    [n_jobs] divides [len]. *)
Theorem get_chunks_shape (n_jobs : Z) (len : nat) :
  1 ≤ n_jobs ≤ Z.of_nat len →
  ∃ chunks, _get_chunks n_jobs len = Ok chunks ∧
    let c := Z.of_nat len / n_jobs in
    Z.of_nat (length chunks) = (Z.of_nat len + c - 1) / c ∧
    n_jobs ≤ Z.of_nat (length chunks) ∧
    (Z.of_nat len mod n_jobs = 0 → Z.of_nat (length chunks) = n_jobs) ∧
    ∀ (i : nat) chunk, chunks !! i = Some chunk →
      chunk ≠ [] ∧
      chunk = map Z.of_nat
                (seq (i * Z.to_nat c) (Z.to_nat c `min` (len - i * Z.to_nat c))).
Proof.
  intros Hn. destruct (get_chunks_unfold n_jobs len Hn)
    as (c & k & Hc & Hk & Hc1 & Hkc & Hlast & ->).
  eexists. split; [reflexivity|]. cbv zeta.
  rewrite <- Hc, length_map, range_length, !Nat2Z.id, <- Hk.
  pose proof (Z.mul_div_le (Z.of_nat len) n_jobs ltac:(lia)) as Hle.
  rewrite <- Hc in Hle.
  split; [done|]. split; [nia|]. split.
  - intros Hmod.
    pose proof (Z.div_mod (Z.of_nat len) n_jobs ltac:(lia)) as Hdm.
    rewrite Hmod, <- Hc in Hdm. nia.
  - intros i chunk. rewrite list_lookup_fmap.
    destruct (range (Z.of_nat k) !! i) as [x|] eqn:Hx; [|done].
    apply range_lookup in Hx as [-> Hi]. simpl. intros [= <-].
    replace (Z.of_nat i * Z.of_nat c) with (Z.of_nat (i * c)) by lia.
    replace ((Z.of_nat i + 1) * Z.of_nat c) with (Z.of_nat (i * c + c)) by lia.
    rewrite slice_range.
    replace (i * c + c - i * c)%nat with c by lia.
    split; [|done].
    assert (i * c < len)%nat by nia.
    destruct (c `min` (len - i * c))%nat eqn:Hmin; [lia | done].
Qed.

Lemma get_chunks_shape_10_3 :
  1 ≤ 3 ≤ Z.of_nat 10 ∧
  ∃ chunks, _get_chunks 3 10 = Ok chunks ∧
    let c := Z.of_nat 10 / 3 in
    Z.of_nat (length chunks) = (Z.of_nat 10 + c - 1) / c ∧
    3 ≤ Z.of_nat (length chunks) ∧
    (Z.of_nat 10 mod 3 = 0 → Z.of_nat (length chunks) = 3) ∧
    ∀ (i : nat) chunk, chunks !! i = Some chunk →
      chunk ≠ [] ∧
      chunk = map Z.of_nat
                (seq (i * Z.to_nat c) (Z.to_nat c `min` (10 - i * Z.to_nat c))).
Proof.
  split; [lia|]. apply (get_chunks_shape 3 10). lia.
Defined.

End ChunkClaims.

(** ** The per-sample loop of [CachePreprocessor] *)

Section PrepareChunkFacts.
Import CachePreprocessor.
Variables _featurizers _transformers : list stage.
Variable str : DataPoint -> string.

#[local] Abbreviation preprocess := (AbstractPreprocessor.preprocess _featurizers _transformers).
#[local] Abbreviation prepare_sample := (prepare_sample _featurizers _transformers str).
#[local] Abbreviation enumerate_from := (enumerate_from _featurizers _transformers str).
#[local] Abbreviation _prepare_chunk := (_prepare_chunk _featurizers _transformers str).

(** What one sample adds to the list and to the log does not depend on
    what was there, nor on the task and the position. *)
Lemma prepare_sample_adds task_id total w n sample :
  dataset (prepare_sample task_id total w n sample)
  = dataset w ++ dataset (prepare_sample O 0 idle 0 sample)
  ∧ records (prepare_sample task_id total w n sample)
    = records w ++ records (prepare_sample O 0 idle 0 sample).
Proof.
  unfold CachePreprocessor.prepare_sample.
  destruct (preprocess sample) as [sample' [[e tb|e tb]|]]; simpl;
    rewrite ?app_nil_r; done.
Qed.

Lemma enumerate_from_adds loader : ∀ task_id total n w,
  dataset (enumerate_from task_id total n loader w)
  = dataset w ++ flat_map (fun s => dataset (prepare_sample O 0 idle 0 s)) loader
  ∧ records (enumerate_from task_id total n loader w)
    = records w ++ flat_map (fun s => records (prepare_sample O 0 idle 0 s)) loader.
Proof.
  induction loader as [|sample rest IH]; intros task_id total n w; simpl.
  - by rewrite !app_nil_r.
  - destruct (IH task_id total (n + 1) (prepare_sample task_id total w n sample))
      as [-> ->].
    destruct (prepare_sample_adds task_id total w n sample) as [-> ->].
    by rewrite <- !app_assoc.
Qed.

Lemma prepare_chunk_flat progress task_id loader :
  dataset (_prepare_chunk progress task_id loader)
  = flat_map (fun s => dataset (prepare_sample O 0 idle 0 s)) loader
  ∧ records (_prepare_chunk progress task_id loader)
    = flat_map (fun s => records (prepare_sample O 0 idle 0 s)) loader.
Proof.
  unfold CachePreprocessor._prepare_chunk.
  destruct (enumerate_from_adds loader task_id (Z.of_nat (length loader)) 0
              {| dataset := []; records := []; progress := progress |})
    as [-> ->].
  done.
Qed.

(** The loop over a concatenation is the loop over its parts. *)
Lemma prepare_chunk_app p t p1 t1 p2 t2 l1 l2 :
  dataset (_prepare_chunk p t (l1 ++ l2))
  = dataset (_prepare_chunk p1 t1 l1) ++ dataset (_prepare_chunk p2 t2 l2)
  ∧ records (_prepare_chunk p t (l1 ++ l2))
    = records (_prepare_chunk p1 t1 l1) ++ records (_prepare_chunk p2 t2 l2).
Proof.
  destruct (prepare_chunk_flat p t (l1 ++ l2)) as [-> ->].
  destruct (prepare_chunk_flat p1 t1 l1) as [-> ->].
  destruct (prepare_chunk_flat p2 t2 l2) as [-> ->].
  by rewrite !flat_map_app.
Qed.

(** The list that the loop returns is the sequential run of the chain. *)
Lemma prepare_chunk_sequential progress task_id loader :
  dataset (_prepare_chunk progress task_id loader)
  = Reference.sequential_run _featurizers _transformers loader.
Proof.
  destruct (prepare_chunk_flat progress task_id loader) as [-> _].
  induction loader as [|sample rest IH]; [done|].
  cbn [flat_map Reference.sequential_run]. rewrite IH.
  unfold CachePreprocessor.prepare_sample.
  destruct (preprocess sample) as [sample' [[e tb|e tb]|]]; done.
Qed.

Lemma sequential_run_app l1 l2 :
  Reference.sequential_run _featurizers _transformers (l1 ++ l2)
  = Reference.sequential_run _featurizers _transformers l1
    ++ Reference.sequential_run _featurizers _transformers l2.
Proof.
  rewrite <- !(prepare_chunk_sequential ∅ O).
  apply (prepare_chunk_app ∅ O ∅ O ∅ O).
Qed.

(** Samples that all pass are all kept, and nothing is logged. *)
Lemma prepare_chunk_all_pass progress task_id loader :
  Forall (fun s => ∃ s', preprocess s = (s', None)) loader →
  length (dataset (_prepare_chunk progress task_id loader)) = length loader
  ∧ records (_prepare_chunk progress task_id loader) = [].
Proof.
  intros Hall. destruct (prepare_chunk_flat progress task_id loader) as [-> ->].
  induction Hall as [|sample rest [s' Hs] _ [IHd IHr]]; [done|].
  cbn [flat_map]. rewrite length_app, IHd, IHr.
  unfold CachePreprocessor.prepare_sample. rewrite Hs. done.
Qed.

End PrepareChunkFacts.

(** ** Merging the chunks *)

Section Merge.
Import AbstractPreprocessor.

Lemma getitem_lookup {A} (l : list A) (i : nat) x :
  l !! i = Some x → getitem l (Z.of_nat i) = Ok x.
Proof.
  intros Hx. unfold getitem.
  do 2 (destruct (Z.ltb_spec (Z.of_nat i) 0); [lia|]).
  by rewrite Nat2Z.id, Hx.
Qed.

(** A run of indices inside the dataset selects that stretch of it. *)
Lemma Subset_seq {A} (dataset : list A) (n : nat) : ∀ a : nat,
  (a + n ≤ length dataset)%nat →
  Subset dataset (map Z.of_nat (seq a n)) = Ok (take n (drop a dataset)).
Proof.
  induction n as [|n IH]; intros a Ha; simpl.
  - by rewrite take_0.
  - destruct (lookup_lt_is_Some_2 dataset a ltac:(lia)) as [x Hx].
    rewrite (getitem_lookup _ _ _ Hx), IH by lia.
    by rewrite (drop_S _ _ _ Hx).
Qed.

Lemma Subset_slice {A} (dataset : list A) (lo hi : nat) :
  Subset dataset (slice (range (Z.of_nat (length dataset)))
                        (Z.of_nat lo) (Z.of_nat hi))
  = Ok (slice dataset (Z.of_nat lo) (Z.of_nat hi)).
Proof.
  rewrite slice_range, slice_nonneg.
  destruct (decide (lo ≤ length dataset)%nat) as [Hlo|Hlo].
  - rewrite Subset_seq by lia. f_equal.
    rewrite <- (take_take _ (hi - lo)), (take_ge (drop lo dataset)); [done|].
    rewrite length_drop. lia.
  - replace ((hi - lo) `min` (length dataset - lo))%nat with O by lia.
    rewrite drop_ge by lia. by rewrite take_nil.
Qed.

(** Workers whose result does not depend on the task they are given. *)
Lemma submit_slices {A B} (func : nat → list A → B) (g : list A → B)
    (dataset : list A) (c : nat) (positions : list nat) :
  (∀ n loader, func n loader = g loader) →
  ∀ n, submit func dataset n
         (map (fun i => slice (range (Z.of_nat (length dataset)))
                              (i * Z.of_nat c) ((i + 1) * Z.of_nat c))
              (map Z.of_nat positions))
       = Ok (map (fun i => g (slice dataset (i * Z.of_nat c) ((i + 1) * Z.of_nat c)))
                 (map Z.of_nat positions)).
Proof.
  intros Hg. induction positions as [|i rest IH]; intros n; simpl; [done|].
  replace (Z.of_nat i * Z.of_nat c) with (Z.of_nat (i * c)) by lia.
  replace ((Z.of_nat i + 1) * Z.of_nat c) with (Z.of_nat (i * c + c)) by lia.
  rewrite Subset_slice, IH, Hg. done.
Qed.

(** Extending the first list by the [j] next ones leaves the others as
    they are. *)
Lemma extend_first_seq (x : list DataPoint) (rest : list (list DataPoint)) (j : nat) :
  (j ≤ length rest)%nat →
  foldl extend_first (x :: rest) (seq 1 j) = (x ++ concat (take j rest)) :: rest.
Proof.
  induction j as [|j IH]; intros Hj.
  - simpl. by rewrite app_nil_r.
  - rewrite seq_S, foldl_snoc, IH by lia.
    destruct (lookup_lt_is_Some_2 rest j ltac:(lia)) as [y Hy].
    unfold extend_first. simpl. rewrite Hy. simpl.
    rewrite (take_S_r _ _ _ Hy), concat_app. simpl.
    by rewrite app_nil_r, <- app_assoc.
Qed.

Lemma clear_seq_first (store : list (list DataPoint)) (j : nat) :
  foldl clear store (seq 1 j) !! O = store !! O.
Proof.
  induction j as [|j IH]; [done|].
  rewrite seq_S, foldl_snoc. unfold clear at 1.
  by rewrite list_lookup_insert_ne.
Qed.

(** The merge of disk-backed lists is their concatenation in the order of
    the futures. *)
Lemma merge_disk_lists_concat (disk_lists : list (list DataPoint)) :
  disk_lists ≠ [] → merge_disk_lists disk_lists = Ok (concat disk_lists).
Proof.
  destruct disk_lists as [|x rest]; [done|]. intros _.
  unfold merge_disk_lists. rewrite clear_seq_first.
  simpl length. replace (S (length rest) - 1)%nat with (length rest) by lia.
  rewrite extend_first_seq by lia. simpl.
  by rewrite take_ge.
Qed.

End Merge.

Section Parallel.
Import AbstractPreprocessor CachePreprocessor.
Variables _featurizers _transformers : list stage.
Variable str : DataPoint -> string.

(** With at least as many samples as jobs, the merged result of the
    workers is the sequential run, for in-memory and disk-backed lists
    alike. *)
Lemma prepare_dataset_sequential (n_jobs : Z) (use_disk : bool)
    (loader : list DataPoint) :
  1 ≤ n_jobs ≤ Z.of_nat (length loader) →
  _prepare_dataset _featurizers _transformers str n_jobs use_disk loader
  = Ok (Reference.sequential_run _featurizers _transformers loader).
Proof.
  intros Hn. unfold _prepare_dataset, _run_parrallel.
  destruct (get_chunks_unfold n_jobs (length loader) Hn)
    as (c & k & _ & _ & Hc & Hk & _ & ->).
  unfold range at 2. rewrite Nat2Z.id.
  set (g := Reference.sequential_run _featurizers _transformers).
  rewrite (submit_slices _ g).
  2: { intros n l. apply prepare_chunk_sequential. }
  assert (Hcat : concat (map (fun i => g (slice loader (i * Z.of_nat c) ((i + 1) * Z.of_nat c)))
                             (map Z.of_nat (seq 0 k))) = g loader).
  { transitivity (g (concat (map (fun i => slice loader (i * Z.of_nat c) ((i + 1) * Z.of_nat c))
                                 (range (Z.of_nat k))))).
    - unfold range. rewrite Nat2Z.id.
      induction (map Z.of_nat (seq 0 k)) as [|i rest IH]; [done|].
      simpl. rewrite IH. unfold g. by rewrite sequential_run_app.
    - rewrite concat_slices, take_ge by lia. done. }
  destruct use_disk.
  - rewrite merge_disk_lists_concat; [by rewrite Hcat|].
    destruct k; [lia|]. done.
  - by rewrite Hcat.
Qed.

End Parallel.

(** ** The error policy of the per-sample loops *)

Section ErrorPolicy.
Import CachePreprocessor.
Variables _featurizers _transformers : list stage.
Variable str : DataPoint -> string.

#[local] Abbreviation preprocess :=
  (AbstractPreprocessor.preprocess _featurizers _transformers).
#[local] Abbreviation _prepare_chunk :=
  (_prepare_chunk _featurizers _transformers str).

Lemma prepare_chunk_one progress task_id sample :
  dataset (_prepare_chunk progress task_id [sample])
  = dataset (prepare_sample _featurizers _transformers str O 0 idle 0 sample)
  ∧ records (_prepare_chunk progress task_id [sample])
    = records (prepare_sample _featurizers _transformers str O 0 idle 0 sample).
Proof.
  destruct (prepare_chunk_flat _featurizers _transformers str
              progress task_id [sample]) as [-> ->].
  simpl. by rewrite !app_nil_r.
Qed.

(** Any other exception is logged as an error that carries [str(sample)],
    the SMILES text, the message and the trace; the sample is left out and
    the loop goes on with the samples after it. *)
Lemma prepare_chunk_other_exception progress task_id before sample after left e tb_str :
  preprocess sample = (left, Some (OtherException e tb_str)) →
  dataset (_prepare_chunk progress task_id (before ++ sample :: after))
  = dataset (_prepare_chunk progress task_id before)
    ++ dataset (_prepare_chunk progress task_id after)
  ∧ records (_prepare_chunk progress task_id (before ++ sample :: after))
    = records (_prepare_chunk progress task_id before)
      ++ {| level := ERROR;
            message := str left +:+ " " +:+ smiles_of sample +:+ " - "
                       +:+ e +:+ nl +:+ tb_str |}
      :: records (_prepare_chunk progress task_id after).
Proof.
  intros He.
  destruct (prepare_chunk_app _featurizers _transformers str
              progress task_id progress task_id progress task_id
              before (sample :: after)) as [-> ->].
  destruct (prepare_chunk_app _featurizers _transformers str
              progress task_id progress task_id progress task_id
              [sample] after) as [Hd Hr].
  change ([sample] ++ after) with (sample :: after) in Hd, Hr.
  rewrite Hd, Hr.
  destruct (prepare_chunk_one progress task_id sample) as [-> ->].
  unfold prepare_sample. rewrite He. done.
Qed.

(** C4, amended: a recoverable featurization failure is logged as a
    warning made of the message of the exception and the captured trace,
    the sample is left out of the output and the loop goes on with the
    samples after it; in particular ten samples of which those at indices
    3 and 7 raise the recoverable error, the others passing, give eight
    samples and two warnings, one per failure, in that order. *)
Theorem prepare_chunk_recoverable_failure :
  (∀ progress task_id before sample after left e tb_str,
     preprocess sample = (left, Some (FeaturizationError e tb_str)) →
     dataset (_prepare_chunk progress task_id (before ++ sample :: after))
     = dataset (_prepare_chunk progress task_id before)
       ++ dataset (_prepare_chunk progress task_id after)
     ∧ records (_prepare_chunk progress task_id (before ++ sample :: after))
       = records (_prepare_chunk progress task_id before)
         ++ {| level := WARNING; message := e +:+ nl +:+ tb_str |}
         :: records (_prepare_chunk progress task_id after))
  ∧
  (∀ progress task_id loader e3 tb3 e7 tb7,
     length loader = 10%nat →
     (∀ (i : nat) sample, loader !! i = Some sample →
        snd (preprocess sample)
        = if decide (i = 3%nat) then Some (FeaturizationError e3 tb3)
          else if decide (i = 7%nat) then Some (FeaturizationError e7 tb7)
          else None) →
     length (dataset (_prepare_chunk progress task_id loader)) = 8%nat
     ∧ records (_prepare_chunk progress task_id loader)
       = [ {| level := WARNING; message := e3 +:+ nl +:+ tb3 |};
           {| level := WARNING; message := e7 +:+ nl +:+ tb7 |} ]).
Proof.
  split.
  - intros progress task_id before sample after left e tb_str He.
    destruct (prepare_chunk_app _featurizers _transformers str
                progress task_id progress task_id progress task_id
                before (sample :: after)) as [-> ->].
    destruct (prepare_chunk_app _featurizers _transformers str
                progress task_id progress task_id progress task_id
                [sample] after) as [Hd Hr].
    change ([sample] ++ after) with (sample :: after) in Hd, Hr.
    rewrite Hd, Hr.
    destruct (prepare_chunk_one progress task_id sample) as [-> ->].
    unfold prepare_sample. rewrite He. done.
  - intros progress task_id loader e3 tb3 e7 tb7 Hlen Hat.
    do 10 (destruct loader as [|? loader]; [discriminate Hlen|]).
    destruct loader; [|discriminate Hlen].
    destruct (prepare_chunk_flat _featurizers _transformers str
                progress task_id [d; d0; d1; d2; d3; d4; d5; d6; d7; d8])
      as [-> ->].
    pose proof (Hat 0%nat _ eq_refl) as H0. pose proof (Hat 1%nat _ eq_refl) as H1.
    pose proof (Hat 2%nat _ eq_refl) as H2. pose proof (Hat 3%nat _ eq_refl) as H3.
    pose proof (Hat 4%nat _ eq_refl) as H4. pose proof (Hat 5%nat _ eq_refl) as H5.
    pose proof (Hat 6%nat _ eq_refl) as H6. pose proof (Hat 7%nat _ eq_refl) as H7.
    pose proof (Hat 8%nat _ eq_refl) as H8. pose proof (Hat 9%nat _ eq_refl) as H9.
    clear Hat Hlen. cbn [flat_map]. unfold prepare_sample.
    destruct (preprocess d) as [? ?], (preprocess d0) as [? ?],
      (preprocess d1) as [? ?], (preprocess d2) as [? ?],
      (preprocess d3) as [? ?], (preprocess d4) as [? ?],
      (preprocess d5) as [? ?], (preprocess d6) as [? ?],
      (preprocess d7) as [? ?], (preprocess d8) as [? ?].
    simpl in *. subst. done.
Qed.

End ErrorPolicy.

(** The scenario of C4 on concrete data. *)
Lemma prepare_chunk_ten_samples :
  length (CachePreprocessor.dataset
            (CachePreprocessor._prepare_chunk [Scenario.rejects [3; 7]] []
               Scenario.show ∅ 1 Scenario.ten_samples)) = 8%nat
  ∧ CachePreprocessor.records
      (CachePreprocessor._prepare_chunk [Scenario.rejects [3; 7]] []
         Scenario.show ∅ 1 Scenario.ten_samples)
    = [ {| level := WARNING;
           message := "invalid molecule" +:+ nl +:+ Scenario.trace |};
        {| level := WARNING;
           message := "invalid molecule" +:+ nl +:+ Scenario.trace |} ].
Proof.
  apply (proj2 (prepare_chunk_recoverable_failure
                  [Scenario.rejects [3; 7]] [] Scenario.show)).
  - reflexivity.
  - intros i sample.
    do 10 (destruct i as [|i]; [intros [= <-]; reflexivity|]).
    discriminate.
Defined.

(** C4, as stated, fails: the warning is the text of the exception and
    the trace, so a failure whose exception does not name its sample is
    logged without the identifier, the rendering or the input text of the
    sample, and two different samples leave the same record. *)
Lemma warning_does_not_name_the_sample :
  let log s :=
    CachePreprocessor.records
      (CachePreprocessor._prepare_chunk [Scenario.rejects [3; 7]] []
         Scenario.show ∅ 1 [s]) in
  let s3 := Scenario.sample 3 "CCO" in
  let s7 := Scenario.sample 7 "N#N" in
  log s3 = [ {| level := WARNING;
                message := "invalid molecule" +:+ nl +:+ Scenario.trace |} ]
  ∧ log s7 = log s3
  ∧ Forall (fun r =>
              Str.contains (Scenario.show s3) (message r) = false
              ∧ Str.contains "CCO" (message r) = false
              ∧ Str.contains "3" (message r) = false) (log s3).
Proof.
  cbv zeta. split; [reflexivity|]. split; [reflexivity|].
  repeat constructor.
Qed.

(** C5, on the code: merging is never reached for a dataset with fewer
    samples than jobs.  The parallel preparation raises
    [ZeroDivisionError], for in-memory and disk-backed lists alike and
    whatever the transform chain, where the sequential run returns the
    transformed samples. *)
Theorem prepare_dataset_fewer_samples_than_jobs :
  ∀ _featurizers _transformers str n_jobs use_disk loader,
    Z.of_nat (length loader) < n_jobs →
    CachePreprocessor._prepare_dataset _featurizers _transformers str n_jobs
      use_disk loader
    = Raise ZeroDivisionError.
Proof.
  intros fs ts str n_jobs use_disk loader Hn.
  unfold CachePreprocessor._prepare_dataset, AbstractPreprocessor._run_parrallel.
  by rewrite get_chunks_zero_division.
Qed.

(** Three samples that all pass, with four jobs. *)
Lemma prepare_dataset_three_samples_four_jobs :
  let loader := take 3 Scenario.ten_samples in
  CachePreprocessor._prepare_dataset [Scenario.draws] [] Scenario.show 4
    false loader
  = Raise ZeroDivisionError
  ∧ length (Reference.sequential_run [Scenario.draws] [] loader) = 3%nat.
Proof.
  cbv zeta. split; [|reflexivity].
  apply (prepare_dataset_fewer_samples_than_jobs [Scenario.draws] []
           Scenario.show 4 false (take 3 Scenario.ten_samples)).
  simpl. lia.
Defined.

(** C8, on the code: in [FilePreprocessor._load_dataset] an exception
    that is not the recoverable one is sent to [logging.debug] with
    [str(sample)], the SMILES text and the message: the record is no error
    and the trace is not in it.  The sample writes no file and the loop
    goes on. *)
Theorem load_sample_logs_other_exception_at_debug :
  ∀ _featurizers _transformers str locate folder_name feature_to_save
    input_to_use_has_filename overwrite total r n sample filenames
    left e tb_str,
    FilePreprocessor.filenames_of folder_name input_to_use_has_filename sample
    = Ok filenames →
    negb overwrite
    && forallb (FilePreprocessor.exists_ locate (FilePreprocessor.files r))
         filenames
    = false →
    AbstractPreprocessor.preprocess _featurizers _transformers sample
    = (left, Some (OtherException e tb_str)) →
    FilePreprocessor.load_sample _featurizers _transformers str locate
      folder_name feature_to_save input_to_use_has_filename overwrite total r
      n sample
    = Ok {| FilePreprocessor.files := FilePreprocessor.files r;
            FilePreprocessor.records :=
              FilePreprocessor.records r
              ++ [{| level := DEBUG;
                     message := str left +:+ " "
                                +:+ CachePreprocessor.smiles_of sample
                                +:+ " - " +:+ e |}];
            FilePreprocessor.preprocessed :=
              FilePreprocessor.preprocessed r ++ [sample];
            FilePreprocessor.completed := Some (n + 1, total) |}.
Proof.
  intros fs ts str locate folder feats fields overwrite total r n sample
    filenames left e tb_str Hf Hskip He.
  unfold FilePreprocessor.load_sample. by rewrite Hf, Hskip, He.
Qed.

(** A sample whose featurizer divides by zero, first of a loader of one. *)
Lemma load_sample_logs_crash_at_debug :
  FilePreprocessor.load_sample [Scenario.crashes] [] Scenario.show
    Scenario.locate "features" ["graph"] ["smiles"] false 1 Scenario.no_files
    0 (Scenario.sample 0 "CCO")
  = Ok {| FilePreprocessor.files := FilePreprocessor.files Scenario.no_files;
          FilePreprocessor.records :=
            FilePreprocessor.records Scenario.no_files
            ++ [{| level := DEBUG;
                   message := Scenario.show (Scenario.sample 0 "CCO") +:+ " "
                              +:+ CachePreprocessor.smiles_of (Scenario.sample 0 "CCO")
                              +:+ " - " +:+ "division by zero" |}];
          FilePreprocessor.preprocessed :=
            FilePreprocessor.preprocessed Scenario.no_files
            ++ [Scenario.sample 0 "CCO"];
          FilePreprocessor.completed := Some (0 + 1, 1) |}.
Proof.
  apply (load_sample_logs_other_exception_at_debug
           [Scenario.crashes] [] Scenario.show Scenario.locate "features"
           ["graph"] ["smiles"] false 1 Scenario.no_files 0
           (Scenario.sample 0 "CCO")
           [["features"; "smiles"; "CCO.pkl"]] (Scenario.sample 0 "CCO")
           "division by zero" Scenario.trace);
    reflexivity.
Defined.

(** The whole request over that sample: one record, at level [DEBUG],
    without the trace, and no file. *)
Example load_dataset_crash :
  FilePreprocessor._load_dataset [Scenario.crashes] [] Scenario.show
    Scenario.locate "features" ["graph"] ["smiles"] false
    [Scenario.sample 0 "CCO"] Scenario.no_files
  = Ok {| FilePreprocessor.files := ∅;
          FilePreprocessor.records :=
            [{| level := DEBUG;
                message := "DataPoint(id_=0) CCO - division by zero" |}];
          FilePreprocessor.preprocessed := [Scenario.sample 0 "CCO"];
          FilePreprocessor.completed := Some (1, 1) |}.
Proof. reflexivity. Qed.

(** ** Skipping the files that exist *)

Section SkipExisting.
Import FilePreprocessor.
Variables _featurizers _transformers : list stage.
Variable str : DataPoint -> string.
Variable locate : Path -> located.
Variable folder_name : string.
Variables feature_to_save input_to_use_has_filename : list string.

#[local] Abbreviation filenames_of := (filenames_of folder_name).
#[local] Abbreviation exists_ := (exists_ locate).
#[local] Abbreviation dump_all := (dump_all locate).
#[local] Abbreviation load_sample :=
  (load_sample _featurizers _transformers str locate folder_name
     feature_to_save input_to_use_has_filename false).
#[local] Abbreviation enumerate_from :=
  (enumerate_from _featurizers _transformers str locate folder_name
     feature_to_save input_to_use_has_filename false).
#[local] Abbreviation _load_dataset :=
  (_load_dataset _featurizers _transformers str locate folder_name
     feature_to_save input_to_use_has_filename false).

(** Every target file of the sample is there. *)
#[local] Abbreviation complete r sample :=
  (∃ filenames, filenames_of input_to_use_has_filename sample = Ok filenames
                ∧ Forall (fun f => exists_ (files r) f = true) filenames).

Lemma forallb_exists (fs : gmap string string) filenames :
  forallb (exists_ fs) filenames = true
  ↔ Forall (fun f => exists_ fs f = true) filenames.
Proof.
  rewrite forallb_forall, Forall_forall.
  split; intros H f Hf; apply H; by apply list_elem_of_In.
Qed.

(** A path that exists still exists when no file has been removed. *)
Lemma exists_grows (fs fs' : gmap string string) f :
  (∀ name, is_Some (fs !! name) → is_Some (fs' !! name)) →
  exists_ fs f = true → exists_ fs' f = true.
Proof.
  intros Hsub. unfold FilePreprocessor.exists_.
  destruct (locate f) as [name|]; [|done].
  rewrite !bool_decide_eq_true. apply Hsub.
Qed.

Lemma load_sample_skip total r n sample :
  complete r sample → load_sample total r n sample = Ok r.
Proof.
  intros (filenames & Hf & Hall). unfold FilePreprocessor.load_sample.
  rewrite Hf. apply forallb_exists in Hall. by rewrite Hall.
Qed.

Lemma enumerate_from_skip loader : ∀ total n r,
  Forall (fun sample => complete r sample) loader →
  enumerate_from total n loader r = Ok r.
Proof.
  induction loader as [|sample rest IH]; intros total n r Hall; simpl; [done|].
  inversion Hall as [|? ? Hs Hrest]; subst.
  rewrite load_sample_skip by done. by apply IH.
Qed.

(** Dumping never removes a file, and when nothing is raised every file
    of the pairs is there. *)
Lemma dump_all_keeps outputs pairs : ∀ fs name,
  is_Some (fs !! name) → is_Some ((dump_all outputs pairs fs).1 !! name).
Proof.
  induction pairs as [|[output_name filename] rest IH]; intros fs name Hf;
    simpl; [done|].
  destruct (locate filename) as [file|]; [|done].
  destruct (dict_get output_name (inputs outputs)) as [value|]; simpl.
  - apply IH. rewrite !lookup_insert_is_Some'. auto.
  - rewrite lookup_insert_is_Some'. auto.
Qed.

Lemma dump_all_writes outputs pairs : ∀ fs,
  (dump_all outputs pairs fs).2 = None →
  Forall (fun f => exists_ (dump_all outputs pairs fs).1 f = true) (pairs.*2).
Proof.
  induction pairs as [|[output_name filename] rest IH]; intros fs Hnone; simpl;
    [constructor|].
  simpl in Hnone.
  destruct (locate filename) as [file|] eqn:Hfile; [|done].
  destruct (dict_get output_name (inputs outputs)) as [value|]; [|done].
  constructor; [|by apply IH].
  unfold FilePreprocessor.exists_. rewrite Hfile. apply bool_decide_eq_true.
  apply dump_all_keeps. rewrite lookup_insert_eq. by eexists.
Qed.

(** A turn of the loop never removes a file and never shortens the log. *)
Lemma load_sample_grows total r n sample r' :
  load_sample total r n sample = Ok r' →
  (∀ name, is_Some (files r !! name) → is_Some (files r' !! name))
  ∧ ∃ more, records r' = records r ++ more.
Proof.
  unfold FilePreprocessor.load_sample.
  destruct (filenames_of _ sample) as [filenames|]; [|done].
  destruct (forallb _ filenames); simpl.
  { intros [= <-]. split; [done|]. exists []. by rewrite app_nil_r. }
  destruct (AbstractPreprocessor.preprocess _ _ sample) as [outputs [e|]].
  - intros [= <-]. simpl. split; [done|].
    destruct e; eexists; reflexivity.
  - pose proof (dump_all_keeps outputs (zip feature_to_save filenames) (files r))
      as Hkeep.
    destruct (dump_all outputs _ (files r)) as [files' raised].
    intros [= <-]. simpl. split; [exact Hkeep|].
    destruct raised as [[]|]; eexists; try reflexivity.
    by rewrite app_nil_r.
Qed.

(** When a turn has logged nothing, the files of its sample are there. *)
Lemma load_sample_clean total r n sample r' :
  (length input_to_use_has_filename ≤ length feature_to_save)%nat →
  load_sample total r n sample = Ok r' →
  records r' = records r →
  complete r' sample.
Proof.
  intros Hlen. unfold FilePreprocessor.load_sample.
  destruct (filenames_of _ sample) as [filenames|] eqn:Hf; [|done].
  assert (Hfl : length filenames = length input_to_use_has_filename).
  { clear -Hf. revert filenames Hf.
    induction input_to_use_has_filename as [|field rest IH]; simpl.
    - by intros ? [= <-].
    - intros filenames. destruct (dict_get field (inputs sample)); [|done].
      destruct (FilePreprocessor.filenames_of folder_name rest sample); [|done].
      intros [= <-]. simpl. f_equal. by apply IH. }
  destruct (forallb _ filenames) eqn:Hall; simpl.
  { intros [= <-] _. exists filenames. split; [done|].
    by apply forallb_exists. }
  destruct (AbstractPreprocessor.preprocess _ _ sample) as [outputs [e|]].
  - intros [= <-]. simpl. intros Hrec. exfalso.
    apply (f_equal length) in Hrec.
    destruct e; rewrite length_app in Hrec; simpl in Hrec; lia.
  - pose proof (dump_all_writes outputs (zip feature_to_save filenames) (files r))
      as Hwrites.
    destruct (dump_all outputs _ (files r)) as [files' raised].
    intros [= <-]. simpl. intros Hrec.
    destruct raised as [e|].
    + exfalso. apply (f_equal length) in Hrec.
      destruct e; rewrite length_app in Hrec; simpl in Hrec; lia.
    + exists filenames. split; [done|].
      specialize (Hwrites eq_refl). by rewrite snd_zip in Hwrites by lia.
Qed.

Lemma complete_grows r r' sample :
  (∀ name, is_Some (files r !! name) → is_Some (files r' !! name)) →
  complete r sample → complete r' sample.
Proof.
  intros Hsub (filenames & Hf & Hall). exists filenames. split; [done|].
  eapply Forall_impl; [exact Hall|]. intros f. by apply exists_grows.
Qed.

Lemma enumerate_from_grows loader : ∀ total n r r1,
  enumerate_from total n loader r = Ok r1 →
  (∀ name, is_Some (files r !! name) → is_Some (files r1 !! name))
  ∧ ∃ more, records r1 = records r ++ more.
Proof.
  induction loader as [|sample rest IH]; intros total n r r1; simpl.
  - intros [= <-]. split; [done|]. exists []. by rewrite app_nil_r.
  - destruct (load_sample total r n sample) as [r'|] eqn:Hs; [|done].
    intros Hrest. apply load_sample_grows in Hs as [Hf [m1 Hm1]].
    apply IH in Hrest as [Hf' [m2 Hm2]].
    split; [auto|]. exists (m1 ++ m2). by rewrite Hm2, Hm1, app_assoc.
Qed.

(** After a run that has logged nothing, every sample has its files. *)
Lemma enumerate_from_clean loader : ∀ total n r r1,
  (length input_to_use_has_filename ≤ length feature_to_save)%nat →
  enumerate_from total n loader r = Ok r1 →
  records r1 = records r →
  Forall (fun sample => complete r1 sample) loader.
Proof.
  induction loader as [|sample rest IH]; intros total n r r1 Hlen; simpl.
  - constructor.
  - destruct (load_sample total r n sample) as [r'|] eqn:Hs; [|done].
    intros Hrest Hrec.
    destruct (load_sample_grows _ _ _ _ _ Hs) as [_ [m1 Hm1]].
    destruct (enumerate_from_grows _ _ _ _ _ Hrest) as [Hf' [m2 Hm2]].
    assert (m1 = [] ∧ m2 = []) as [-> ->].
    { rewrite Hm2, Hm1 in Hrec. apply (f_equal length) in Hrec.
      rewrite !length_app in Hrec.
      destruct m1, m2; simpl in Hrec; try lia. done. }
    rewrite app_nil_r in Hm1, Hm2.
    constructor.
    + eapply complete_grows; [exact Hf'|].
      eapply load_sample_clean; eauto.
    + eapply IH; eauto; congruence.
Qed.

(** C9, amended: with [overwrite] off, a sample all of whose target files
    exist is skipped (the run is left as it was: no transform, no file, no
    record), and a request over a dataset whose files all exist changes
    nothing.  A request that is run again changes nothing when there are
    at least as many features to save as fields used as file names and the
    first run logged no failure: every sample then has all its files. *)
Theorem load_dataset_skips_existing_files :
  (∀ total r n sample, complete r sample → load_sample total r n sample = Ok r)
  ∧ (∀ loader r,
       Forall (fun sample => complete r sample) loader →
       _load_dataset loader r = Ok r)
  ∧ (∀ loader r r1,
       (length input_to_use_has_filename ≤ length feature_to_save)%nat →
       _load_dataset loader r = Ok r1 →
       records r1 = records r →
       _load_dataset loader r1 = Ok r1).
Proof.
  split; [exact load_sample_skip|]. split.
  - intros loader r Hall. by apply enumerate_from_skip.
  - intros loader r r1 Hlen Hrun Hrec.
    apply enumerate_from_skip. eapply enumerate_from_clean; eauto.
Qed.

End SkipExisting.

(** Running the same request twice over one sample: the second run finds
    the file of the first and leaves everything as it is. *)
Lemma load_dataset_twice :
  let run :=
    FilePreprocessor._load_dataset [Scenario.draws] [] Scenario.show
      Scenario.locate "features" ["graph"] ["smiles"] false
      [Scenario.sample 0 "CCO"] in
  ∃ r1, run Scenario.no_files = Ok r1
        ∧ FilePreprocessor.files r1 !! "features/smiles/CCO.pkl" = Some "G(CCO)"
        ∧ run r1 = Ok r1.
Proof.
  cbv zeta. eexists. split; [reflexivity|]. split; [reflexivity|].
  apply (proj2 (proj2 (load_dataset_skips_existing_files
                         [Scenario.draws] [] Scenario.show Scenario.locate
                         "features" ["graph"] ["smiles"])))
    with (r := Scenario.no_files).
  - simpl. lia.
  - reflexivity.
  - reflexivity.
Defined.

(** C9, as stated, fails: a request that is run again over unchanged
    inputs may write a file anew, and change it.  Two features are saved
    under three fields used as file names, so that the file of the third
    field is never written.  The first run transforms both samples and
    logs nothing; they share the name [alcohol], and the file of the name
    ends with the graph of the second.  The second run skips the second
    sample, whose three files are there, and transforms the first again,
    the file of its batch being missing: the file of the name now holds
    the graph of the first. *)
Lemma load_dataset_again_rewrites_a_file :
  let run :=
    FilePreprocessor._load_dataset [Scenario.draws] [] Scenario.show
      Scenario.locate "features" ["graph"; "smiles"]
      ["name"; "smiles"; "batch"] false
      [Scenario.ethanol; Scenario.methanol] in
  ∃ r1 r2,
    run Scenario.second_batch = Ok r1
    ∧ run r1 = Ok r2
    ∧ FilePreprocessor.preprocessed r1 = [Scenario.ethanol; Scenario.methanol]
    ∧ FilePreprocessor.records r1 = []
    ∧ FilePreprocessor.files r1 !! "features/name/alcohol.pkl" = Some "G(CO)"
    ∧ FilePreprocessor.preprocessed r2
      = [Scenario.ethanol; Scenario.methanol; Scenario.ethanol]
    ∧ FilePreprocessor.records r2 = []
    ∧ FilePreprocessor.files r2 !! "features/name/alcohol.pkl" = Some "G(CCO)".
Proof.
  cbv zeta. eexists. eexists.
  split; [reflexivity|]. split; [reflexivity|].
  repeat split; reflexivity.
Qed.

(** A value that holds a slash names a file in a directory that is not
    there: [open] raises [FileNotFoundError], which is logged at level
    [DEBUG], and no file is written; the sample is transformed again on
    every run. *)
Example load_dataset_missing_directory :
  let run :=
    FilePreprocessor._load_dataset [Scenario.draws] [] Scenario.show
      Scenario.locate "features" ["graph"] ["smiles"] false
      [Scenario.sample 0 "a/b"] in
  let record :=
    {| level := DEBUG;
       message := "DataPoint(id_=0) a/b - [Errno 2] No such file or directory: "
                  +:+ "'features/smiles/a/b.pkl'" |} in
  ∃ r1 r2,
    run Scenario.no_files = Ok r1
    ∧ run r1 = Ok r2
    ∧ FilePreprocessor.files r2 = ∅
    ∧ FilePreprocessor.records r1 = [record]
    ∧ FilePreprocessor.records r2 = [record; record]
    ∧ FilePreprocessor.preprocessed r2
      = [Scenario.sample 0 "a/b"; Scenario.sample 0 "a/b"].
Proof.
  cbv zeta. eexists. eexists.
  split; [reflexivity|]. split; [reflexivity|].
  repeat split; reflexivity.
Qed.

(** ** The cache key and the order of keys *)

Section KeyOrder.
Import CacheManager Reference.

Lemma ascii_compare_spec (a b : ascii) :
  CompareSpec (a = b) (N_of_ascii a < N_of_ascii b)%N
    (N_of_ascii b < N_of_ascii a)%N (Ascii.compare a b).
Proof.
  unfold Ascii.compare.
  destruct (N.compare_spec (N_of_ascii a) (N_of_ascii b)) as [Heq| |];
    constructor; try done.
  rewrite <- (ascii_N_embedding a), <- (ascii_N_embedding b). by rewrite Heq.
Qed.

Lemma ascii_compare_refl (a : ascii) : Ascii.compare a a = Eq.
Proof. destruct (ascii_compare_spec a a); [done | lia | lia]. Qed.

Lemma string_leb_trans (s1 s2 s3 : string) :
  String.leb s1 s2 = true → String.leb s2 s3 = true → String.leb s1 s3 = true.
Proof.
  unfold String.leb. revert s2 s3.
  induction s1 as [|a s1 IH]; intros [|b s2] [|c s3]; simpl; try done.
  destruct (ascii_compare_spec a b) as [Hab|Hab|Hab],
           (ascii_compare_spec b c) as [Hbc|Hbc|Hbc],
           (ascii_compare_spec a c) as [Hac|Hac|Hac];
    subst; try done; try lia.
  apply IH.
Qed.

(** Insertions of items with different keys commute. *)
Lemma insort_comm (x y : string * value) (l : list (string * value)) :
  fst x ≠ fst y → insort x (insort y l) = insort y (insort x l).
Proof.
  intros Hne. induction l as [|z l IH]; simpl.
  - destruct (String.leb (fst x) (fst y)) eqn:Hxy,
             (String.leb (fst y) (fst x)) eqn:Hyx; try done.
    + destruct Hne. by apply String.leb_antisym.
    + destruct (String.leb_total (fst x) (fst y)); congruence.
  - destruct (String.leb (fst x) (fst z)) eqn:Hxz,
             (String.leb (fst y) (fst z)) eqn:Hyz; simpl;
      rewrite ?Hxz, ?Hyz.
    + destruct (String.leb (fst x) (fst y)) eqn:Hxy,
               (String.leb (fst y) (fst x)) eqn:Hyx; simpl;
        rewrite ?Hxz, ?Hyz; try done.
      * destruct Hne. by apply String.leb_antisym.
      * destruct (String.leb_total (fst x) (fst y)); congruence.
    + destruct (String.leb (fst y) (fst x)) eqn:Hyx; simpl; rewrite ?Hyz;
        [|done].
      rewrite (string_leb_trans _ _ _ Hyx Hxz) in Hyz. done.
    + destruct (String.leb (fst x) (fst y)) eqn:Hxy; simpl; rewrite ?Hxz;
        [|done].
      rewrite (string_leb_trans _ _ _ Hxy Hyz) in Hxz. done.
    + by rewrite IH.
Qed.

(** Sorting does not see the order in which distinct keys come. *)
Lemma sorted_Permutation (l l' : list (string * value)) :
  Permutation l l' → NoDup (map fst l) → sorted l = sorted l'.
Proof.
  induction 1 as [|x l l' Hp IH|x y l|l l' l'' Hp1 IH1 Hp2 IH2]; intros Hnd.
  - done.
  - simpl in *. apply NoDup_cons in Hnd as [_ Hnd]. by rewrite IH.
  - simpl in *. apply NoDup_cons in Hnd as [Hy _].
    apply insort_comm. intros Heq. apply Hy. rewrite Heq. by left.
  - rewrite IH1 by done. apply IH2. by rewrite <- Hp1.
Qed.

Lemma forallb_Forall {A} (f : A → bool) (l : list A) :
  forallb f l = true ↔ Forall (fun x => f x = true) l.
Proof.
  induction l as [|x l IH]; simpl.
  - split; [constructor | done].
  - rewrite andb_true_iff, IH, Forall_cons. done.
Qed.

Lemma sort_value_Dict (d : list (string * value)) :
  _sort_value (Dict d) = Dict (_sort d).
Proof. reflexivity. Qed.

Lemma keys_sort_items (d : list (string * value)) :
  map fst (map (fun kv => (fst kv, _sort_value (snd kv))) d) = map fst d.
Proof. rewrite map_map. reflexivity. Qed.

(** Where no list holds a map, values that differ only in the order of
    keys have the same sorted form. *)
Lemma sort_value_reordered (v v' : value) :
  reordered v v' →
  (dict_free v = true → v = v')
  ∧ (distinct_keys v = true → maps_only_under_keys v = true →
     _sort_value v = _sort_value v').
Proof.
  revert v v'.
  apply (reordered_min
    (fun v v' =>
       (dict_free v = true → v = v')
       ∧ (distinct_keys v = true → maps_only_under_keys v = true →
          _sort_value v = _sort_value v'))) with
    (P0 := fun l l' => forallb dict_free l = true → l = l')
    (P1 := fun d d' =>
       NoDup (map fst d) →
       Forall (fun kv => distinct_keys (snd kv) = true) d →
       Forall (fun kv => maps_only_under_keys (snd kv) = true) d →
       _sort d = _sort d').
  - done.
  - intros l1 l2 _ IH. split.
    + simpl. intros Hfree. by rewrite IH.
    + simpl. intros _ Hfree. by rewrite IH.
  - intros d1 d2 _ IH. split; [done|].
    simpl distinct_keys. simpl maps_only_under_keys.
    rewrite andb_true_iff, bool_decide_eq_true, !forallb_Forall.
    intros [Hnd Hdk] Hmk. rewrite !sort_value_Dict. f_equal. by apply IH.
  - done.
  - intros v1 v2 l1 l2 _ [IHv _] _ IHl. simpl.
    rewrite andb_true_iff. intros [Hv Hl]. by rewrite IHv, IHl.
  - done.
  - intros k v1 v2 d1 d2 _ [_ IHv] _ IHd Hnd Hdk Hmk.
    simpl in Hnd. apply NoDup_cons in Hnd as [_ Hnd].
    apply Forall_cons in Hdk as [Hdk1 Hdk], Hmk as [Hmk1 Hmk].
    unfold _sort in *. simpl. rewrite IHv, IHd by done. done.
  - intros d1 d1' d2 Hp _ IH Hnd Hdk Hmk.
    rewrite <- IH.
    + unfold _sort. apply sorted_Permutation.
      * by apply Permutation_map.
      * by rewrite keys_sort_items.
    + by rewrite <- Hp.
    + by rewrite <- Hp.
    + by rewrite <- Hp.
Qed.

(** For parameter maps in which no list holds a map, the key does not
    depend on the order of the keys, at any depth. *)
Lemma key_reordered (A B : list (string * value)) :
  distinct_keys (Dict A) = true →
  maps_only_under_keys (Dict A) = true →
  reordered (Dict A) (Dict B) →
  key A = key B.
Proof.
  intros Hdk Hmk Hre.
  destruct (sort_value_reordered _ _ Hre) as [_ Hsort].
  specialize (Hsort Hdk Hmk). rewrite !sort_value_Dict in Hsort.
  injection Hsort as Hsort. unfold key. by rewrite Hsort.
Qed.

End KeyOrder.

(** ** [SuperFactory.create] and the dicts of its caller *)

Section Frame.
Import SuperFactory.

Lemma keeps_ret {A} n (x : A) (post : A → Prop) : post x → keeps n (ret x) post.
Proof. intros Hx h Hn. simpl. auto. Qed.

#[local] Ltac kept := simpl; repeat split; auto; lia.

Lemma keeps_raise {A} n e (post : A → Prop) : keeps n (raise e) post.
Proof. intros h Hn. kept. Qed.

Lemma keeps_lift {A} n (r : result A) : keeps n (lift r) (fun _ => True).
Proof. intros h Hn. destruct r; kept. Qed.

Lemma keeps_weaken {A} n (m : M A) (post post' : A → Prop) :
  (∀ x, post x → post' x) → keeps n m post → keeps n m post'.
Proof.
  intros Himp Hm h Hn. destruct (Hm h Hn) as (Ht & Hl & Hp).
  split; [done|]. split; [done|]. destruct (m h).2; auto.
Qed.

Lemma keeps_bind {A B} n (m : M A) (f : A → M B) (P : A → Prop) (Q : B → Prop) :
  keeps n m P → (∀ x, P x → keeps n (f x) Q) → keeps n (bind m f) Q.
Proof.
  intros Hm Hf h Hn. unfold bind.
  destruct (Hm h Hn) as (Ht & Hl & Hp).
  destruct (m h) as [h' [x|e]]; simpl in *.
  - destruct (Hf x Hp h' ltac:(lia)) as (Ht' & Hl' & Hq).
    split; [congruence|]. split; [lia | done].
  - kept.
Qed.

Lemma keeps_read n a : keeps n (read a) (fun _ => True).
Proof. intros h Hn. unfold read. cbn beta. destruct (h !! a); kept. Qed.

Lemma keeps_write n a d : (n ≤ a)%nat → keeps n (write a d) (fun _ => True).
Proof.
  intros Ha h Hn. unfold write. simpl.
  rewrite take_insert_ge by done. rewrite length_insert. kept.
Qed.

(** The copy is a new object, beyond every object there was. *)
Lemma keeps_copy n a : keeps n (copy a) (fun a' => (n ≤ a')%nat).
Proof.
  intros h Hn. unfold copy, bind, read. cbn beta.
  destruct (h !! a) as [d|]; simpl; [|kept].
  rewrite take_app_le by done. rewrite length_app. kept.
Qed.

Lemma keeps_pop n a k : (n ≤ a)%nat → keeps n (pop a k) (fun _ => True).
Proof.
  intros Ha. unfold pop.
  eapply keeps_bind; [apply keeps_read|]. intros d _.
  destruct (dict_get k d); [|apply keeps_raise].
  eapply keeps_bind; [by apply keeps_write|]. intros _ _. by apply keeps_ret.
Qed.

Lemma keeps_setitem n a k v : (n ≤ a)%nat → keeps n (setitem a k v) (fun _ => True).
Proof.
  intros Ha. unfold setitem.
  eapply keeps_bind; [apply keeps_read|]. intros d _. by apply keeps_write.
Qed.

Variable pascalize : string → string.
Variable modules : string → option (list (string * cls)).
Variable types : nat → typ.
Variable otherwise : typ → dict → option dict → result pyval.

Lemma keeps_resolve n instantiator a :
  (n ≤ a)%nat → keeps n (resolve pascalize modules instantiator a) (fun _ => True).
Proof.
  intros Ha. unfold resolve.
  eapply keeps_bind; [apply keeps_read|]. intros d _.
  destruct (mem "type" (keys d));
    [|destruct instantiator; by apply keeps_ret].
  eapply keeps_bind; [by apply keeps_pop|]. intros v _.
  destruct v; try by apply keeps_ret.
  destruct (Str.contains "." s).
  - eapply keeps_bind; [apply keeps_lift|]. intros c _. by apply keeps_ret.
  - destruct instantiator; try (by apply keeps_ret);
      (destruct (dict_get _ (find_descendants c));
       [by apply keeps_ret | apply keeps_raise]).
Qed.

Lemma keeps_inject n (create : typ → addr → M pyval) c a items :
  (n ≤ a)%nat →
  (∀ attribute nested, keeps n (create attribute nested) (fun _ => True)) →
  keeps n (inject types create c a items) (fun _ => True).
Proof.
  intros Ha Hcreate. induction items as [|[option_name option_value] rest IH];
    simpl.
  - by apply keeps_ret.
  - destruct (negb _); [apply keeps_raise|].
    destruct (dict_get option_name _) as [t|]; [|exact IH].
    destruct option_value; try exact IH.
    destruct (types t); try exact IH;
      (eapply keeps_bind; [apply Hcreate|]; intros v _;
       eapply keeps_bind; [by apply keeps_setitem|]; intros _ _; exact IH).
Qed.

Lemma keeps_build n (create : typ → addr → M pyval) c a loaded :
  (n ≤ a)%nat →
  (∀ attribute nested, keeps n (create attribute nested) (fun _ => True)) →
  keeps n (build types create c a loaded) (fun _ => True).
Proof.
  intros Ha Hcreate. unfold build.
  eapply keeps_bind; [apply keeps_read|]. intros items _.
  eapply keeps_bind.
  { destruct (0 <? length items)%nat;
      [by apply keeps_inject | by apply (keeps_ret _ _ (fun _ => True))]. }
  intros _ _. eapply keeps_bind; [apply keeps_read|]. intros options _.
  apply keeps_lift.
Qed.

Lemma keeps_create depth : ∀ n instantiator a loaded,
  keeps n (create pascalize modules types otherwise depth instantiator a loaded)
        (fun _ => True).
Proof.
  induction depth as [|depth IH]; intros n instantiator a loaded; simpl.
  - apply keeps_raise.
  - eapply keeps_bind; [apply keeps_read|]. intros given _.
    eapply keeps_bind; [apply keeps_copy|]. intros a' Ha'. simpl in Ha'.
    eapply keeps_bind; [by apply keeps_resolve|]. intros [c|] _.
    + apply keeps_build; [done|]. intros attribute nested. apply IH.
    + apply keeps_lift.
Qed.

(** C10: whatever [create] returns or raises, every dict that existed
    when it was called is left with the items it had, the caller's
    [dynamic_parameters] (its ["type"] entry included) and the dicts nested
    in it among them; all that [create] writes, it writes to its copies. *)
Theorem create_leaves_the_dicts_of_its_caller :
  ∀ depth instantiator dynamic_parameters loaded_parameters h,
    let h' := (create pascalize modules types otherwise depth instantiator
                 dynamic_parameters loaded_parameters h).1 in
    take (length h) h' = h
    ∧ h' !! dynamic_parameters = h !! dynamic_parameters.
Proof.
  intros depth instantiator a loaded h h'.
  destruct (keeps_create depth (length h) instantiator a loaded h ltac:(lia))
    as (Ht & Hl & _).
  fold h' in Ht, Hl. rewrite (take_ge h) in Ht by lia.
  assert (Hpre : ∀ b, (b < length h)%nat → h' !! b = h !! b).
  { intros b Hb. transitivity (take (length h) h' !! b);
      [symmetry; by apply lookup_take_lt | by rewrite Ht]. }
  split; [done|].
  destruct (decide (a < length h)%nat) as [Ha|Ha].
  - by apply Hpre.
  - subst h'. rewrite (lookup_ge_None_2 h a) by lia.
    destruct depth as [|depth]; simpl.
    + apply lookup_ge_None_2. lia.
    + cbv [bind read].
      rewrite (lookup_ge_None_2 h a) by lia.
      simpl. apply lookup_ge_None_2. lia.
Qed.

End Frame.

(** ** [find_descendants] and the resolution of a variant *)

Section Descendants.
Import SuperFactory Reference.

Lemma cls_induction (P : cls → Prop) :
  (∀ name init children, Forall P children → P (Class name init children)) →
  ∀ c, P c.
Proof.
  intros H. fix IH 1. intros [name init children]. apply H.
  induction children as [|c rest IHrest]; constructor; [apply IH | exact IHrest].
Qed.

Lemma find_descendants_fold name init children :
  find_descendants (Class name init children) = fold_left visit children [].
Proof.
  simpl. generalize (@nil (string * cls)).
  induction children as [|child rest IH]; intros acc; simpl; [done|].
  apply IH.
Qed.

Lemma dict_get_In {V} k (v : V) d : dict_get k d = Some v → In (k, v) d.
Proof.
  induction d as [|[k' v'] d IH]; simpl; [done|].
  destruct (String.eqb_spec k k') as [->|_]; [intros [= ->]; by left | auto].
Qed.

Lemma dict_get_None {V} k (d : list (string * V)) :
  dict_get k d = None ↔ ¬ In k (keys d).
Proof.
  induction d as [|[k' v'] d IH]; simpl; [tauto|].
  destruct (String.eqb_spec k k') as [->|Hne]; [|rewrite IH]; split;
    try done; try tauto.
  intros Hn [Heq|Hin]; [congruence | tauto].
Qed.

Lemma dict_set_In {V} k (v : V) d k' v' :
  In (k', v') (dict_set k v d) → (k', v') = (k, v) ∨ In (k', v') d.
Proof.
  induction d as [|[k0 v0] d IH]; simpl.
  - intros [Heq|[]]. by left.
  - destruct (String.eqb_spec k k0) as [->|_]; simpl.
    + intros [Heq|Hin]; [by left | right; by right].
    + intros [Heq|Hin]; [right; by left |].
      destruct (IH Hin); [by left | right; by right].
Qed.

Lemma dict_set_keys {V} k (v : V) d k' :
  In k' (keys (dict_set k v d)) ↔ k' = k ∨ In k' (keys d).
Proof.
  induction d as [|[k0 v0] d IH]; simpl.
  - split; [intros [<-|[]]; by left | intros [->|[]]; by left].
  - destruct (String.eqb_spec k k0) as [->|Hne]; simpl.
    + split; [intros [<-|Hin]; auto | intros [->|[<-|Hin]]; auto].
    + rewrite IH. split; [intros [<-|[->|Hin]] | intros [->|[<-|Hin]]]; auto.
Qed.

Lemma dict_merge_In {V} (d2 : list (string * V)) : ∀ d1 k v,
  In (k, v) (dict_merge d1 d2) → In (k, v) d1 ∨ In (k, v) d2.
Proof.
  unfold dict_merge.
  induction d2 as [|[k2 v2] d2 IH]; intros d1 k v; simpl; [auto|].
  intros Hin. destruct (IH _ _ _ Hin) as [Hset|Hd2]; [|right; by right].
  destruct (dict_set_In _ _ _ _ _ Hset) as [Heq|Hd1]; [right; by left | by left].
Qed.

Lemma dict_merge_keys {V} (d2 : list (string * V)) : ∀ d1 k,
  In k (keys (dict_merge d1 d2)) ↔ In k (keys d1) ∨ In k (keys d2).
Proof.
  unfold dict_merge.
  induction d2 as [|[k2 v2] d2 IH]; intros d1 k; simpl; [tauto|].
  rewrite IH, dict_set_keys. split; [intros [[->|H]|H] | intros [H|[<-|H]]];
    auto.
Qed.

(** Every entry of [find_descendants] is a class below the parent, under
    its own name. *)
Lemma find_descendants_sound : ∀ parent name c,
  In (name, c) (find_descendants parent) →
  descendant c parent ∧ __name__ c = name.
Proof.
  apply (cls_induction (fun parent => ∀ name c,
    In (name, c) (find_descendants parent) →
    descendant c parent ∧ __name__ c = name)).
  intros pname init children IH. rewrite find_descendants_fold.
  set (parent := Class pname init children).
  assert (Hloop : ∀ todo acc,
    (∀ child, In child todo → In child children) →
    Forall (fun child => ∀ name c, In (name, c) (find_descendants child) →
                           descendant c child ∧ __name__ c = name) todo →
    (∀ name c, In (name, c) acc → descendant c parent ∧ __name__ c = name) →
    ∀ name c, In (name, c) (fold_left visit todo acc) →
              descendant c parent ∧ __name__ c = name).
  { induction todo as [|child rest IHrest]; intros acc Hsub Hall Hacc; simpl;
      [exact Hacc|].
    apply Forall_cons in Hall as [Hchild Hall].
    apply IHrest; [intros; apply Hsub; by right | exact Hall |].
    intros name c Hin. unfold visit in Hin.
    assert (Hset : ∀ name c, In (name, c) (dict_set (__name__ child) child acc) →
                             descendant c parent ∧ __name__ c = name).
    { intros name' c' Hin'. apply dict_set_In in Hin' as [[= -> ->]|Hin'];
        [|by apply Hacc].
      split; [|done]. apply descendant_child. apply Hsub. by left. }
    destruct (0 <? length (__subclasses__ child))%nat; [|by apply Hset].
    apply dict_merge_In in Hin as [Hin|Hin]; [by apply Hset|].
    destruct (Hchild _ _ Hin) as [Hdesc Hname]. split; [|done].
    eapply descendant_below; [|exact Hdesc]. apply Hsub. by left. }
  apply Hloop; [done | | done].
  apply Forall_forall. intros child Hin. by apply (proj1 (Forall_forall _ _) IH).
Qed.

Lemma fold_visit_keys todo : ∀ acc k,
  In k (keys acc) → In k (keys (fold_left visit todo acc)).
Proof.
  induction todo as [|child rest IH]; intros acc k Hk; simpl; [done|].
  apply IH. unfold visit.
  destruct (0 <? length (__subclasses__ child))%nat.
  - apply dict_merge_keys. left. apply dict_set_keys. by right.
  - apply dict_set_keys. by right.
Qed.

Lemma fold_visit_child todo : ∀ acc child,
  In child todo →
  In (__name__ child) (keys (fold_left visit todo acc))
  ∧ ∀ k, In k (keys (find_descendants child)) →
         (0 < length (__subclasses__ child))%nat →
         In k (keys (fold_left visit todo acc)).
Proof.
  induction todo as [|first rest IH]; intros acc child Hin; simpl; [done|].
  destruct Hin as [->|Hin]; [|by apply IH].
  split.
  - apply fold_visit_keys. unfold visit.
    destruct (0 <? length (__subclasses__ child))%nat.
    + apply dict_merge_keys. left. apply dict_set_keys. by left.
    + apply dict_set_keys. by left.
  - intros k Hk Hsub. apply fold_visit_keys. unfold visit.
    apply Nat.ltb_lt in Hsub. rewrite Hsub.
    apply dict_merge_keys. by right.
Qed.

(** Every class below the parent has its name among the keys. *)
Lemma find_descendants_complete c parent :
  descendant c parent → In (__name__ c) (keys (find_descendants parent)).
Proof.
  induction 1 as [c [pname init children] Hin
                 |c child [pname init children] Hin Hdesc IH];
    rewrite find_descendants_fold; simpl in Hin.
  - by apply fold_visit_child.
  - apply (fold_visit_child _ [] child Hin); [done|].
    destruct Hdesc as [? [? ? l] Hl|? ? [? ? l] Hl _]; simpl in *;
      destruct l; simpl in *; done || lia.
Qed.

Lemma find_descendants_keys parent name :
  In name (keys (find_descendants parent))
  ↔ ∃ c, descendant c parent ∧ __name__ c = name.
Proof.
  split.
  - unfold keys. rewrite in_map_iff. intros [[name' c] [<- Hin]].
    exists c. by apply find_descendants_sound.
  - intros (c & Hdesc & <-). by apply find_descendants_complete.
Qed.

End Descendants.

(** For a base type named [Abstract] followed by a name without
    [Abstract], taking out every occurrence takes out the prefix. *)
Lemma replace_absent (old new s : string) :
  Str.contains old s = false → Str.replace_from old new O s = s.
Proof.
  induction s as [|c s IH]; [done|].
  cbn [Str.contains Str.replace_from]. intros Hc.
  apply orb_false_iff in Hc as [-> Hc]. by rewrite IH.
Qed.

Lemma prefix_append (p s : string) : String.prefix p (p +:+ s) = true.
Proof.
  induction p as [|a p IH]; simpl; [by destruct s|].
  destruct (ascii_dec a a); [exact IH | done].
Qed.

Lemma replace_abstract_prefix (base : string) :
  Str.contains "Abstract" base = false →
  Str.replace "Abstract" "" ("Abstract" +:+ base) = base.
Proof.
  intros Hc. unfold Str.replace.
  change ("Abstract" +:+ base) with (String "A" ("bstract" +:+ base)).
  cbn [Str.replace_from].
  change (String "A" ("bstract" +:+ base)) with ("Abstract" +:+ base).
  rewrite prefix_append.
  cbn [String.append Str.replace_from String.length Nat.sub].
  by apply replace_absent.
Qed.

Section Resolution.
Import SuperFactory Reference.
Variable pascalize : string → string.
Variable modules : string → option (list (string * cls)).
Variable types : nat → typ.
Variable otherwise : typ → dict → option dict → result pyval.

Lemma dict_get_mem (d : list (string * pyval)) k v :
  dict_get k d = Some v → mem k (keys d) = true.
Proof.
  induction d as [|[k' v'] d IH]; simpl; [done|].
  destruct (String.eqb_spec k k'); [done | exact IH].
Qed.

(** C3: for a base type [parent] and a ["type"] entry without a dot,
    [create] computes the name
    [pascalize(variant_base)], the base being the name of [parent] with
    [Abstract] taken out; the names that [find_descendants] lists are
    exactly the names of the classes below [parent], at any depth.  When a
    class below [parent] has the name, [create] goes on with such a class
    as instantiator, on its copy of the parameters without the ["type"]
    entry; when none has, it raises the resolution error that carries the
    name and all the names listed. *)
Theorem create_selects_the_descendant_by_name
    depth parent loaded_parameters h dynamic_parameters d variant :
  h !! dynamic_parameters = Some d →
  dict_get "type" d = Some (PStr variant) →
  Str.contains "." variant = false →
  let dependency_name :=
    pascalize (variant +:+ "_" +:+ Str.replace "Abstract" "" (__name__ parent)) in
  let run :=
    create pascalize modules types otherwise (S depth) (T_class parent)
      dynamic_parameters loaded_parameters h in
  (∀ name, In name (keys (find_descendants parent))
           ↔ ∃ c, descendant c parent ∧ __name__ c = name)
  ∧ match dict_get dependency_name (find_descendants parent) with
    | Some c =>
        descendant c parent ∧ __name__ c = dependency_name
        ∧ run = build types
                  (fun attribute nested =>
                     create pascalize modules types otherwise depth
                       attribute nested None)
                  c (length h) loaded_parameters
                  (h ++ [dict_remove "type" d])
    | None =>
        (∀ c, descendant c parent → __name__ c ≠ dependency_name)
        ∧ run = (h ++ [dict_remove "type" d],
                 Raise (ReflectionError
                          (DependencyNotFound dependency_name
                             (keys (find_descendants parent)))))
    end.
Proof.
  intros Hd Htype Hdot dependency_name run.
  split; [apply find_descendants_keys|].
  assert (Hrun : run =
    match dict_get dependency_name (find_descendants parent) with
    | Some c =>
        build types
          (fun attribute nested =>
             create pascalize modules types otherwise depth attribute nested None)
          c (length h) loaded_parameters (h ++ [dict_remove "type" d])
    | None =>
        (h ++ [dict_remove "type" d],
         Raise (ReflectionError
                  (DependencyNotFound dependency_name
                     (keys (find_descendants parent)))))
    end).
  { subst run. cbn [create]. cbv [bind copy read]. rewrite Hd.
    cbn beta iota. rewrite Hd. cbn beta iota.
    unfold resolve at 1. cbv [bind read pop write ret raise].
    rewrite list_lookup_middle by done.
    rewrite (dict_get_mem _ _ _ Htype). cbn beta iota.
    rewrite list_lookup_middle by done. rewrite Htype. cbn beta iota.
    replace (<[length h:=dict_remove "type" d]> (h ++ [d]))
      with (h ++ [dict_remove "type" d])
      by (rewrite insert_app_r_alt, Nat.sub_diag by done; done).
    rewrite Hdot. fold dependency_name.
    destruct (dict_get dependency_name (find_descendants parent));
      reflexivity. }
  destruct (dict_get dependency_name (find_descendants parent)) as [c|] eqn:Hget.
  - apply dict_get_In, find_descendants_sound in Hget as [Hdesc Hname]. done.
  - split; [|done]. intros c Hdesc Hname.
    apply dict_get_None in Hget. apply Hget.
    rewrite <- Hname. by apply find_descendants_complete.
Qed.

End Resolution.

(** The factory-resolution scenario: under [AbstractBar] with the
    descendants [FooBar] and [BazBar], the variant [foo] gives an instance
    of [FooBar], and the unknown variant [qux] the error that lists both. *)
Lemma create_foo_bar :
  let create parameters :=
    (SuperFactory.create Scenario.pascalize Scenario.no_modules
       Scenario.builtin_types Scenario.not_covered 1
       (SuperFactory.T_class Scenario.AbstractBar)
       O None [parameters]).2 in
  create [("type", SuperFactory.PStr "foo")]
  = Ok (SuperFactory.PInstance "FooBar" [])
  ∧ create [("type", SuperFactory.PStr "qux")]
    = Raise (ReflectionError (DependencyNotFound "QuxBar" ["FooBar"; "BazBar"])).
Proof. cbv zeta. split; reflexivity. Qed.

(** The variant [foo] under [AbstractBar]: [create] goes on with [FooBar]. *)
Lemma create_selects_foo_bar :
  SuperFactory.create Scenario.pascalize Scenario.no_modules
    Scenario.builtin_types Scenario.not_covered 1
       (SuperFactory.T_class Scenario.AbstractBar)
    O None [[("type", SuperFactory.PStr "foo")]]
  = SuperFactory.build Scenario.builtin_types
      (fun attribute nested =>
         SuperFactory.create Scenario.pascalize Scenario.no_modules
           Scenario.builtin_types Scenario.not_covered 0 attribute nested None)
      Scenario.FooBar 1 None
      [[("type", SuperFactory.PStr "foo")]; []].
Proof.
  exact (proj2 (proj2 (proj2
    (create_selects_the_descendant_by_name
       Scenario.pascalize Scenario.no_modules Scenario.builtin_types
       Scenario.not_covered O Scenario.AbstractBar
       None [[("type", SuperFactory.PStr "foo")]] O
       [("type", SuperFactory.PStr "foo")] "foo"
       eq_refl eq_refl eq_refl)))).
Defined.

(** The names are checked against [co_varnames]: [edge_network], a local
    variable of [MessagePassingNetwork.__init__] and no parameter of it,
    passes the check and the constructor raises [TypeError]; [heads],
    which [GraphConvolutionalNetwork.__init__] takes through [**kwargs],
    is refused with the resolution error. *)
Example create_edge_network_and_heads :
  let create parameters :=
    (SuperFactory.create Scenario.pascalize Scenario.no_modules
       Scenario.builtin_types Scenario.not_covered 1
       (SuperFactory.T_class Scenario.AbstractNetwork)
       O None [parameters]).2 in
  SuperFactory.accepts (SuperFactory.__init__ Scenario.MessagePassingNetwork)
    "edge_network" = false
  ∧ create [("type", SuperFactory.PStr "message_passing");
            ("in_features", SuperFactory.PInt 45);
            ("hidden_features", SuperFactory.PInt 128);
            ("out_features", SuperFactory.PInt 1);
            ("edge_features", SuperFactory.PInt 12);
            ("edge_hidden", SuperFactory.PInt 32);
            ("steps", SuperFactory.PInt 3);
            ("edge_network", SuperFactory.PInt 1)]
    = Raise (TypeError "unexpected keyword argument edge_network")
  ∧ SuperFactory.accepts
      (SuperFactory.__init__ Scenario.GraphConvolutionalNetwork) "heads" = true
  ∧ create [("type", SuperFactory.PStr "graph_convolutional");
            ("in_features", SuperFactory.PInt 45);
            ("hidden_features", SuperFactory.PInt 128);
            ("out_features", SuperFactory.PInt 1);
            ("molecule_features", SuperFactory.PInt 17);
            ("dropout", SuperFactory.PInt 0);
            ("heads", SuperFactory.PInt 4)]
    = Raise (ReflectionError (UnknownOption "GraphConvolutionalNetwork" "heads")).
Proof. cbv zeta. repeat split; reflexivity. Qed.

(** C1, on the code: [_sort] sorts the maps that are values of keys and
    leaves alone the maps held by a list.  Two parameter maps that differ
    only in the order of the keys of a featurizer inside the list of
    featurizers get different keys. *)
Theorem key_depends_on_key_order_inside_a_list :
  let A := [("featurizers",
             CacheManager.List_
               [CacheManager.Dict [("type", CacheManager.Str "graph");
                                   ("inputs", CacheManager.Str "smiles")]])] in
  let B := [("featurizers",
             CacheManager.List_
               [CacheManager.Dict [("inputs", CacheManager.Str "smiles");
                                   ("type", CacheManager.Str "graph")]])] in
  Reference.reordered (CacheManager.Dict A) (CacheManager.Dict B)
  ∧ CacheManager.key A = "c093c477c199b342c934c3f76181f5a8"
  ∧ CacheManager.key B = "07a412f638d678d617c86d680f34322f".
Proof.
  cbv zeta. split; [|split; vm_compute; reflexivity].
  apply Reference.reordered_dict, Reference.items_cons; [|constructor].
  apply Reference.reordered_list, Reference.each_cons; [|constructor].
  apply Reference.reordered_dict.
  eapply Reference.items_perm; [apply perm_swap|].
  repeat (apply Reference.items_cons; [apply Reference.reordered_same|]).
  constructor.
Qed.

(** Where the maps are values of keys, the order does not matter. *)
Lemma key_reordered_loader :
  let A := [("loader",
             CacheManager.Dict [("type", CacheManager.Str "csv");
                                ("input_path", CacheManager.Str "data.csv")]);
            ("last_modified", CacheManager.Int 1700000000)] in
  let B := [("last_modified", CacheManager.Int 1700000000);
            ("loader",
             CacheManager.Dict [("input_path", CacheManager.Str "data.csv");
                                ("type", CacheManager.Str "csv")])] in
  CacheManager.key A = CacheManager.key B.
Proof.
  cbv zeta. apply key_reordered; [reflexivity | reflexivity |].
  apply Reference.reordered_dict.
  eapply Reference.items_perm; [apply perm_swap|].
  apply Reference.items_cons; [apply Reference.reordered_same|].
  apply Reference.items_cons; [|constructor].
  apply Reference.reordered_dict.
  eapply Reference.items_perm; [apply perm_swap|].
  repeat (apply Reference.items_cons; [apply Reference.reordered_same|]).
  constructor.
Defined.

(** ** The lemmas above on the data of the scenarios *)

Lemma get_chunks_concat_10_3 :
  ∃ chunks, AbstractPreprocessor._get_chunks 3 10 = Ok chunks
            ∧ concat chunks = range (Z.of_nat 10).
Proof. apply (get_chunks_concat 3 10). simpl. lia. Defined.

Lemma prepare_dataset_sequential_ten_samples :
  CachePreprocessor._prepare_dataset [Scenario.rejects [3; 7]] []
    Scenario.show 4 true Scenario.ten_samples
  = Ok (Reference.sequential_run [Scenario.rejects [3; 7]] []
          Scenario.ten_samples).
Proof.
  apply (prepare_dataset_sequential [Scenario.rejects [3; 7]] []
           Scenario.show 4 true Scenario.ten_samples).
  simpl. lia.
Defined.

Lemma prepare_chunk_other_exception_crash :
  let chunk :=
    CachePreprocessor._prepare_chunk [Scenario.crashes] [] Scenario.show ∅ 1 in
  CachePreprocessor.dataset (chunk ([] ++ Scenario.sample 0 "CCO" :: []))
  = CachePreprocessor.dataset (chunk []) ++ CachePreprocessor.dataset (chunk [])
  ∧ CachePreprocessor.records (chunk ([] ++ Scenario.sample 0 "CCO" :: []))
    = CachePreprocessor.records (chunk [])
      ++ {| level := ERROR;
            message := Scenario.show (Scenario.sample 0 "CCO") +:+ " "
                       +:+ CachePreprocessor.smiles_of (Scenario.sample 0 "CCO")
                       +:+ " - " +:+ "division by zero" +:+ nl +:+ Scenario.trace |}
      :: CachePreprocessor.records (chunk []).
Proof.
  cbv zeta.
  apply (prepare_chunk_other_exception [Scenario.crashes] [] Scenario.show
           ∅ 1%nat [] (Scenario.sample 0 "CCO") []).
  reflexivity.
Defined.

(** ** [create] on parameters that hold no dict *)

Section FlatParameters.
Import SuperFactory.
Variable pascalize : string → string.
Variable modules : string → option (list (string * cls)).
Variable types : nat → typ.
Variable otherwise : typ → dict → option dict → result pyval.

#[local] Abbreviation scalar v :=
  (match v with PDict _ => False | _ => True end).

(** The loop raises on the first name that is not in [co_varnames], and
    passes when there is none. *)
Lemma inject_scalars (create : typ → addr → M pyval) c a items : ∀ h,
  Forall (fun kv => scalar (snd kv)) items →
  inject types create c a items h
  = (h, match List.find (fun kv => negb (mem (fst kv) (co_varnames (__init__ c))))
                items with
        | Some kv => Raise (ReflectionError (UnknownOption (__name__ c) (fst kv)))
        | None => Ok tt
        end).
Proof.
  induction items as [|[option_name option_value] rest IH]; intros h Hall;
    simpl; [done|].
  apply Forall_cons in Hall as [Hv Hall]. simpl in Hv.
  destruct (negb (mem option_name (co_varnames (__init__ c)))); [done|].
  destruct (dict_get option_name (__annotations__ (__init__ c))) as [t|];
    [|by apply IH].
  destruct option_value; try done; by apply IH.
Qed.

Lemma create_on_scalars depth c loaded_parameters h dynamic_parameters d :
  h !! dynamic_parameters = Some d →
  mem "type" (keys d) = false →
  Forall (fun kv => scalar (snd kv)) d →
  create pascalize modules types otherwise (S depth) (T_class c)
    dynamic_parameters loaded_parameters h
  = (h ++ [d],
     match List.find (fun kv => negb (mem (fst kv) (co_varnames (__init__ c)))) d
     with
     | Some kv => Raise (ReflectionError (UnknownOption (__name__ c) (fst kv)))
     | None =>
         call c match loaded_parameters with
                | Some loaded => dict_merge d loaded
                | None => d
                end
     end).
Proof.
  intros Hd Htype Hall. cbn [create]. cbv [bind copy read]. rewrite Hd.
  cbn beta iota. rewrite Hd. cbn beta iota.
  unfold resolve. cbv [bind read ret]. rewrite list_lookup_middle by done.
  rewrite Htype. cbn beta iota.
  unfold build. cbv [bind read ret lift]. rewrite list_lookup_middle by done.
  destruct d as [|item rest].
  - simpl. by rewrite list_lookup_middle.
  - change (0 <? length (item :: rest))%nat with true. cbn beta iota.
    rewrite inject_scalars by done.
    destruct (List.find _ (item :: rest)); [done|].
    by rewrite list_lookup_middle.
Qed.

(** For a class and parameters without ["type"] entry and without dict
    values, [create] raises the resolution error that names the class and
    the first parameter whose name is not in [co_varnames] of [__init__];
    when there is none it calls the class with the parameters, the loaded
    ones merged in. *)
Lemma create_flat_parameters depth c loaded_parameters h dynamic_parameters d :
  h !! dynamic_parameters = Some d →
  mem "type" (keys d) = false →
  Forall (fun kv => scalar (snd kv)) d →
  create pascalize modules types otherwise (S depth) (T_class c)
    dynamic_parameters loaded_parameters h
  = (h ++ [d],
     match List.find (fun kv => negb (mem (fst kv) (co_varnames (__init__ c)))) d
     with
     | Some kv => Raise (ReflectionError (UnknownOption (__name__ c) (fst kv)))
     | None =>
         call c match loaded_parameters with
                | Some loaded => dict_merge d loaded
                | None => d
                end
     end).
Proof. intros Hd Htype Hall. by apply create_on_scalars. Qed.

Lemma find_In {A} (f : A → bool) (l : list A) x :
  In x l → f x = true → ∃ y, List.find f l = Some y.
Proof.
  induction l as [|z l IH]; simpl; [done|].
  intros [->|Hin] Hx.
  - rewrite Hx. by eexists.
  - destruct (f z); [by eexists | by apply IH].
Qed.

Lemma find_none_Forall {A} (f : A → bool) (l : list A) :
  Forall (fun x => f x = false) l → List.find f l = None.
Proof.
  induction 1 as [|x l Hx _ IH]; simpl; [done|]. by rewrite Hx.
Qed.

(** C7, on the code: the names are checked against [co_varnames], which
    also lists the first parameter and the local variables of [__init__]
    and leaves out what [**kwargs] takes.  On parameters without ["type"]
    entry and without dict values: when every name is in [co_varnames] and
    one of them is no keyword that [__init__] accepts, no resolution error
    is raised and the call of the class raises [TypeError]; and a name
    that [__init__] accepts but that is not in [co_varnames] is refused
    with the resolution error. *)
Theorem create_checks_names_against_co_varnames
    depth c h dynamic_parameters d :
  h !! dynamic_parameters = Some d →
  mem "type" (keys d) = false →
  Forall (fun kv => scalar (snd kv)) d →
  let outcome :=
    (create pascalize modules types otherwise (S depth) (T_class c)
       dynamic_parameters None h).2 in
  (Forall (fun kv => mem (fst kv) (co_varnames (__init__ c)) = true) d →
   ∀ p, In p (keys d) → accepts (__init__ c) p = false →
        ∃ detail, outcome = Raise (TypeError detail))
  ∧ (∀ p, In p (keys d) → accepts (__init__ c) p = true →
          mem p (co_varnames (__init__ c)) = false →
          ∃ q, outcome = Raise (ReflectionError (UnknownOption (__name__ c) q))).
Proof.
  intros Hd Htype Hall outcome. subst outcome.
  rewrite (create_on_scalars depth c None h dynamic_parameters d Hd Htype Hall).
  cbn [snd]. split.
  - intros Hknown p Hp Hacc.
    rewrite find_none_Forall.
    2: { eapply Forall_impl; [exact Hknown|]. intros kv ->. done. }
    unfold call.
    destruct (find_In (fun k => negb (accepts (__init__ c) k)) (keys d) p Hp)
      as [k ->]; [by rewrite Hacc|].
    by eexists.
  - intros p Hp _ Hmem. unfold keys in Hp. apply in_map_iff in Hp as [kv [<- Hkv]].
    destruct (find_In (fun kv => negb (mem (fst kv) (co_varnames (__init__ c))))
                d kv Hkv) as [q ->]; [by rewrite Hmem|].
    by eexists.
Qed.

End FlatParameters.

(** [edge_network], a local variable of [MessagePassingNetwork.__init__],
    among the parameters. *)
Lemma create_passes_edge_network :
  ∃ detail,
    (SuperFactory.create Scenario.pascalize Scenario.no_modules
       Scenario.builtin_types Scenario.not_covered 1
       (SuperFactory.T_class Scenario.MessagePassingNetwork) O None
       [[("in_features", SuperFactory.PInt 45);
         ("edge_network", SuperFactory.PInt 1)]]).2
    = Raise (TypeError detail).
Proof.
  apply (proj1 (create_checks_names_against_co_varnames
                  Scenario.pascalize Scenario.no_modules Scenario.builtin_types
                  Scenario.not_covered O Scenario.MessagePassingNetwork
                  [[("in_features", SuperFactory.PInt 45);
                    ("edge_network", SuperFactory.PInt 1)]] O
                  [("in_features", SuperFactory.PInt 45);
                   ("edge_network", SuperFactory.PInt 1)]
                  eq_refl eq_refl ltac:(repeat constructor)))
    with (p := "edge_network").
  - repeat constructor.
  - simpl. auto.
  - reflexivity.
Defined.

Lemma create_flat_parameters_loader :
  SuperFactory.create Scenario.pascalize Scenario.no_modules
    Scenario.builtin_types Scenario.not_covered 1
    (SuperFactory.T_class Scenario.TripletMessagePassingNetwork) O None
    [[("in_features", SuperFactory.PInt 45); ("layers", SuperFactory.PInt 3)]]
  = ([[("in_features", SuperFactory.PInt 45); ("layers", SuperFactory.PInt 3)];
      [("in_features", SuperFactory.PInt 45); ("layers", SuperFactory.PInt 3)]],
     Raise (ReflectionError
              (UnknownOption "TripletMessagePassingNetwork" "layers"))).
Proof.
  apply (create_flat_parameters Scenario.pascalize Scenario.no_modules
           Scenario.builtin_types Scenario.not_covered O
           Scenario.TripletMessagePassingNetwork None
           [[("in_features", SuperFactory.PInt 45);
             ("layers", SuperFactory.PInt 3)]] O
           [("in_features", SuperFactory.PInt 45);
            ("layers", SuperFactory.PInt 3)]).
  - reflexivity.
  - reflexivity.
  - repeat constructor.
Defined.

(** ** The chain of stages *)

Section ChainFacts.
Import AbstractPreprocessor.

Lemma run_stages_app (stages1 stages2 : list stage) (sample : DataPoint) :
  run_stages (stages1 ++ stages2) sample
  = match run_stages stages1 sample with
    | (sample', None) => run_stages stages2 sample'
    | (sample', Some e) => (sample', Some e)
    end.
Proof.
  revert sample. induction stages1 as [|s rest IH]; intros sample; simpl.
  - reflexivity.
  - destruct (s sample) as [sample' [e|]]; [reflexivity | apply IH].
Qed.

(** [preprocess] runs the featurizers and the transformers as one chain. *)
Lemma preprocess_run_stages (_featurizers _transformers : list stage) sample :
  preprocess _featurizers _transformers sample
  = run_stages (_featurizers ++ _transformers) sample.
Proof.
  unfold preprocess, _featurize, _apply_transformers.
  by rewrite run_stages_app.
Qed.

(** [preprocess] ends at the first featurizer or transformer that
    raises: the sample is left as that stage left it, the exception is the
    one of that stage, and no stage after it runs, whatever the stages
    after it are. *)
Theorem preprocess_ends_at_the_first_failure
    (_featurizers _transformers before after : list stage) (failing : stage)
    (sample reached left : DataPoint) (e : raised) :
  _featurizers ++ _transformers = before ++ failing :: after →
  run_stages before sample = (reached, None) →
  failing reached = (left, Some e) →
  preprocess _featurizers _transformers sample = (left, Some e).
Proof.
  intros Hchain Hbefore Hfail.
  rewrite preprocess_run_stages, Hchain, run_stages_app, Hbefore.
  simpl. by rewrite Hfail.
Qed.

(** When [reverse] of every transformer undoes its [apply],
    [reverse_transformers] undoes [_apply_transformers]: the sample that
    the transformers produced is brought back to the sample they were
    given. *)
Theorem reverse_transformers_undoes_apply_transformers
    (_transformers : list transformer) :
  (∀ t, t ∈ _transformers →
        ∀ s s', apply t s = (s', None) → reverse t s' = (s, None)) →
  ∀ sample transformed,
    _apply_transformers (map apply _transformers) sample = (transformed, None) →
    reverse_transformers _transformers transformed = (sample, None).
Proof.
  unfold _apply_transformers, reverse_transformers.
  induction _transformers as [|t rest IH]; intros Hinv sample transformed.
  - simpl. by intros [= ->].
  - simpl. destruct (apply t sample) as [s1 [e|]] eqn:Ht; [done|].
    intros Hrest. rewrite map_app, run_stages_app.
    rewrite (IH (fun t' Ht' => Hinv t' (list_elem_of_further _ _ _ Ht')) s1 transformed Hrest).
    simpl. by rewrite (Hinv t (list_elem_of_here _ _) _ _ Ht).
Qed.

End ChainFacts.

Lemma preprocess_ends_at_crashes :
  AbstractPreprocessor.preprocess
    [Scenario.draws; Scenario.crashes] [AbstractPreprocessor.apply Scenario.scales]
    (Scenario.sample 0 "CCO")
  = ({| id_ := 0; inputs := [("smiles", "CCO"); ("graph", "G(CCO)")] |},
     Some (OtherException "division by zero" Scenario.trace)).
Proof.
  apply (preprocess_ends_at_the_first_failure
           [Scenario.draws; Scenario.crashes]
           [AbstractPreprocessor.apply Scenario.scales]
           [Scenario.draws] [AbstractPreprocessor.apply Scenario.scales]
           Scenario.crashes (Scenario.sample 0 "CCO")
           {| id_ := 0; inputs := [("smiles", "CCO"); ("graph", "G(CCO)")] |}).
  - reflexivity.
  - reflexivity.
  - reflexivity.
Defined.

Lemma reverse_transformers_scales_twice :
  AbstractPreprocessor.reverse_transformers [Scenario.scales; Scenario.scales]
    {| id_ := 0; inputs := [("scaled", "1"); ("scaled", "1"); ("smiles", "CCO")] |}
  = (Scenario.sample 0 "CCO", None).
Proof.
  apply (reverse_transformers_undoes_apply_transformers
           [Scenario.scales; Scenario.scales]).
  - intros t Ht s s' Hs.
    assert (t = Scenario.scales) as ->.
    { apply list_elem_of_In in Ht. simpl in Ht. intuition. }
    destruct s as [i ins]. simpl in Hs. injection Hs as <-. reflexivity.
  - reflexivity.
Defined.

(** ** What a worker accounts for *)

Section ChunkAccounts.
Import CachePreprocessor.
Variables _featurizers _transformers : list stage.
Variable str : DataPoint -> string.

Lemma prepare_sample_progress task_id total w n sample :
  progress (prepare_sample _featurizers _transformers str task_id total w n sample)
  = <[task_id := (n + 1, total)]> (progress w).
Proof.
  unfold prepare_sample.
  destruct (AbstractPreprocessor.preprocess _ _ sample) as [s' [[e tb|e tb]|]];
    reflexivity.
Qed.

Lemma enumerate_from_progress task_id total loader : ∀ n w,
  progress (enumerate_from _featurizers _transformers str task_id total n loader w)
  = match loader with
    | [] => progress w
    | _ :: _ =>
        <[task_id := (n + Z.of_nat (length loader), total)]> (progress w)
    end.
Proof.
  induction loader as [|sample rest IH]; intros n w; [done|].
  cbn [enumerate_from]. rewrite IH, prepare_sample_progress.
  destruct rest as [|s rest].
  - reflexivity.
  - rewrite insert_insert_eq. do 2 f_equal. simpl length. lia.
Qed.

Lemma prepare_sample_one task_id total w n sample :
  (length (dataset (prepare_sample _featurizers _transformers str task_id total w n sample))
   + length (records (prepare_sample _featurizers _transformers str task_id total w n sample))
   = S (length (dataset w) + length (records w)))%nat.
Proof.
  unfold prepare_sample.
  destruct (AbstractPreprocessor.preprocess _ _ sample) as [s' [[e tb|e tb]|]];
    simpl; rewrite length_app; simpl; lia.
Qed.

Lemma enumerate_from_count task_id total loader : ∀ n w,
  (length (dataset (enumerate_from _featurizers _transformers str task_id total n loader w))
   + length (records (enumerate_from _featurizers _transformers str task_id total n loader w))
   = length (dataset w) + length (records w) + length loader)%nat.
Proof.
  induction loader as [|sample rest IH]; intros n w; simpl; [lia|].
  rewrite IH, prepare_sample_one. lia.
Qed.

(** [_prepare_chunk] accounts for every sample of its chunk: each
    sample is either in the list it returns or in exactly one log record,
    and for a chunk that is not empty the entry of the task in the
    progress map ends at [len(loader)] out of [len(loader)], the failed
    samples counted, the entries of the other tasks being left as they
    were.  For an empty chunk the progress map is not touched. *)
Theorem prepare_chunk_accounts_for_every_sample
    (before : gmap nat (Z * Z)) (task_id : nat) (loader : list DataPoint) :
  let w := _prepare_chunk _featurizers _transformers str before task_id loader in
  (length (dataset w) + length (records w) = length loader)%nat
  ∧ progress w
    = match loader with
      | [] => before
      | _ :: _ =>
          <[task_id := (Z.of_nat (length loader), Z.of_nat (length loader))]> before
      end.
Proof.
  unfold _prepare_chunk. split.
  - by rewrite enumerate_from_count.
  - rewrite enumerate_from_progress. destruct loader; [done|].
    simpl progress. do 2 f_equal.
Qed.

End ChunkAccounts.

(** ** The loop of [OnlinePreprocessor.run_preprocess] *)

Section RunF.
Import OnlinePreprocessor.

Lemma run_f_all_pass (f : stage) (dataset : list DataPoint) :
  Forall (fun sample => (f sample).2 = None) dataset →
  run_f f dataset = (map (fun sample => (f sample).1) dataset, None).
Proof.
  induction 1 as [|sample rest Hs _ IH]; [done|].
  simpl. destruct (f sample) as [sample' [e|]]; [done|].
  by rewrite IH.
Qed.

(** [run_f] catches nothing: the first sample on which the
    featurizer raises ends the loop with that exception, the samples
    before it featurized and the samples after it not touched. *)
Theorem run_f_ends_at_the_first_failure (f : stage)
    (before after : list DataPoint) (sample left : DataPoint) (e : raised) :
  Forall (fun sample => (f sample).2 = None) before →
  f sample = (left, Some e) →
  run_f f (before ++ sample :: after)
  = (map (fun sample => (f sample).1) before ++ left :: after, Some e).
Proof.
  intros Hbefore Hfail.
  induction Hbefore as [|s rest Hs _ IH]; simpl.
  - by rewrite Hfail.
  - destruct (f s) as [s' [e'|]]; [done|]. by rewrite IH.
Qed.

End RunF.

Lemma run_f_rejects_the_second :
  OnlinePreprocessor.run_f (Scenario.rejects [1])
    [Scenario.sample 0 "C"; Scenario.sample 1 "N"; Scenario.sample 2 "O"]
  = ([Scenario.sample 0 "C"; Scenario.sample 1 "N"; Scenario.sample 2 "O"],
     Some (FeaturizationError "invalid molecule" Scenario.trace)).
Proof.
  apply (run_f_ends_at_the_first_failure (Scenario.rejects [1])
           [Scenario.sample 0 "C"] [Scenario.sample 2 "O"]
           (Scenario.sample 1 "N") (Scenario.sample 1 "N")).
  - repeat constructor.
  - reflexivity.
Defined.

(** ** When [_get_chunks] raises *)

Section ChunkEdges.
Import AbstractPreprocessor.

(** [_get_chunks] raises exactly when there is no job, no sample, or fewer
    samples than jobs, and then it is [ZeroDivisionError]: an empty dataset
    cannot be chunked, whatever the number of jobs. *)
Theorem get_chunks_raises_iff (n_jobs : Z) (len : nat) :
  (_get_chunks n_jobs len = Raise ZeroDivisionError
   ↔ n_jobs = 0 ∨ len = O ∨ Z.of_nat len < n_jobs)
  ∧ (∀ e, _get_chunks n_jobs len = Raise e → e = ZeroDivisionError).
Proof.
  unfold _get_chunks, floordiv.
  destruct (Z.eqb_spec n_jobs 0) as [Hn|Hn].
  { split; [split; auto | by intros e [= <-]]. }
  destruct (Z.eqb_spec (Z.of_nat len / n_jobs) 0) as [Hc|Hc].
  - split; [|by intros e [= <-]].
    split; [intros _|done].
    apply Z.div_small_iff in Hc; [|done]. lia.
  - split; [|done]. split; [done|].
    intros [?|[Hl|Hl]]; [done| |]; exfalso; apply Hc.
    + subst len. by rewrite Z.div_0_l.
    + apply Z.div_small. lia.
Qed.

(** With at least as many samples as jobs there are at least as many
    chunks as jobs and fewer than twice as many: a worker task for every
    job, and at most [2 * n_jobs - 1] of them. *)
Theorem get_chunks_count_bounds (n_jobs : Z) (len : nat) :
  1 ≤ n_jobs ≤ Z.of_nat len →
  ∃ chunks, _get_chunks n_jobs len = Ok chunks
            ∧ n_jobs ≤ Z.of_nat (length chunks) ≤ 2 * n_jobs - 1.
Proof.
  intros Hn.
  destruct (get_chunks_unfold n_jobs len Hn)
    as (c & k & Hc & _ & Hc1 & Hk1 & Hk2 & ->).
  eexists. split; [reflexivity|].
  rewrite length_map, range_length, Nat2Z.id.
  pose proof (Z.div_mod (Z.of_nat len) n_jobs ltac:(lia)) as Hdm.
  pose proof (Z.mod_pos_bound (Z.of_nat len) n_jobs ltac:(lia)) as Hmod.
  rewrite <- Hc in Hdm.
  assert (Hk : (1 ≤ k)%nat) by (destruct k; [simpl in Hk1; lia | lia]).
  split; nia.
Qed.

(** With a negative number of jobs and at least one sample the chunks hold
    no index at all: there is no chunk, or one empty chunk for a single
    sample. *)
Lemma get_chunks_negative (n_jobs : Z) (len : nat) :
  n_jobs < 0 → (1 ≤ len)%nat →
  _get_chunks n_jobs len = Ok (if decide (len = 1%nat) then [[]] else []).
Proof.
  intros Hn Hlen. unfold _get_chunks, floordiv.
  destruct (Z.eqb_spec n_jobs 0); [lia|].
  pose proof (Z.div_mod (Z.of_nat len) n_jobs ltac:(lia)) as Hdm'.
  pose proof (Z.mod_neg_bound (Z.of_nat len) n_jobs Hn) as Hmod'.
  set (c := Z.of_nat len / n_jobs) in *.
  assert (Hc : - Z.of_nat len ≤ c ≤ -1) by (split; nia).
  destruct (Z.eqb_spec c 0); [lia|].
  pose proof (Z.div_mod (Z.of_nat len + c - 1) c ltac:(lia)) as Hdm.
  pose proof (Z.mod_neg_bound (Z.of_nat len + c - 1) c ltac:(lia)) as Hmod.
  set (k := (Z.of_nat len + c - 1) / c) in *.
  destruct (decide (len = 1%nat)) as [->|Hnot].
  - assert (c = -1) as -> by lia.
    assert (k = 1) as -> by nia.
    reflexivity.
  - assert (Hk : k ≤ 0) by nia.
    unfold range at 2. replace (Z.to_nat k) with O by lia. reflexivity.
Qed.

End ChunkEdges.

Section NegativeJobs.
Import AbstractPreprocessor CachePreprocessor.
Variables _featurizers _transformers : list stage.
Variable str : DataPoint -> string.

(** A negative [featurization_jobs] loses the dataset without an error:
    for a loader that is not empty the in-memory [_prepare_dataset]
    returns an empty dataset, no sample being transformed or logged; the
    disk-backed one raises [IndexError] at [disk_lists[0]], but for a
    single sample, where it returns the empty dataset too. *)
Theorem prepare_dataset_negative_jobs (n_jobs : Z) (loader : list DataPoint) :
  n_jobs < 0 → loader ≠ [] →
  _prepare_dataset _featurizers _transformers str n_jobs false loader = Ok []
  ∧ _prepare_dataset _featurizers _transformers str n_jobs true loader
    = if decide (length loader = 1%nat) then Ok []
      else Raise IndexError.
Proof.
  intros Hn Hl.
  assert (1 ≤ length loader)%nat by (destruct loader; [done | simpl; lia]).
  unfold _prepare_dataset, _run_parrallel.
  rewrite get_chunks_negative by done.
  destruct (decide (length loader = 1%nat)); split; reflexivity.
Qed.

End NegativeJobs.

Lemma prepare_dataset_minus_two_jobs :
  CachePreprocessor._prepare_dataset [Scenario.draws] [] Scenario.show
    (-2) false Scenario.ten_samples = Ok []
  ∧ CachePreprocessor._prepare_dataset [Scenario.draws] [] Scenario.show
      (-2) true Scenario.ten_samples = Raise IndexError.
Proof.
  apply (prepare_dataset_negative_jobs [Scenario.draws] [] Scenario.show
           (-2) Scenario.ten_samples).
  - lia.
  - discriminate.
Defined.

Lemma get_chunks_count_bounds_10_4 :
  ∃ chunks, AbstractPreprocessor._get_chunks 4 10 = Ok chunks
            ∧ 4 ≤ Z.of_nat (length chunks) ≤ 2 * 4 - 1.
Proof. apply (get_chunks_count_bounds 4 10). simpl. lia. Defined.

(** ** The identifiers of the augmented samples *)

Section AugmentedIds.
Import CachePreprocessor.

Lemma number_from_spec (dataset_size : Z) (dataset : list DataPoint) : ∀ i,
  number_from dataset_size i dataset
  = (imap (fun k data => set_id data (dataset_size + i + Z.of_nat k)) dataset,
     i + Z.of_nat (length dataset)).
Proof.
  induction dataset as [|data rest IH]; intros i; simpl.
  - f_equal. lia.
  - rewrite IH. f_equal.
    + f_equal; [f_equal; lia|].
      apply imap_ext. intros k x _. simpl. f_equal. lia.
    + lia.
Qed.

Lemma number_from_ids (dataset_size i : Z) (dataset : list DataPoint) :
  map id_ (number_from dataset_size i dataset).1
  = map (fun k => dataset_size + i + Z.of_nat k) (seq 0 (length dataset)).
Proof.
  rewrite number_from_spec. simpl.
  apply list_eq. intros k.
  rewrite !list_lookup_fmap, list_lookup_imap.
  destruct (dataset !! k) as [x|] eqn:Hx; simpl.
  - rewrite lookup_seq_lt by (by eapply lookup_lt_Some). done.
  - rewrite lookup_seq_ge by (by apply lookup_ge_None). done.
Qed.

Lemma number_from_inputs (dataset_size i : Z) (dataset : list DataPoint) :
  map inputs (number_from dataset_size i dataset).1 = map inputs dataset.
Proof.
  rewrite number_from_spec. simpl.
  apply list_eq. intros k.
  rewrite !list_lookup_fmap, list_lookup_imap.
  by destruct (dataset !! k).
Qed.

Lemma seq_shift_map (f : nat → Z) (a n m : nat) :
  map f (seq a (n + m))
  = map f (seq a n) ++ map (fun k => f (n + k)%nat) (seq a m).
Proof.
  rewrite seq_app, map_app. f_equal.
  rewrite (Nat.add_comm a n), <- (fmap_add_seq n a m).
  by rewrite <- list_fmap_compose.
Qed.

Lemma map_seq_from (f : nat → Z) (a n : nat) :
  map f (seq a n) = map (fun k => f (a + k)%nat) (seq 0 n).
Proof.
  rewrite <- (Nat.add_0_r a) at 1.
  by rewrite <- fmap_add_seq, <- list_fmap_compose.
Qed.

Lemma number_all_ids (dataset_size : Z) (aug_datasets : list (list DataPoint)) : ∀ i,
  map id_ (concat (number_all dataset_size i aug_datasets))
  = map (fun k => dataset_size + i + Z.of_nat k)
        (seq 0 (length (concat aug_datasets))).
Proof.
  induction aug_datasets as [|dataset rest IH]; intros i; [done|].
  cbn [number_all concat].
  destruct (number_from dataset_size i dataset) as [dataset' i'] eqn:Hn.
  pose proof (number_from_ids dataset_size i dataset) as Hids.
  pose proof (number_from_spec dataset_size dataset i) as Hspec.
  rewrite Hn in Hids, Hspec. simpl in Hids. injection Hspec as _ ->.
  cbn [concat]. rewrite map_app, Hids, IH, length_app, seq_shift_map.
  f_equal. apply map_ext. intros k. lia.
Qed.

Lemma number_all_inputs (dataset_size : Z) (aug_datasets : list (list DataPoint)) : ∀ i,
  map (map inputs) (number_all dataset_size i aug_datasets)
  = map (map inputs) aug_datasets.
Proof.
  induction aug_datasets as [|dataset rest IH]; intros i; [done|].
  cbn [number_all].
  pose proof (number_from_inputs dataset_size i dataset) as Hin.
  destruct (number_from dataset_size i dataset) as [dataset' i'].
  simpl in *. by rewrite Hin, IH.
Qed.

(** [CachePreprocessor._load_augmented_data] numbers the augmented samples
    [dataset_size], [dataset_size + 1], ... without a gap, through the
    augmentations in their order; the inputs of the samples and the
    datasets they are in stay as they were. *)
Theorem load_augmented_data_ids (dataset_size : Z)
    (aug_datasets : list (list DataPoint)) :
  map id_ (concat (_load_augmented_data dataset_size aug_datasets))
  = map (fun k => dataset_size + Z.of_nat k)
        (seq 0 (length (concat aug_datasets)))
  ∧ map (map inputs) (_load_augmented_data dataset_size aug_datasets)
    = map (map inputs) aug_datasets.
Proof.
  unfold _load_augmented_data. split.
  - rewrite number_all_ids. apply map_ext. intros k. lia.
  - apply number_all_inputs.
Qed.

Lemma foldl_app_concat {A} (aug_datasets : list (list A)) : ∀ dataset,
  foldl (fun tmp aug => tmp ++ aug) dataset aug_datasets
  = dataset ++ concat aug_datasets.
Proof.
  induction aug_datasets as [|aug rest IH]; intros dataset; simpl.
  - by rewrite app_nil_r.
  - by rewrite IH, <- app_assoc.
Qed.

Lemma number_all_length (dataset_size : Z) (aug_datasets : list (list DataPoint)) : ∀ i,
  length (concat (number_all dataset_size i aug_datasets))
  = length (concat aug_datasets).
Proof.
  intros i.
  rewrite <- (length_map id_), number_all_ids, length_map, length_seq.
  reflexivity.
Qed.

(** The dataset that [_add_static_aug_dataset] returns after
    [_load_augmented_data], when [dataset_size] is the length of the list
    of the dataset ([_load_dataset] sets it so): the samples of the dataset
    come first, as they were, the augmented samples follow, and the
    identifier of every augmented sample is its position in the merged
    list, the positions being the indices given to the [ListLoader]. *)
Theorem add_static_aug_dataset_ids
    (_dataset : list DataPoint) (aug_datasets : list (list DataPoint)) :
  let dataset_size := Z.of_nat (length _dataset) in
  let merged :=
    _add_static_aug_dataset
      (_load_augmented_data dataset_size aug_datasets) _dataset in
  take (length _dataset) merged.1 = _dataset
  ∧ map id_ (drop (length _dataset) merged.1)
    = map Z.of_nat (seq (length _dataset) (length (concat aug_datasets)))
  ∧ merged.2
    = range (Z.of_nat (length _dataset + length (concat aug_datasets))).
Proof.
  unfold _add_static_aug_dataset, _load_augmented_data. cbn [fst snd].
  rewrite foldl_app_concat. split; [|split].
  - by rewrite take_app_length.
  - rewrite drop_app_length, number_all_ids.
    rewrite (map_seq_from Z.of_nat).
    apply map_ext. intros k. lia.
  - by rewrite length_app, number_all_length.
Qed.

End AugmentedIds.

Section OnlineAugmentedIds.
Import OnlinePreprocessor.

Lemma count_loaders_spec (aug_datasets : list aug_dataset) : ∀ i,
  count_loaders i aug_datasets
  = i + Z.of_nat (length (Reference.loaded aug_datasets)).
Proof.
  induction aug_datasets as [|[samples|samples] rest IH]; intros i.
  - simpl. lia.
  - apply IH.
  - cbn [count_loaders is_list]. rewrite IH. unfold Reference.loaded.
    cbn [flat_map len]. rewrite length_app. lia.
Qed.

Lemma number_lists_spec (dataset_size : Z) (aug_datasets : list aug_dataset) : ∀ i,
  map id_ (Reference.listed (number_lists dataset_size i aug_datasets))
  = map (fun k => dataset_size + i + Z.of_nat k)
        (seq 0 (length (Reference.listed aug_datasets)))
  ∧ map inputs (Reference.listed (number_lists dataset_size i aug_datasets))
    = map inputs (Reference.listed aug_datasets)
  ∧ Reference.loaded (number_lists dataset_size i aug_datasets)
    = Reference.loaded aug_datasets
  ∧ map is_list (number_lists dataset_size i aug_datasets)
    = map is_list aug_datasets.
Proof.
  induction aug_datasets as [|[samples|samples] rest IH]; intros i.
  - done.
  - cbn [number_lists].
    pose proof (number_from_ids dataset_size i samples) as Hids.
    pose proof (number_from_inputs dataset_size i samples) as Hin.
    pose proof (number_from_spec dataset_size samples i) as Hspec.
    destruct (CachePreprocessor.number_from dataset_size i samples)
      as [samples' i'].
    simpl in Hids, Hin. injection Hspec as _ ->.
    destruct (IH (i + Z.of_nat (length samples))) as (IH1 & IH2 & IH3 & IH4).
    unfold Reference.listed, Reference.loaded in *. cbn [flat_map map is_list].
    rewrite !map_app, Hids, Hin, IH1, IH2, IH3, IH4, length_app, seq_shift_map.
    repeat split; try done.
    f_equal. apply map_ext. intros k. lia.
  - cbn [number_lists].
    destruct (IH i) as (IH1 & IH2 & IH3 & IH4).
    unfold Reference.listed, Reference.loaded in *. cbn [flat_map map is_list].
    rewrite IH3, IH4. cbn [app]. done.
Qed.

(** [OnlinePreprocessor._load_augmented_data] numbers only the samples of
    the augmented datasets that are lists: they get [dataset_size + L],
    [dataset_size + L + 1], ... in their order, [L] being the number of
    samples of the augmented datasets that are loaders, wherever those
    come among the augmentations.  The samples of the loaders keep the
    identifiers they had, and nothing else of the datasets changes. *)
Theorem load_augmented_data_numbers_the_lists (dataset_size : Z)
    (aug_datasets : list aug_dataset) :
  let numbered := _load_augmented_data dataset_size aug_datasets in
  map id_ (Reference.listed numbered)
  = map (fun k => dataset_size
                  + Z.of_nat (length (Reference.loaded aug_datasets))
                  + Z.of_nat k)
        (seq 0 (length (Reference.listed aug_datasets)))
  ∧ map inputs (Reference.listed numbered)
    = map inputs (Reference.listed aug_datasets)
  ∧ Reference.loaded numbered = Reference.loaded aug_datasets
  ∧ map is_list numbered = map is_list aug_datasets.
Proof.
  unfold _load_augmented_data. rewrite count_loaders_spec.
  destruct (number_lists_spec dataset_size aug_datasets
              (0 + Z.of_nat (length (Reference.loaded aug_datasets))))
    as (H1 & H2 & H3 & H4).
  repeat split; done.
Qed.

End OnlineAugmentedIds.

(** ** What [OnlinePreprocessor._add_static_aug_dataset] returns *)

Section OnlineAddStatic.
Import OnlinePreprocessor.
Variable loader_add : aug_dataset -> aug_dataset -> result aug_dataset.
Variable get_all : aug_dataset -> result aug_dataset.

Lemma add_lists_snoc (a : aug_dataset) (aug_datasets : list aug_dataset)
    (aug : aug_dataset) : ∀ dataset,
  add_lists loader_add a dataset (aug_datasets ++ [aug])
  = match add_lists loader_add a dataset aug_datasets with
    | Raise e => Raise e
    | Ok _ => if is_list aug then add loader_add aug a else Ok aug
    end.
Proof.
  induction aug_datasets as [|x rest IH]; intros dataset; simpl.
  - destruct (is_list aug); [|done]. by destruct (add loader_add aug a).
  - destruct (is_list x); [|apply IH].
    destruct (add loader_add x a); [apply IH | done].
Qed.

(** With at least one augmentation, what [_add_static_aug_dataset]
    returns holds nothing of the dataset it was given nor of the sums of
    its first loop: the variable of the last loop is [dataset] itself, so
    the result is the dataset of the last augmentation if that is a
    loader, and that list followed by itself if it is a list. *)
Theorem add_static_aug_dataset_returns_the_last_augmentation
    (aug_datasets : list aug_dataset) (last : aug_dataset)
    (dataset returned : aug_dataset) :
  _add_static_aug_dataset loader_add get_all (aug_datasets ++ [last]) dataset
  = Ok returned →
  returned = match last with
             | AsLoader samples => AsLoader samples
             | AsList samples => AsList (samples ++ samples)
             end.
Proof.
  unfold _add_static_aug_dataset.
  destruct (add_loaders loader_add dataset (aug_datasets ++ [last]))
    as [d1|e]; [|done].
  destruct (if existsb is_list (aug_datasets ++ [last]) then get_all d1 else Ok d1)
    as [d2|e]; [|done].
  destruct (aug_datasets ++ [last]) as [|first rest] eqn:Hl.
  { by destruct aug_datasets. }
  rewrite <- Hl, last_last, add_lists_snoc.
  destruct (add_lists loader_add last d2 aug_datasets); [|done].
  destruct last as [samples|samples]; simpl; by intros [= <-].
Qed.

End OnlineAddStatic.

Lemma add_static_aug_dataset_drops_the_dataset :
  OnlinePreprocessor._add_static_aug_dataset
    Scenario.concat_loaders Scenario.list_of
    [OnlinePreprocessor.AsLoader [Scenario.sample 10 "N"]]
    (OnlinePreprocessor.AsLoader [Scenario.sample 0 "C"])
  = Ok (OnlinePreprocessor.AsLoader [Scenario.sample 10 "N"])
  ∧ OnlinePreprocessor.AsLoader [Scenario.sample 10 "N"]
    = OnlinePreprocessor.AsLoader [Scenario.sample 10 "N"].
Proof.
  split; [reflexivity|].
  apply (add_static_aug_dataset_returns_the_last_augmentation
           Scenario.concat_loaders Scenario.list_of []
           (OnlinePreprocessor.AsLoader [Scenario.sample 10 "N"])
           (OnlinePreprocessor.AsLoader [Scenario.sample 0 "C"])
           (OnlinePreprocessor.AsLoader [Scenario.sample 10 "N"])).
  reflexivity.
Defined.

(** ** File names and [overwrite] in [FilePreprocessor] *)

Section FileNames.
Import FilePreprocessor.
Variables _featurizers _transformers : list stage.
Variable str : DataPoint -> string.
Variable locate : Path -> located.
Variable folder_name : string.
Variables feature_to_save input_to_use_has_filename : list string.
Variable overwrite : bool.

#[local] Abbreviation has_fields fields sample :=
  (Forall (fun field => is_Some (dict_get field (inputs sample))) fields).

Lemma filenames_of_present fields sample :
  has_fields fields sample →
  ∃ filenames, filenames_of folder_name fields sample = Ok filenames.
Proof.
  induction 1 as [|field rest [value Hv] _ [filenames IH]]; simpl.
  - by eexists.
  - rewrite Hv, IH. by eexists.
Qed.

Lemma filenames_of_missing present field rest sample :
  has_fields present sample →
  dict_get field (inputs sample) = None →
  filenames_of folder_name (present ++ field :: rest) sample
  = Raise (KeyError field).
Proof.
  intros Hpresent Hmissing.
  induction Hpresent as [|f fs [value Hv] _ IH]; simpl.
  - by rewrite Hmissing.
  - by rewrite Hv, IH.
Qed.

(** A sample that has every file-name field never ends the loop: what its
    transform raises is caught. *)
Lemma load_sample_returns total r n sample :
  has_fields input_to_use_has_filename sample →
  ∃ r', load_sample _featurizers _transformers str locate folder_name
          feature_to_save input_to_use_has_filename overwrite total r n sample
        = Ok r'.
Proof.
  intros Hfields. unfold load_sample.
  destruct (filenames_of_present _ _ Hfields) as [filenames ->].
  destruct (negb overwrite && forallb (exists_ locate (files r)) filenames);
    [by eexists|].
  destruct (AbstractPreprocessor.preprocess _ _ sample) as [outputs [e|]].
  - by eexists.
  - destruct (dump_all locate outputs (zip feature_to_save filenames) (files r)).
    by eexists.
Qed.

Lemma enumerate_from_returns total loader : ∀ n r,
  Forall (fun sample => has_fields input_to_use_has_filename sample) loader →
  ∃ r', enumerate_from _featurizers _transformers str locate folder_name
          feature_to_save input_to_use_has_filename overwrite total n loader r
        = Ok r'.
Proof.
  induction loader as [|sample rest IH]; intros n r Hall; simpl.
  - by eexists.
  - apply Forall_cons in Hall as [Hs Hrest].
    destruct (load_sample_returns total r n sample Hs) as [r' ->].
    by apply IH.
Qed.

Lemma enumerate_from_app total l1 l2 : ∀ n r,
  enumerate_from _featurizers _transformers str locate folder_name
    feature_to_save input_to_use_has_filename overwrite total n (l1 ++ l2) r
  = match enumerate_from _featurizers _transformers str locate folder_name
            feature_to_save input_to_use_has_filename overwrite total n l1 r with
    | Raise e => Raise e
    | Ok r' =>
        enumerate_from _featurizers _transformers str locate folder_name
          feature_to_save input_to_use_has_filename overwrite total
          (n + Z.of_nat (length l1)) l2 r'
    end.
Proof.
  induction l1 as [|sample rest IH]; intros n r; simpl.
  - by rewrite Z.add_0_r.
  - destruct (load_sample _ _ _ _ _ _ _ _ total r n sample) as [r'|e]; [|done].
    rewrite IH. replace (n + 1 + Z.of_nat (length rest))
      with (n + Z.pos (Pos.of_succ_nat (length rest))) by lia.
    reflexivity.
Qed.

(** A sample that lacks one of the input fields used as file names ends
    the whole request with [KeyError] for the first such field, whether
    [overwrite] is on or off and whatever is on disk: the field is read
    outside the [try], before the files are looked for.  The samples after
    it are not processed. *)
Theorem load_dataset_missing_file_name_field
    (before after : list DataPoint) (sample : DataPoint)
    (present rest : list string) (field : string) (r : run) :
  Forall (fun sample => has_fields input_to_use_has_filename sample) before →
  input_to_use_has_filename = present ++ field :: rest →
  has_fields present sample →
  dict_get field (inputs sample) = None →
  _load_dataset _featurizers _transformers str locate folder_name
    feature_to_save input_to_use_has_filename overwrite
    (before ++ sample :: after) r
  = Raise (KeyError field).
Proof.
  intros Hbefore Hfields Hpresent Hmissing.
  unfold _load_dataset. rewrite enumerate_from_app.
  destruct (enumerate_from_returns
              (Z.of_nat (length (before ++ sample :: after))) before 0 r Hbefore)
    as [r' ->].
  simpl. unfold load_sample.
  rewrite Hfields at 1.
  by rewrite (filenames_of_missing present field rest sample Hpresent Hmissing).
Qed.

End FileNames.

Section Overwrite.
Import FilePreprocessor.
Variables _featurizers _transformers : list stage.
Variable str : DataPoint -> string.
Variable locate : Path -> located.
Variable folder_name : string.
Variables feature_to_save input_to_use_has_filename : list string.

#[local] Abbreviation has_fields fields sample :=
  (Forall (fun field => is_Some (dict_get field (inputs sample))) fields).

Lemma load_sample_overwrite total r n sample :
  has_fields input_to_use_has_filename sample →
  ∃ r', load_sample _featurizers _transformers str locate folder_name
          feature_to_save input_to_use_has_filename true total r n sample
        = Ok r'
        ∧ preprocessed r' = preprocessed r ++ [sample]
        ∧ completed r' = Some (n + 1, total).
Proof.
  intros Hfields. unfold load_sample.
  destruct (filenames_of_present folder_name _ _ Hfields) as [filenames ->].
  cbn [negb andb].
  destruct (AbstractPreprocessor.preprocess _ _ sample) as [outputs [e|]].
  - by eexists.
  - destruct (dump_all locate outputs (zip feature_to_save filenames) (files r)).
    by eexists.
Qed.

Lemma enumerate_from_overwrite total loader : ∀ n r,
  Forall (fun sample => has_fields input_to_use_has_filename sample) loader →
  ∃ r', enumerate_from _featurizers _transformers str locate folder_name
          feature_to_save input_to_use_has_filename true total n loader r
        = Ok r'
        ∧ preprocessed r' = preprocessed r ++ loader
        ∧ completed r'
          = match loader with
            | [] => completed r
            | _ :: _ => Some (n + Z.of_nat (length loader), total)
            end.
Proof.
  induction loader as [|sample rest IH]; intros n r Hall.
  - exists r. by rewrite app_nil_r.
  - apply Forall_cons in Hall as [Hs Hrest]. cbn [enumerate_from].
    destruct (load_sample_overwrite total r n sample Hs) as (r1 & -> & Hp & Hc).
    destruct (IH (n + 1) r1 Hrest) as (r' & -> & Hp' & Hc').
    exists r'. split; [done|]. split.
    + by rewrite Hp', Hp, <- app_assoc.
    + rewrite Hc'. destruct rest; [by rewrite Hc|].
      do 2 f_equal. simpl length. lia.
Qed.

(** With [overwrite] on nothing is skipped: every sample of the loader is
    handed to [preprocess], in the order of the loader and whatever files
    exist, and the progress ends at [len(loader)] out of [len(loader)];
    the samples having the fields used as file names, the request
    returns. *)
Theorem load_dataset_overwrite_runs_every_sample
    (loader : list DataPoint) (r : run) :
  Forall (fun sample => has_fields input_to_use_has_filename sample) loader →
  ∃ r', _load_dataset _featurizers _transformers str locate folder_name
          feature_to_save input_to_use_has_filename true loader r
        = Ok r'
        ∧ preprocessed r' = preprocessed r ++ loader
        ∧ completed r'
          = match loader with
            | [] => completed r
            | _ :: _ =>
                Some (Z.of_nat (length loader), Z.of_nat (length loader))
            end.
Proof.
  intros Hall. unfold _load_dataset.
  destruct (enumerate_from_overwrite (Z.of_nat (length loader)) loader 0 r Hall)
    as (r' & -> & Hp & Hc).
  exists r'. repeat split; [done|]. rewrite Hc. by destruct loader.
Qed.

End Overwrite.

Lemma load_dataset_sample_without_name :
  FilePreprocessor._load_dataset [Scenario.draws] [] Scenario.show
    Scenario.locate "features" ["graph"] ["smiles"; "name"] true
    [Scenario.sample 0 "C"; Scenario.sample 1 "N"] Scenario.no_files
  = Raise (KeyError "name").
Proof.
  apply (load_dataset_missing_file_name_field
           [Scenario.draws] [] Scenario.show Scenario.locate "features" ["graph"]
           ["smiles"; "name"] true
           [] [Scenario.sample 1 "N"] (Scenario.sample 0 "C")
           ["smiles"] [] "name" Scenario.no_files).
  - constructor.
  - reflexivity.
  - repeat constructor. by eexists.
  - reflexivity.
Defined.

Lemma load_dataset_overwrite_two_samples :
  ∃ r', FilePreprocessor._load_dataset [Scenario.draws] [] Scenario.show
          Scenario.locate "features" ["graph"] ["smiles"] true
          [Scenario.sample 0 "C"; Scenario.sample 1 "N"] Scenario.no_files
        = Ok r'
        ∧ FilePreprocessor.preprocessed r'
          = [Scenario.sample 0 "C"; Scenario.sample 1 "N"]
        ∧ FilePreprocessor.completed r' = Some (2, 2).
Proof.
  apply (load_dataset_overwrite_runs_every_sample
           [Scenario.draws] [] Scenario.show Scenario.locate "features" ["graph"] ["smiles"]
           [Scenario.sample 0 "C"; Scenario.sample 1 "N"] Scenario.no_files).
  repeat constructor; by eexists.
Defined.

(** ** Fewer features to save than file names *)

Section FewerFeatures.
Import FilePreprocessor.
Variables _featurizers _transformers : list stage.
Variable str : DataPoint -> string.
Variable locate : Path -> located.
Variable folder_name : string.
Variables feature_to_save input_to_use_has_filename : list string.

(** The loop over the pairs writes to the files of the pairs only. *)
Lemma dump_all_only outputs pairs name : ∀ fs,
  Forall (fun pair => locate pair.2 ≠ File name) pairs →
  (dump_all locate outputs pairs fs).1 !! name = fs !! name.
Proof.
  induction pairs as [|[output_name filename] rest IH]; intros fs Hf;
    simpl; [done|].
  apply Forall_cons in Hf as [Hhere Hrest]. simpl in Hhere.
  destruct (locate filename) as [file|]; [|done].
  assert (file ≠ name) by congruence.
  destruct (dict_get output_name (inputs outputs)) as [value|]; simpl.
  - rewrite IH by done. by rewrite !lookup_insert_ne.
  - by rewrite lookup_insert_ne.
Qed.

Lemma zip_names {A B} (l1 : list A) (l2 : list B) pair :
  pair ∈ zip l1 l2 → ∃ j, (j < length l1)%nat ∧ l2 !! j = Some pair.2.
Proof.
  revert l2. induction l1 as [|x l1 IH]; intros [|y l2]; simpl;
    try (by intros ?%elem_of_nil).
  intros [->|Hin]%elem_of_cons.
  - exists O. split; [lia | done].
  - destruct (IH l2 Hin) as (j & Hj & Hl). exists (S j). split; [lia | done].
Qed.

Lemma load_sample_incomplete total r n sample filenames i missing :
  filenames_of folder_name input_to_use_has_filename sample = Ok filenames →
  filenames !! i = Some missing →
  (length feature_to_save ≤ i)%nat →
  (∀ j written, (j < length feature_to_save)%nat →
                filenames !! j = Some written →
                locate written ≠ locate missing) →
  exists_ locate (files r) missing = false →
  ∃ r', load_sample _featurizers _transformers str locate folder_name
          feature_to_save input_to_use_has_filename false total r n sample
        = Ok r'
        ∧ preprocessed r' = preprocessed r ++ [sample]
        ∧ exists_ locate (files r') missing = false.
Proof.
  intros Hnames Hi Hlen Hother Hmissing. unfold load_sample. rewrite Hnames.
  assert (Hall : forallb (exists_ locate (files r)) filenames = false).
  { apply not_true_is_false. intros Hall.
    rewrite forallb_forall in Hall.
    assert (Hin : In missing filenames)
      by (apply list_elem_of_In; by eapply list_elem_of_lookup_2).
    specialize (Hall _ Hin). congruence. }
  rewrite Hall. cbn [negb andb].
  destruct (AbstractPreprocessor.preprocess _ _ sample) as [outputs [e|]].
  - eexists. split; [reflexivity|]. by split.
  - unfold exists_ in *.
    destruct (locate missing) as [name|] eqn:Hname.
    2:{ destruct (dump_all locate outputs (zip feature_to_save filenames) (files r)).
        eexists. split; [reflexivity|]. by split. }
    pose proof (dump_all_only outputs (zip feature_to_save filenames) name
                  (files r)) as Honly.
    destruct (dump_all locate outputs (zip feature_to_save filenames) (files r))
      as [files' raised].
    eexists. split; [reflexivity|]. split; [done|].
    simpl in *. rewrite Honly; [done|].
    apply Forall_forall. intros pair Hin.
    apply zip_names in Hin as (j & Hj & Hl).
    by apply (Hother j).
Qed.

(** With fewer features to save than fields used as file names, the file
    of a field beyond the features is never written: a sample whose file
    for such a field is not there (and is none of the files that the
    features are saved to) is handed to [preprocess] on every run,
    [overwrite] being off, and the file is still missing afterwards. *)
Theorem load_dataset_fewer_features_than_file_names
    (sample : DataPoint) (r : run) filenames i missing :
  filenames_of folder_name input_to_use_has_filename sample = Ok filenames →
  filenames !! i = Some missing →
  (length feature_to_save ≤ i)%nat →
  (∀ j written, (j < length feature_to_save)%nat →
                filenames !! j = Some written →
                locate written ≠ locate missing) →
  exists_ locate (files r) missing = false →
  ∃ r1 r2,
    _load_dataset _featurizers _transformers str locate folder_name
      feature_to_save input_to_use_has_filename false [sample] r = Ok r1
    ∧ _load_dataset _featurizers _transformers str locate folder_name
        feature_to_save input_to_use_has_filename false [sample] r1 = Ok r2
    ∧ preprocessed r2 = preprocessed r ++ [sample; sample]
    ∧ exists_ locate (files r2) missing = false.
Proof.
  intros Hnames Hi Hlen Hother Hmissing. unfold _load_dataset.
  cbn [enumerate_from].
  destruct (load_sample_incomplete (Z.of_nat (length [sample])) r 0 sample
              filenames i missing Hnames Hi Hlen Hother Hmissing)
    as (r1 & Hr1 & Hp1 & Hm1).
  destruct (load_sample_incomplete (Z.of_nat (length [sample])) r1 0 sample
              filenames i missing Hnames Hi Hlen Hother Hm1)
    as (r2 & Hr2 & Hp2 & Hm2).
  exists r1, r2. rewrite Hr1, Hr2.
  repeat split; try done.
  by rewrite Hp2, Hp1, <- app_assoc.
Qed.

End FewerFeatures.

(** One feature saved, two fields used as file names. *)
Lemma load_dataset_one_feature_two_names :
  let sample :=
    {| id_ := 0; inputs := [("smiles", "C"); ("name", "methane")] |} in
  ∃ r1 r2,
    FilePreprocessor._load_dataset [Scenario.draws] [] Scenario.show
      Scenario.locate "features" ["graph"] ["smiles"; "name"] false [sample]
      Scenario.no_files
    = Ok r1
    ∧ FilePreprocessor._load_dataset [Scenario.draws] [] Scenario.show
        Scenario.locate "features" ["graph"] ["smiles"; "name"] false [sample]
        r1
      = Ok r2
    ∧ FilePreprocessor.preprocessed r2 = [] ++ [sample; sample]
    ∧ FilePreprocessor.exists_ Scenario.locate (FilePreprocessor.files r2)
        ["features"; "name"; "methane.pkl"] = false.
Proof.
  apply (load_dataset_fewer_features_than_file_names
           [Scenario.draws] [] Scenario.show Scenario.locate "features"
           ["graph"] ["smiles"; "name"]
           {| id_ := 0; inputs := [("smiles", "C"); ("name", "methane")] |}
           Scenario.no_files
           [["features"; "smiles"; "C.pkl"]; ["features"; "name"; "methane.pkl"]]
           1%nat ["features"; "name"; "methane.pkl"]).
  - reflexivity.
  - reflexivity.
  - simpl. lia.
  - intros [|j] written Hj; [|simpl in Hj; lia].
    intros [= <-]. discriminate.
  - reflexivity.
Defined.

(** ** The sorted form of a parameter map *)

Section SortedForm.
Import CacheManager.

Lemma insort_Permutation (x : string * value) l : Permutation (insort x l) (x :: l).
Proof.
  induction l as [|y l IH]; simpl; [done|].
  destruct (String.leb (fst x) (fst y)); [done|].
  rewrite IH. apply perm_swap.
Qed.

Lemma sorted_items_Permutation (l : list (string * value)) : Permutation (sorted l) l.
Proof.
  induction l as [|x l IH]; simpl; [done|].
  by rewrite insort_Permutation, IH.
Qed.

Lemma ascending_cons x y l :
  Reference.ascending (x :: y :: l)
  = String.leb (fst x) (fst y) && Reference.ascending (y :: l).
Proof. reflexivity. Qed.

Lemma insort_ascending (x : string * value) l :
  Reference.ascending l = true → Reference.ascending (insort x l) = true.
Proof.
  induction l as [|y l IH]; [done|].
  intros Hl. cbn [insort].
  destruct (String.leb (fst x) (fst y)) eqn:Hxy.
  - by rewrite ascending_cons, Hxy.
  - assert (Hyx : String.leb (fst y) (fst x) = true)
      by (destruct (String.leb_total (fst x) (fst y)); congruence).
    destruct l as [|z l].
    + simpl. by rewrite Hyx.
    + rewrite ascending_cons in Hl. apply andb_true_iff in Hl as [Hyz Hl].
      specialize (IH Hl). cbn [insort] in *.
      destruct (String.leb (fst x) (fst z)).
      * by rewrite ascending_cons, Hyx.
      * by rewrite ascending_cons, Hyz.
Qed.

Lemma sorted_ascending (l : list (string * value)) :
  Reference.ascending (sorted l) = true.
Proof.
  induction l as [|x l IH]; simpl; [done | by apply insort_ascending].
Qed.

(** Sorting a list that is in order leaves it as it is. *)
Lemma sorted_of_ascending (l : list (string * value)) :
  Reference.ascending l = true → sorted l = l.
Proof.
  induction l as [|x l IH]; [done|].
  intros Hl. simpl. destruct l as [|y l]; [done|].
  rewrite ascending_cons in Hl. apply andb_true_iff in Hl as [Hxy Hl].
  rewrite (IH Hl). simpl. by rewrite Hxy.
Qed.

(** Sorting goes by the keys alone. *)
Lemma insort_map (g : string * value → string * value) x l :
  (∀ y, fst (g y) = fst y) →
  map g (insort x l) = insort (g x) (map g l).
Proof.
  intros Hg. induction l as [|y l IH]; simpl; [done|].
  rewrite !Hg. destruct (String.leb (fst x) (fst y)); simpl; [done|].
  by rewrite IH.
Qed.

Lemma sorted_map (g : string * value → string * value) l :
  (∀ y, fst (g y) = fst y) → map g (sorted l) = sorted (map g l).
Proof.
  intros Hg. induction l as [|x l IH]; simpl; [done|].
  by rewrite insort_map, IH.
Qed.

Lemma value_induction (P : value → Prop) :
  P None_ → (∀ b, P (Bool b)) → (∀ z, P (Int z)) → (∀ s, P (Str s)) →
  (∀ items, P (List_ items)) →
  (∀ items, Forall (fun kv => P (snd kv)) items → P (Dict items)) →
  ∀ v, P v.
Proof.
  intros HN HB HI HS HL HD. fix IH 1.
  intros [|b|z|s|items|items];
    [exact HN | apply HB | apply HI | apply HS | apply HL |].
  apply HD. induction items as [|[k v] rest IHrest]; constructor;
    [apply IH | exact IHrest].
Qed.

Lemma sort_value_idempotent : ∀ v, _sort_value (_sort_value v) = _sort_value v.
Proof.
  apply value_induction; try done.
  intros items IH. cbn [_sort_value]. f_equal.
  rewrite sorted_map by done.
  rewrite (sorted_of_ascending (sorted _)) by apply sorted_ascending.
  f_equal. rewrite map_map. apply map_ext_Forall.
  eapply Forall_impl; [exact IH|]. intros [k v] Hv. simpl in *. by rewrite Hv.
Qed.

(** [_sort] gives a canonical form: the entries are those of the map, no
    entry lost or added, every value in its sorted form, the keys in
    ascending order, and sorting what is sorted changes nothing. *)
Theorem sort_is_a_canonical_form (dictionary : list (string * value)) :
  Permutation (_sort dictionary)
    (map (fun kv => (fst kv, _sort_value (snd kv))) dictionary)
  ∧ Reference.ascending (_sort dictionary) = true
  ∧ _sort (_sort dictionary) = _sort dictionary.
Proof.
  split; [|split].
  - apply sorted_items_Permutation.
  - apply sorted_ascending.
  - pose proof (sort_value_idempotent (Dict dictionary)) as H.
    cbn [_sort_value] in H. by injection H.
Qed.

End SortedForm.

(** ** The key as a file name *)

Section KeyFormat.
Import CacheManager.

Lemma byte_range (x : Z) : 0 ≤ Z.land x 0xff < 256.
Proof.
  change 0xff with (Z.ones 8). rewrite Z.land_ones by lia.
  apply Z.mod_pos_bound. lia.
Qed.

Lemma hex_digits (byte : Z) :
  0 ≤ byte < 256 →
  ∃ c1 c2, Md5.hex byte = String c1 (String c2 EmptyString)
           ∧ c1 ∈ list_ascii_of_string "0123456789abcdef"
           ∧ c2 ∈ list_ascii_of_string "0123456789abcdef".
Proof.
  intros Hb.
  assert (Hall : forallb (fun n =>
            match Md5.hex (Z.of_nat n) with
            | String c1 (String c2 EmptyString) =>
                bool_decide (c1 ∈ list_ascii_of_string "0123456789abcdef")
                && bool_decide (c2 ∈ list_ascii_of_string "0123456789abcdef")
            | _ => false
            end) (seq 0 256) = true) by (vm_compute; reflexivity).
  rewrite forallb_forall in Hall.
  specialize (Hall (Z.to_nat byte)). rewrite Z2Nat.id in Hall by lia.
  destruct (Md5.hex byte) as [|c1 [|c2 [|]]];
    try (discriminate Hall; apply in_seq; lia).
  exists c1, c2. split; [done|].
  assert (Hin : In (Z.to_nat byte) (seq 0 256)) by (apply in_seq; lia).
  apply Hall, andb_true_iff in Hin as [H1 H2].
  by apply bool_decide_eq_true in H1, H2.
Qed.

Lemma concat_hex (bytes : list Z) :
  Forall (fun byte => 0 ≤ byte < 256) bytes →
  String.length (String.concat "" (map Md5.hex bytes)) = (2 * length bytes)%nat
  ∧ Forall (fun c => c ∈ list_ascii_of_string "0123456789abcdef")
      (list_ascii_of_string (String.concat "" (map Md5.hex bytes))).
Proof.
  induction 1 as [|byte rest Hb Hrest [IHl IHc]]; [by split|].
  destruct (hex_digits byte Hb) as (c1 & c2 & Hhex & H1 & H2).
  cbn [map String.concat]. rewrite Hhex.
  destruct (map Md5.hex rest) as [|h hs] eqn:Hmap.
  - destruct rest; [|done]. split; [done|].
    simpl. constructor; [done|]. constructor; [done|]. constructor.
  - set (tail := String.concat "" (h :: hs)) in *.
    change (String c1 (String c2 "") +:+ "" +:+ tail)
      with (String c1 (String c2 tail)).
    cbn [String.length list_ascii_of_string length].
    split; [rewrite IHl; lia|].
    constructor; [done|]. constructor; [done|]. exact IHc.
Qed.

Lemma le_bytes_range (n : nat) (x : Z) :
  Forall (fun byte => 0 ≤ byte < 256) (Md5.le_bytes n x)
  ∧ length (Md5.le_bytes n x) = n.
Proof.
  unfold Md5.le_bytes. split.
  - apply Forall_forall. intros b Hb. apply list_elem_of_fmap in Hb as (i & -> & _).
    apply byte_range.
  - by rewrite length_map, length_seq.
Qed.

Lemma hexdigest_format (message : list Z) :
  String.length (Md5.hexdigest message) = 32%nat
  ∧ Forall (fun c => c ∈ list_ascii_of_string "0123456789abcdef")
      (list_ascii_of_string (Md5.hexdigest message)).
Proof.
  unfold Md5.hexdigest.
  destruct (Md5.blocks _ _ _) as [[[a0 b0] c0] d0].
  destruct (concat_hex (Md5.le_bytes 4 a0 ++ Md5.le_bytes 4 b0
                        ++ Md5.le_bytes 4 c0 ++ Md5.le_bytes 4 d0))
    as [Hl Hc].
  { rewrite !Forall_app. repeat split; apply le_bytes_range. }
  split; [|done]. rewrite Hl, !length_app.
  by rewrite !(proj2 (le_bytes_range 4 _)).
Qed.

(** Whatever the parameters, the key is made of 32 characters among
    [0-9a-f]: it holds no [/], and the path of its entry is a file name
    right under the cache location. *)
Theorem key_is_a_file_name (kwargs : list (string * value)) :
  String.length (key kwargs) = 32%nat
  ∧ Forall (fun c => c ∈ list_ascii_of_string "0123456789abcdef")
      (list_ascii_of_string (key kwargs)).
Proof. apply hexdigest_format. Qed.

End KeyFormat.

(** ** What the constructor receives *)

Section FactoryFacts.
Import SuperFactory.
Variable pascalize : string → string.
Variable modules : string → option (list (string * cls)).
Variable types : nat → typ.
Variable otherwise : typ → dict → option dict → result pyval.

(** A value that the loop of [create] leaves as it is for the class: it is
    no dict, or its parameter has no annotation, or the annotation is a
    [Dict]. *)
#[local] Abbreviation passes c kv :=
  (match snd kv with
   | PDict _ =>
       match dict_get (fst kv) (__annotations__ (__init__ c)) with
       | None => True
       | Some t => types t = T_dict
       end
   | _ => True
   end).

#[local] Abbreviation known c kv :=
  (mem (fst kv) (co_varnames (__init__ c)) = true).

#[local] Abbreviation unknown c items :=
  (List.find (fun kv => negb (mem (fst kv) (co_varnames (__init__ c)))) items).

Lemma inject_passes (create : typ → addr → M pyval) c a items : ∀ h,
  Forall (fun kv => passes c kv) items →
  inject types create c a items h
  = (h, match unknown c items with
        | Some kv => Raise (ReflectionError (UnknownOption (__name__ c) (fst kv)))
        | None => Ok tt
        end).
Proof.
  induction items as [|[option_name option_value] rest IH]; intros h Hall;
    simpl; [done|].
  apply Forall_cons in Hall as [Hv Hall]. simpl in Hv.
  destruct (negb (mem option_name (co_varnames (__init__ c)))); [done|].
  destruct (dict_get option_name (__annotations__ (__init__ c))) as [t|];
    [|by apply IH].
  destruct option_value; try by apply IH.
  rewrite Hv. by apply IH.
Qed.

Lemma inject_app (create : typ → addr → M pyval) c a items1 items2 : ∀ h,
  inject types create c a (items1 ++ items2) h
  = match inject types create c a items1 h with
    | (h', Ok _) => inject types create c a items2 h'
    | (h', Raise e) => (h', Raise e)
    end.
Proof.
  induction items1 as [|[option_name option_value] rest IH]; intros h;
    cbn [app inject]; [done|].
  destruct (negb (mem option_name (co_varnames (__init__ c)))); [done|].
  destruct (dict_get option_name (__annotations__ (__init__ c))) as [t|];
    [|by apply IH].
  destruct option_value; try by apply IH.
  destruct (types t); try (by apply IH);
    (cbv [bind]; destruct (create _ a0 h) as [h1 [v|e]]; [|done];
     destruct (setitem a option_name v h1) as [h2 [[]|e]]; [apply IH | done]).
Qed.

Lemma unknown_none c (items : dict) :
  Forall (fun kv => known c kv) items → unknown c items = None.
Proof.
  induction 1 as [|kv rest Hkv _ IH]; simpl; [done|]. by rewrite Hkv.
Qed.

(** Without ["type"] entry the class given is the one that is built. *)
Lemma create_class depth c loaded_parameters h dynamic_parameters d :
  h !! dynamic_parameters = Some d →
  mem "type" (keys d) = false →
  create pascalize modules types otherwise (S depth) (T_class c)
    dynamic_parameters loaded_parameters h
  = build types
      (fun attribute nested =>
         create pascalize modules types otherwise depth attribute nested None)
      c (length h) loaded_parameters (h ++ [d]).
Proof.
  intros Hd Htype. cbn [create]. cbv [bind copy read]. rewrite Hd.
  cbn beta iota. rewrite Hd. cbn beta iota.
  unfold resolve. cbv [bind read ret]. rewrite list_lookup_middle by done.
  rewrite Htype. reflexivity.
Qed.

Lemma build_passes (create : typ → addr → M pyval) c a loaded_parameters h d :
  h !! a = Some d →
  Forall (fun kv => passes c kv) d →
  build types create c a loaded_parameters h
  = (h, match unknown c d with
        | Some kv => Raise (ReflectionError (UnknownOption (__name__ c) (fst kv)))
        | None =>
            call c match loaded_parameters with
                   | Some loaded => dict_merge d loaded
                   | None => d
                   end
        end).
Proof.
  intros Hd Hall. unfold build. cbv [bind read ret lift]. rewrite Hd.
  destruct d as [|item rest].
  - simpl. by rewrite Hd.
  - change (0 <? length (item :: rest))%nat with true. cbn beta iota.
    rewrite inject_passes by done.
    destruct (unknown c (item :: rest)); [done|].
    by rewrite Hd.
Qed.

(** A dict given for a parameter that has no annotation, or whose
    annotation is a [Dict], is not built into an object: with names that
    are all in [co_varnames], the constructor receives the parameters as
    they are in the map, the references to the dicts of the caller
    included (the copy that [create] works on is a shallow one), with the
    loaded parameters merged in. *)
Theorem create_hands_dicts_over
    depth c loaded_parameters h dynamic_parameters d :
  h !! dynamic_parameters = Some d →
  mem "type" (keys d) = false →
  Forall (fun kv => passes c kv) d →
  Forall (fun kv => known c kv) d →
  create pascalize modules types otherwise (S depth) (T_class c)
    dynamic_parameters loaded_parameters h
  = (h ++ [d],
     call c match loaded_parameters with
            | Some loaded => dict_merge d loaded
            | None => d
            end).
Proof.
  intros Hd Htype Hpass Hknown.
  rewrite (create_class depth c loaded_parameters h dynamic_parameters d Hd Htype).
  rewrite (build_passes _ c (length h) loaded_parameters (h ++ [d]) d)
    by (by rewrite ?list_lookup_middle).
  by rewrite unknown_none.
Qed.

(** *** The loaded parameters *)

Lemma dict_get_set {V} k (v : V) d k' :
  dict_get k' (dict_set k v d)
  = if String.eqb k' k then Some v else dict_get k' d.
Proof.
  induction d as [|[k0 v0] d IH]; simpl.
  - by destruct (String.eqb k' k).
  - destruct (String.eqb_spec k k0) as [->|Hne]; simpl.
    + by destruct (String.eqb k' k0).
    + rewrite IH. destruct (String.eqb_spec k' k0) as [->|]; [|done].
      destruct (String.eqb_spec k0 k); [congruence | done].
Qed.

Lemma dict_get_merge {V} (d2 : list (string * V)) : ∀ d1 k,
  NoDup (keys d2) →
  dict_get k (dict_merge d1 d2)
  = match dict_get k d2 with
    | Some v => Some v
    | None => dict_get k d1
    end.
Proof.
  unfold dict_merge.
  induction d2 as [|[k2 v2] d2 IH]; intros d1 k Hnd; simpl; [done|].
  simpl in Hnd. apply NoDup_cons in Hnd as [Hk2 Hnd].
  rewrite IH by done. rewrite dict_get_set.
  destruct (String.eqb_spec k k2) as [->|Hne]; [|done].
  destruct (dict_get k2 d2) as [v|] eqn:Hget; [|done].
  destruct Hk2. apply list_elem_of_In.
  apply dict_get_In in Hget. unfold keys.
  apply in_map_iff. by exists (k2, v).
Qed.

Lemma dict_set_keys_prefix {V} k (v : V) d :
  ∃ more, keys (dict_set k v d) = keys d ++ more.
Proof.
  induction d as [|[k0 v0] d [more IH]]; simpl.
  - by exists [k].
  - destruct (String.eqb_spec k k0) as [->|Hne]; simpl.
    + exists []. by rewrite app_nil_r.
    + exists more. by rewrite IH.
Qed.

Lemma dict_merge_keys_prefix {V} (d2 : list (string * V)) : ∀ d1,
  ∃ more, keys (dict_merge d1 d2) = keys d1 ++ more.
Proof.
  unfold dict_merge.
  induction d2 as [|[k2 v2] d2 IH]; intros d1; simpl.
  - exists []. by rewrite app_nil_r.
  - destruct (IH (dict_set k2 v2 d1)) as [more ->].
    destruct (dict_set_keys_prefix k2 v2 d1) as [more' ->].
    exists (more' ++ more). by rewrite app_assoc.
Qed.

(** The loaded parameters are appended to the dynamic ones: the
    constructor is called with a map in which a loaded parameter replaces
    the dynamic parameter of its name and every other dynamic parameter
    stays, the dynamic names first in their order.  The names of the
    loaded parameters are not checked against [co_varnames], and no loaded
    dict is built into an object. *)
Theorem create_appends_the_loaded_parameters
    depth c loaded h dynamic_parameters d :
  h !! dynamic_parameters = Some d →
  mem "type" (keys d) = false →
  Forall (fun kv => passes c kv) d →
  Forall (fun kv => known c kv) d →
  NoDup (keys loaded) →
  ∃ options,
    create pascalize modules types otherwise (S depth) (T_class c)
      dynamic_parameters (Some loaded) h
    = (h ++ [d], call c options)
    ∧ (∀ k, dict_get k options
            = match dict_get k loaded with
              | Some v => Some v
              | None => dict_get k d
              end)
    ∧ (∃ more, keys options = keys d ++ more).
Proof.
  intros Hd Htype Hpass Hknown Hnd. exists (dict_merge d loaded).
  rewrite (create_class depth c (Some loaded) h dynamic_parameters d Hd Htype).
  rewrite (build_passes _ c (length h) (Some loaded) (h ++ [d]) d)
    by (by rewrite ?list_lookup_middle).
  rewrite unknown_none by done. split; [done|]. split.
  - intros k. by apply dict_get_merge.
  - apply dict_merge_keys_prefix.
Qed.

(** *** Nested objects *)

Lemma inject_nested (create : typ → addr → M pyval) c a name nested t after h :
  mem name (co_varnames (__init__ c)) = true →
  dict_get name (__annotations__ (__init__ c)) = Some t →
  types t ≠ T_dict →
  inject types create c a ((name, PDict nested) :: after) h
  = match create (types t) nested h with
    | (h', Ok v) =>
        match setitem a name v h' with
        | (h'', Ok _) => inject types create c a after h''
        | (h'', Raise e) => (h'', Raise e)
        end
    | (h', Raise e) => (h', Raise e)
    end.
Proof.
  intros Hknown Hann Hdict. cbn [inject]. rewrite Hknown, Hann. cbn [negb].
  destruct (types t); try done; reflexivity.
Qed.

(** An exception raised while the object of a nested dict is built ends
    [create] with that exception: the class is not called, and the
    parameters that come after the nested one are not looked at. *)
Theorem create_nested_failure
    depth c loaded_parameters h dynamic_parameters
    before name nested t after h' e :
  h !! dynamic_parameters = Some (before ++ (name, PDict nested) :: after) →
  mem "type" (keys (before ++ (name, PDict nested) :: after)) = false →
  Forall (fun kv => passes c kv) before →
  Forall (fun kv => known c kv) before →
  mem name (co_varnames (__init__ c)) = true →
  dict_get name (__annotations__ (__init__ c)) = Some t →
  types t ≠ T_dict →
  create pascalize modules types otherwise depth (types t) nested None
    (h ++ [before ++ (name, PDict nested) :: after])
  = (h', Raise e) →
  create pascalize modules types otherwise (S depth) (T_class c)
    dynamic_parameters loaded_parameters h
  = (h', Raise e).
Proof.
  intros Hd Htype Hpass Hknown Hname Hann Hdict Hnested.
  rewrite (create_class depth c loaded_parameters h dynamic_parameters _ Hd Htype).
  unfold build. cbv [bind read ret lift]. rewrite list_lookup_middle by done.
  replace (0 <? length (before ++ (name, PDict nested) :: after))%nat with true
    by (symmetry; apply Nat.ltb_lt; rewrite length_app; simpl; lia).
  cbn beta iota. rewrite inject_app, inject_passes by done.
  rewrite unknown_none by done.
  rewrite (inject_nested _ c (length h) name nested t after _ Hname Hann Hdict).
  by rewrite Hnested.
Qed.

(** A dict given for a parameter that is annotated with a type other than
    [Dict] is replaced by the object that [create] builds from it for that
    type: the constructor receives the object under the name of the
    parameter, at the place of the dict, and the map of the caller still
    holds the dict. *)
Theorem create_injects_the_nested_object
    depth c loaded_parameters h dynamic_parameters
    before name nested t after h' v :
  let d := before ++ (name, PDict nested) :: after in
  h !! dynamic_parameters = Some d →
  mem "type" (keys d) = false →
  Forall (fun kv => passes c kv) (before ++ after) →
  Forall (fun kv => known c kv) (before ++ after) →
  mem name (co_varnames (__init__ c)) = true →
  dict_get name (__annotations__ (__init__ c)) = Some t →
  types t ≠ T_dict →
  create pascalize modules types otherwise depth (types t) nested None (h ++ [d])
  = (h', Ok v) →
  let run :=
    create pascalize modules types otherwise (S depth) (T_class c)
      dynamic_parameters loaded_parameters h in
  run.2 = call c match loaded_parameters with
                 | Some loaded => dict_merge (dict_set name v d) loaded
                 | None => dict_set name v d
                 end
  ∧ run.1 = <[length h := dict_set name v d]> h'
  ∧ run.1 !! dynamic_parameters = Some d.
Proof.
  intros d Hd Htype Hpass Hknown Hname Hann Hdict Hnested run.
  apply Forall_app in Hpass as [Hpass1 Hpass2].
  apply Forall_app in Hknown as [Hknown1 Hknown2].
  assert (Hlt : (dynamic_parameters < length h)%nat) by (by eapply lookup_lt_Some).
  destruct (keeps_create pascalize modules types otherwise depth
              (length (h ++ [d])) (types t) nested None (h ++ [d]) ltac:(lia))
    as (Htake & Hlen & _).
  rewrite Hnested in Htake, Hlen. cbn [fst] in Htake, Hlen.
  rewrite (take_ge (h ++ [d])) in Htake by lia.
  assert (Hh' : ∀ b, (b < length (h ++ [d]))%nat → h' !! b = (h ++ [d]) !! b).
  { intros b Hb. rewrite <- Htake. by rewrite lookup_take_lt. }
  assert (Hcopy : h' !! length h = Some d).
  { rewrite Hh' by (rewrite length_app; simpl; lia).
    by rewrite list_lookup_middle. }
  assert (Hrun : run = (<[length h := dict_set name v d]> h',
                        call c match loaded_parameters with
                               | Some loaded => dict_merge (dict_set name v d) loaded
                               | None => dict_set name v d
                               end)).
  { subst run.
    rewrite (create_class depth c loaded_parameters h dynamic_parameters _ Hd Htype).
    unfold build. cbv [bind read ret lift]. rewrite list_lookup_middle by done.
    replace (0 <? length d)%nat with true
      by (symmetry; apply Nat.ltb_lt; unfold d; rewrite length_app; simpl; lia).
    cbn beta iota. unfold d at 1. rewrite inject_app, inject_passes by done.
    rewrite unknown_none by done.
    rewrite (inject_nested _ c (length h) name nested t after _ Hname Hann Hdict).
    fold d. rewrite Hnested.
    unfold setitem. cbv [bind read write]. rewrite Hcopy.
    rewrite inject_passes by done. rewrite unknown_none by done.
    rewrite list_lookup_insert_eq
      by (rewrite length_app in Hlen; simpl in Hlen; lia).
    reflexivity. }
  rewrite Hrun. cbn [fst snd]. split; [done|]. split; [done|].
  rewrite list_lookup_insert_ne by lia.
  rewrite Hh' by (rewrite length_app; lia).
  by rewrite lookup_app_l.
Qed.

(** With a ["type"] entry that names a class below the base type, that
    class is built on the copy of the parameters without the entry. *)
Lemma create_by_name depth parent loaded_parameters h dynamic_parameters d
    variant c :
  h !! dynamic_parameters = Some d →
  dict_get "type" d = Some (PStr variant) →
  Str.contains "." variant = false →
  dict_get
    (pascalize (variant +:+ "_" +:+ Str.replace "Abstract" "" (__name__ parent)))
    (find_descendants parent) = Some c →
  create pascalize modules types otherwise (S depth) (T_class parent)
    dynamic_parameters loaded_parameters h
  = build types
      (fun attribute nested =>
         create pascalize modules types otherwise depth attribute nested None)
      c (length h) loaded_parameters (h ++ [dict_remove "type" d]).
Proof.
  intros Hd Htype Hdot Hget. cbn [create]. cbv [bind copy read]. rewrite Hd.
  cbn beta iota. rewrite Hd. cbn beta iota.
  unfold resolve at 1. cbv [bind read pop write ret raise].
  rewrite list_lookup_middle by done.
  rewrite (dict_get_mem _ _ _ Htype). cbn beta iota.
  rewrite list_lookup_middle by done. rewrite Htype. cbn beta iota.
  replace (<[length h:=dict_remove "type" d]> (h ++ [d]))
    with (h ++ [dict_remove "type" d])
    by (rewrite insert_app_r_alt, Nat.sub_diag by done; done).
  rewrite Hdot. cbn beta iota. rewrite Hget. reflexivity.
Qed.

(** A dict that holds itself under a parameter annotated with the base
    type it is built for is never built: each call of [create] copies the
    dict, selects the class again and calls [create] on the dict once
    more, until the stack is exhausted, whatever its depth. *)
Theorem create_cyclic_parameters
    depth parent loaded_parameters h dynamic_parameters d variant c
    before name t after :
  h !! dynamic_parameters = Some d →
  dict_get "type" d = Some (PStr variant) →
  Str.contains "." variant = false →
  dict_get
    (pascalize (variant +:+ "_" +:+ Str.replace "Abstract" "" (__name__ parent)))
    (find_descendants parent) = Some c →
  dict_remove "type" d = before ++ (name, PDict dynamic_parameters) :: after →
  Forall (fun kv => passes c kv) before →
  Forall (fun kv => known c kv) before →
  mem name (co_varnames (__init__ c)) = true →
  dict_get name (__annotations__ (__init__ c)) = Some t →
  types t = T_class parent →
  (create pascalize modules types otherwise depth (T_class parent)
     dynamic_parameters loaded_parameters h).2
  = Raise RecursionError.
Proof.
  intros Hd Htype Hdot Hget Hrest Hpass Hknown Hname Hann Ht.
  revert h loaded_parameters Hd.
  induction depth as [|depth IH]; intros h loaded_parameters Hd; [done|].
  rewrite (create_by_name depth parent loaded_parameters h dynamic_parameters
             d variant c Hd Htype Hdot Hget).
  rewrite Hrest.
  unfold build. cbv [bind read ret lift]. rewrite list_lookup_middle by done.
  replace (0 <? length (before ++ (name, PDict dynamic_parameters) :: after))%nat
    with true
    by (symmetry; apply Nat.ltb_lt; rewrite length_app; simpl; lia).
  cbn beta iota. rewrite inject_app, inject_passes by done.
  rewrite unknown_none by done.
  rewrite (inject_nested _ c (length h) name dynamic_parameters t after _ Hname Hann)
    by (rewrite Ht; discriminate).
  rewrite Ht.
  specialize (IH (h ++ [before ++ (name, PDict dynamic_parameters) :: after]) None).
  rewrite lookup_app_l in IH by (by eapply lookup_lt_Some).
  specialize (IH Hd).
  destruct (create pascalize modules types otherwise depth (T_class parent)
              dynamic_parameters None _) as [h' [v|e]]; simpl in IH; [done|].
  by rewrite IH.
Qed.

(** *** A ["type"] that is a path *)

Lemma contains_dot_append (module_name rest : string) :
  Str.contains "." (module_name +:+ "." +:+ rest) = true.
Proof.
  induction module_name as [|a m IH].
  - simpl. by destruct rest.
  - change (String a m +:+ "." +:+ rest) with (String a (m +:+ "." +:+ rest)).
    cbn [Str.contains]. rewrite IH. apply orb_true_r.
Qed.

Lemma rsplit_dot_none (s : string) :
  Str.contains "." s = false → Str.rsplit_dot s = None.
Proof.
  induction s as [|a s IH]; [done|].
  cbn [Str.contains Str.rsplit_dot]. intros Hc.
  apply orb_false_iff in Hc as [Hp Hc]. rewrite (IH Hc).
  destruct (Ascii.eqb_spec a "."%char) as [->|]; [|done].
  simpl in Hp. by destruct s.
Qed.

(** [rsplit(".", 1)] splits at the last dot. *)
Lemma rsplit_dot_append (module_name class_name : string) :
  Str.contains "." class_name = false →
  Str.rsplit_dot (module_name +:+ "." +:+ class_name)
  = Some (module_name, class_name).
Proof.
  intros Hc. induction module_name as [|a m IH].
  - change ("" +:+ "." +:+ class_name) with (String "."%char class_name).
    cbn [Str.rsplit_dot]. by rewrite (rsplit_dot_none _ Hc).
  - change (String a m +:+ "." +:+ class_name)
      with (String a (m +:+ "." +:+ class_name)).
    cbn [Str.rsplit_dot]. by rewrite IH.
Qed.

(** With a ["type"] entry that is a path [module.Class], the module being
    given by an absolute name, the class is looked up in the module named
    by what comes before the last dot, under the name that comes after it,
    and the instantiator is not used, be it [None]: [create] goes on with
    that class on its copy of the parameters without the ["type"] entry.
    A module that is not found and a name that the module does not have
    are reported by the errors of the import and of the attribute access,
    not by the resolution error. *)
Theorem create_reflects_a_path
    depth instantiator loaded_parameters h dynamic_parameters d
    module_name class_name :
  h !! dynamic_parameters = Some d →
  dict_get "type" d = Some (PStr (module_name +:+ "." +:+ class_name)) →
  Str.contains "." class_name = false →
  module_name ≠ "" → String.prefix "." module_name = false →
  create pascalize modules types otherwise (S depth) instantiator
    dynamic_parameters loaded_parameters h
  = match modules module_name with
    | None =>
        (h ++ [dict_remove "type" d], Raise (ModuleNotFoundError module_name))
    | Some module =>
        match dict_get class_name module with
        | None =>
            (h ++ [dict_remove "type" d], Raise (AttributeError class_name))
        | Some c =>
            build types
              (fun attribute nested =>
                 create pascalize modules types otherwise depth
                   attribute nested None)
              c (length h) loaded_parameters (h ++ [dict_remove "type" d])
        end
    end.
Proof.
  intros Hd Htype Hclass _ _. cbn [create]. cbv [bind copy read]. rewrite Hd.
  cbn beta iota. rewrite Hd. cbn beta iota.
  unfold resolve at 1. cbv [bind read pop write ret raise lift].
  rewrite list_lookup_middle by done.
  rewrite (dict_get_mem _ _ _ Htype). cbn beta iota.
  rewrite list_lookup_middle by done. rewrite Htype. cbn beta iota.
  replace (<[length h:=dict_remove "type" d]> (h ++ [d]))
    with (h ++ [dict_remove "type" d])
    by (rewrite insert_app_r_alt, Nat.sub_diag by done; done).
  rewrite contains_dot_append. unfold reflect.
  rewrite (rsplit_dot_append _ _ Hclass).
  destruct (modules module_name) as [module|]; [|done].
  destruct (dict_get class_name module); done.
Qed.

End FactoryFacts.

(** ** The dict of the descendants *)

Section DescendantsByName.
Import SuperFactory Reference.

Lemma dict_set_NoDup {V} k (v : V) d :
  NoDup (keys d) → NoDup (keys (dict_set k v d)).
Proof.
  induction d as [|[k0 v0] d IH]; simpl; intros Hnd.
  - apply NoDup_singleton.
  - apply NoDup_cons in Hnd as [Hk0 Hnd].
    destruct (String.eqb_spec k k0) as [->|Hne]; simpl.
    + by apply NoDup_cons.
    + apply NoDup_cons. split; [|by apply IH].
      intros Hin. apply list_elem_of_In, dict_set_keys in Hin as [Heq|Hin];
        [congruence|]. by apply Hk0, list_elem_of_In.
Qed.

Lemma dict_merge_NoDup {V} (d2 : list (string * V)) : ∀ d1,
  NoDup (keys d1) → NoDup (keys (dict_merge d1 d2)).
Proof.
  unfold dict_merge.
  induction d2 as [|[k2 v2] d2 IH]; intros d1 Hnd; simpl; [done|].
  by apply IH, dict_set_NoDup.
Qed.

Lemma fold_visit_NoDup children : ∀ descendants,
  NoDup (keys descendants) → NoDup (keys (fold_left visit children descendants)).
Proof.
  induction children as [|child rest IH]; intros descendants Hnd; simpl; [done|].
  apply IH. unfold visit.
  destruct (0 <? length (__subclasses__ child))%nat.
  - by apply dict_merge_NoDup, dict_set_NoDup.
  - by apply dict_set_NoDup.
Qed.

(** [find_descendants] lists every name once, and where no two classes
    below the parent have the same name, every class below the parent is
    the entry of its name. *)
Theorem find_descendants_holds_every_class (parent : cls) :
  NoDup (keys (find_descendants parent))
  ∧ ((∀ c1 c2, descendant c1 parent → descendant c2 parent →
               __name__ c1 = __name__ c2 → c1 = c2) →
     ∀ c, descendant c parent →
          dict_get (__name__ c) (find_descendants parent) = Some c).
Proof.
  split.
  - destruct parent as [name init children]. rewrite find_descendants_fold.
    apply fold_visit_NoDup. constructor.
  - intros Hunique c Hdesc.
    destruct (dict_get (__name__ c) (find_descendants parent)) as [c'|] eqn:Hget.
    + apply dict_get_In, find_descendants_sound in Hget as [Hdesc' Hname].
      f_equal. by apply Hunique.
    + apply dict_get_None in Hget. destruct Hget.
      by apply find_descendants_complete.
Qed.

End DescendantsByName.

(** ** The factory on the data of the scenarios *)

(** [ConfiguredStep] receives the dict of its options as it is, the
    reference to the dict of the caller. *)
Lemma create_hands_the_options_over :
  SuperFactory.create Scenario.pascalize Scenario.no_modules
    Scenario.option_types Scenario.not_covered 1
    (SuperFactory.T_class Scenario.ConfiguredStep) O None
    [[("inner", SuperFactory.PInstance "LoadStep" []);
      ("options", SuperFactory.PDict 1)];
     [("rate", SuperFactory.PInt 3)]]
  = ([[("inner", SuperFactory.PInstance "LoadStep" []);
       ("options", SuperFactory.PDict 1)];
      [("rate", SuperFactory.PInt 3)];
      [("inner", SuperFactory.PInstance "LoadStep" []);
       ("options", SuperFactory.PDict 1)]],
     Ok (SuperFactory.PInstance "ConfiguredStep"
           [("inner", SuperFactory.PInstance "LoadStep" []);
            ("options", SuperFactory.PDict 1)])).
Proof.
  apply (create_hands_dicts_over Scenario.pascalize Scenario.no_modules
           Scenario.option_types Scenario.not_covered O
           Scenario.ConfiguredStep None
           [[("inner", SuperFactory.PInstance "LoadStep" []);
             ("options", SuperFactory.PDict 1)];
            [("rate", SuperFactory.PInt 3)]] O
           [("inner", SuperFactory.PInstance "LoadStep" []);
            ("options", SuperFactory.PDict 1)]).
  - reflexivity.
  - reflexivity.
  - repeat constructor.
  - repeat constructor.
Defined.

(** The loaded [inner] goes to the constructor beside the dynamic
    [options]. *)
Lemma create_appends_the_loaded_inner :
  ∃ options,
    SuperFactory.create Scenario.pascalize Scenario.no_modules
      Scenario.option_types Scenario.not_covered 1
      (SuperFactory.T_class Scenario.ConfiguredStep) O
      (Some [("inner", SuperFactory.PInstance "LoadStep" [])])
      [[("options", SuperFactory.PDict 1)]; []]
    = ([[("options", SuperFactory.PDict 1)]; [];
        [("options", SuperFactory.PDict 1)]],
       SuperFactory.call Scenario.ConfiguredStep options)
    ∧ (∀ k, dict_get k options
            = match dict_get k [("inner", SuperFactory.PInstance "LoadStep" [])] with
              | Some v => Some v
              | None => dict_get k [("options", SuperFactory.PDict 1)]
              end)
    ∧ (∃ more, SuperFactory.keys options = ["options"] ++ more).
Proof.
  apply (create_appends_the_loaded_parameters
           Scenario.pascalize Scenario.no_modules
           Scenario.option_types Scenario.not_covered O
           Scenario.ConfiguredStep
           [("inner", SuperFactory.PInstance "LoadStep" [])]
           [[("options", SuperFactory.PDict 1)]; []] O
           [("options", SuperFactory.PDict 1)]).
  - reflexivity.
  - reflexivity.
  - repeat constructor.
  - repeat constructor.
  - apply NoDup_singleton.
Defined.

(** An unknown variant for the inner step of [ChainStep]. *)
Lemma create_nested_unknown_variant :
  SuperFactory.create Scenario.pascalize Scenario.no_modules
    Scenario.step_types Scenario.not_covered 2
    (SuperFactory.T_class Scenario.ChainStep) O None
    [[("inner", SuperFactory.PDict 1)]; [("type", SuperFactory.PStr "qux")]]
  = ([[("inner", SuperFactory.PDict 1)]; [("type", SuperFactory.PStr "qux")];
      [("inner", SuperFactory.PDict 1)]; []],
     Raise (ReflectionError
              (DependencyNotFound "QuxStep" ["LoadStep"; "ChainStep"]))).
Proof.
  apply (create_nested_failure Scenario.pascalize Scenario.no_modules
           Scenario.step_types Scenario.not_covered 1
           Scenario.ChainStep None
           [[("inner", SuperFactory.PDict 1)];
            [("type", SuperFactory.PStr "qux")]] O
           [] "inner" 1%nat 1%nat []).
  - reflexivity.
  - reflexivity.
  - constructor.
  - constructor.
  - reflexivity.
  - reflexivity.
  - discriminate.
  - reflexivity.
Defined.

(** The inner step of [ChainStep], built from its dict. *)
Lemma create_injects_the_inner_step :
  let run :=
    SuperFactory.create Scenario.pascalize Scenario.no_modules
      Scenario.step_types Scenario.not_covered 2
      (SuperFactory.T_class Scenario.ChainStep) O None
      [[("inner", SuperFactory.PDict 1)]; [("type", SuperFactory.PStr "load")]] in
  run.2 = SuperFactory.call Scenario.ChainStep
            [("inner", SuperFactory.PInstance "LoadStep" [])]
  ∧ run.1 = [[("inner", SuperFactory.PDict 1)];
             [("type", SuperFactory.PStr "load")];
             [("inner", SuperFactory.PInstance "LoadStep" [])]; []]
  ∧ run.1 !! O = Some [("inner", SuperFactory.PDict 1)].
Proof.
  apply (create_injects_the_nested_object
           Scenario.pascalize Scenario.no_modules
           Scenario.step_types Scenario.not_covered 1
           Scenario.ChainStep None
           [[("inner", SuperFactory.PDict 1)];
            [("type", SuperFactory.PStr "load")]] O
           [] "inner" 1%nat 1%nat []
           [[("inner", SuperFactory.PDict 1)];
            [("type", SuperFactory.PStr "load")];
            [("inner", SuperFactory.PDict 1)]; []]
           (SuperFactory.PInstance "LoadStep" [])).
  - reflexivity.
  - reflexivity.
  - constructor.
  - constructor.
  - reflexivity.
  - reflexivity.
  - discriminate.
  - reflexivity.
Defined.

(** A path as ["type"], with no instantiator. *)
Lemma create_reflects_abstract_network :
  SuperFactory.create Scenario.pascalize Scenario.lib_modules
    Scenario.builtin_types Scenario.not_covered 1
    SuperFactory.T_none O None
    [[("type", SuperFactory.PStr "lib.model.architectures.AbstractNetwork")]]
  = ([[("type", SuperFactory.PStr "lib.model.architectures.AbstractNetwork")];
      []],
     Ok (SuperFactory.PInstance "AbstractNetwork" [])).
Proof.
  apply (create_reflects_a_path Scenario.pascalize Scenario.lib_modules
           Scenario.builtin_types Scenario.not_covered O
           SuperFactory.T_none None
           [[("type", SuperFactory.PStr "lib.model.architectures.AbstractNetwork")]]
           O
           [("type", SuperFactory.PStr "lib.model.architectures.AbstractNetwork")]
           "lib.model.architectures" "AbstractNetwork").
  - reflexivity.
  - reflexivity.
  - reflexivity.
  - discriminate.
  - reflexivity.
Defined.

(** [FooBar] is the entry of its name under [AbstractBar]. *)
Lemma find_descendants_holds_foo_bar :
  dict_get "FooBar" (SuperFactory.find_descendants Scenario.AbstractBar)
  = Some Scenario.FooBar.
Proof.
  assert (Hbelow : ∀ c, Reference.descendant c Scenario.AbstractBar →
                        c = Scenario.FooBar ∨ c = Scenario.BazBar).
  { intros c Hc. inversion Hc as [? ? Hin|? child ? Hin Hbelow]; subst.
    - simpl in Hin. intuition.
    - simpl in Hin. destruct Hin as [<-|[<-|[]]];
        inversion Hbelow as [? ? Hin'|? ? ? Hin' _]; destruct Hin'. }
  apply (proj2 (find_descendants_holds_every_class Scenario.AbstractBar)
           ltac:(intros c1 c2 H1 H2 Hname;
                 destruct (Hbelow c1 H1) as [->| ->],
                          (Hbelow c2 H2) as [->| ->];
                 (reflexivity || discriminate Hname))
           Scenario.FooBar).
  apply Reference.descendant_child. simpl. auto.
Defined.

(** A chain step that is its own inner step, with a stack of a thousand
    frames. *)
Lemma create_cyclic_chain_step :
  (SuperFactory.create Scenario.pascalize Scenario.no_modules
     Scenario.step_types Scenario.not_covered 1000
     (SuperFactory.T_class Scenario.AbstractStep) O None
     [[("type", SuperFactory.PStr "chain"); ("inner", SuperFactory.PDict 0)]]).2
  = Raise RecursionError.
Proof.
  apply (create_cyclic_parameters Scenario.pascalize Scenario.no_modules
           Scenario.step_types Scenario.not_covered 1000
           Scenario.AbstractStep None
           [[("type", SuperFactory.PStr "chain");
             ("inner", SuperFactory.PDict 0)]] O
           [("type", SuperFactory.PStr "chain"); ("inner", SuperFactory.PDict 0)]
           "chain" Scenario.ChainStep [] "inner" 1%nat []).
  - reflexivity.
  - reflexivity.
  - reflexivity.
  - reflexivity.
  - reflexivity.
  - constructor.
  - constructor.
  - reflexivity.
  - reflexivity.
  - reflexivity.
Defined.

(** ** What [_sort] does to the dicts it is given *)

Section SortObjects.
Import SuperFactory CacheManagerObjects.

Lemma dict_set_same_keys {V} k (v : V) d :
  is_Some (dict_get k d) → keys (dict_set k v d) = keys d.
Proof.
  induction d as [|[k0 v0] d IH]; simpl.
  - by intros [? ?].
  - destruct (String.eqb_spec k k0) as [->|Hne]; simpl.
    + destruct (String.eqb_spec k0 k0); done.
    + destruct (String.eqb_spec k k0); [done|].
      intros Hk. by rewrite IH.
Qed.

Lemma dict_get_keys {V} k (d : list (string * V)) :
  In k (keys d) → is_Some (dict_get k d).
Proof.
  intros Hin. destruct (dict_get k d) eqn:Hget; [by eexists|].
  by apply dict_get_None in Hget.
Qed.

Lemma flat_get items k v :
  Reference.flat items = true → dict_get k items = Some v →
  match v with PDict _ => False | _ => True end.
Proof.
  unfold Reference.flat. rewrite forallb_forall. intros Hflat Hget.
  apply dict_get_In in Hget. specialize (Hflat _ Hget). simpl in Hflat.
  by destruct v.
Qed.

(** On a dict that holds no dict the loop changes nothing. *)
Lemma sort_values_flat (rec : addr → M addr) a items h : ∀ todo,
  h !! a = Some items →
  Reference.flat items = true →
  (∀ k, In k todo → In k (keys items)) →
  sort_values rec a todo h = (h, Ok tt).
Proof.
  intros todo Ha Hflat. induction todo as [|k rest IH]; intros Hsub; [done|].
  cbn [sort_values]. cbv [bind getitem read ret]. rewrite Ha.
  destruct (dict_get_keys k items (Hsub k (or_introl eq_refl))) as [v Hv].
  rewrite Hv. pose proof (flat_get _ _ _ Hflat Hv) as Hscalar.
  destruct v; try done; apply IH; intros k' Hk'; apply Hsub; by right.
Qed.

(** A dict that holds no dict is left as it is, and its sorted copy is a
    new dict. *)
Lemma sort_flat depth a items h :
  h !! a = Some items →
  Reference.flat items = true →
  _sort (S depth) a h = (h ++ [sorted items], Ok (length h)).
Proof.
  intros Ha Hflat. cbn [_sort]. cbv [bind read]. rewrite Ha.
  rewrite (sort_values_flat _ a items h (keys items)) by done.
  by rewrite Ha.
Qed.

(** The loop on a dict whose dicts hold no dict: every dict among the
    values is replaced by a sorted copy of it. *)
Lemma sort_values_repoints depth a h : ∀ todo hc dc,
  NoDup todo →
  hc !! a = Some dc →
  (length h ≤ length hc)%nat →
  (∀ b, (b < length h)%nat → b ≠ a → hc !! b = h !! b) →
  (∀ k, In k todo →
        match dict_get k dc with
        | Some (PDict b) =>
            (b < length h)%nat ∧ b ≠ a
            ∧ ∃ items, h !! b = Some items ∧ Reference.flat items = true
        | Some _ => True
        | None => False
        end) →
  ∃ hc' dc',
    sort_values (_sort (S depth)) a todo hc = (hc', Ok tt)
    ∧ hc' !! a = Some dc'
    ∧ (length hc ≤ length hc')%nat
    ∧ (∀ b, (b < length hc)%nat → b ≠ a → hc' !! b = hc !! b)
    ∧ keys dc' = keys dc
    ∧ (∀ k, ¬ In k todo → dict_get k dc' = dict_get k dc)
    ∧ (∀ k, In k todo →
            match dict_get k dc with
            | Some (PDict b) =>
                ∃ b' items,
                  dict_get k dc' = Some (PDict b')
                  ∧ (length hc ≤ b')%nat
                  ∧ h !! b = Some items
                  ∧ hc' !! b' = Some (sorted items)
            | v => dict_get k dc' = v
            end).
Proof.
  induction todo as [|k rest IH]; intros hc dc Hnd Ha Hlen Hframe Hentries.
  { exists hc, dc. repeat split; try done. }
  apply NoDup_cons in Hnd as [Hk Hnd].
  assert (Halt : (a < length hc)%nat) by (by eapply lookup_lt_Some).
  pose proof (Hentries k (or_introl eq_refl)) as Hentry.
  destruct (dict_get k dc) as [v|] eqn:Hv; [|done].
  assert (Hscalar :
    match v with PDict _ => False | _ => True end →
    ∃ hc' dc',
      sort_values (_sort (S depth)) a (k :: rest) hc = (hc', Ok tt)
      ∧ hc' !! a = Some dc'
      ∧ (length hc ≤ length hc')%nat
      ∧ (∀ b, (b < length hc)%nat → b ≠ a → hc' !! b = hc !! b)
      ∧ keys dc' = keys dc
      ∧ (∀ k', ¬ In k' (k :: rest) → dict_get k' dc' = dict_get k' dc)
      ∧ (∀ k', In k' (k :: rest) →
               match dict_get k' dc with
               | Some (PDict b) =>
                   ∃ b' items,
                     dict_get k' dc' = Some (PDict b')
                     ∧ (length hc ≤ b')%nat
                     ∧ h !! b = Some items
                     ∧ hc' !! b' = Some (sorted items)
               | v => dict_get k' dc' = v
               end)).
  { intros Hs.
    destruct (IH hc dc Hnd Ha Hlen Hframe
                (fun k' Hk' => Hentries k' (or_intror Hk')))
      as (hc' & dc' & Hrun & Ha' & Hlen' & Hframe' & Hkeys & Hout & Hin).
    exists hc', dc'. split.
    { cbn [sort_values]. cbv [bind getitem read ret]. rewrite Ha, Hv.
      destruct v; try done; exact Hrun. }
    repeat split; try done.
    - intros k' Hk'. apply Hout. intros ?. apply Hk'. by right.
    - intros k' [<-|Hk'].
      + rewrite Hv. rewrite Hout, Hv by (by rewrite <- list_elem_of_In).
        by destruct v.
      + by apply Hin. }
  destruct v as [| | | | |b|]; try (apply Hscalar; done).
  clear Hscalar. destruct Hentry as (Hb & Hba & items & Hitems & Hflat).
  assert (Hcb : hc !! b = Some items) by (by rewrite Hframe).
  set (h1 := <[a := dict_set k (PDict (length hc)) dc]> (hc ++ [sorted items])).
  set (dc1 := dict_set k (PDict (length hc)) dc).
  assert (Ha1 : h1 !! a = Some dc1).
  { unfold h1. apply list_lookup_insert_eq. rewrite length_app. lia. }
  assert (Hlen1 : length h1 = S (length hc)).
  { unfold h1. rewrite length_insert, length_app. simpl. lia. }
  assert (Hframe1 : ∀ b0, (b0 < length hc)%nat → b0 ≠ a → h1 !! b0 = hc !! b0).
  { intros b0 Hb0 Hne. unfold h1.
    rewrite list_lookup_insert_ne by done. by rewrite lookup_app_l. }
  assert (Hget1 : ∀ k', k' ≠ k → dict_get k' dc1 = dict_get k' dc).
  { intros k' Hne. unfold dc1. rewrite dict_get_set.
    destruct (String.eqb_spec k' k); [done | done]. }
  destruct (IH h1 dc1 Hnd Ha1 ltac:(lia)) as
    (hc' & dc' & Hrun & Ha' & Hlen' & Hframe' & Hkeys & Hout & Hin).
  { intros b0 Hb0 Hne. rewrite Hframe1 by (done || lia). by apply Hframe. }
  { intros k' Hk'. rewrite Hget1.
    - apply Hentries. by right.
    - intros ->. apply Hk. by apply list_elem_of_In. }
  exists hc', dc'. split.
  { cbn [sort_values]. cbv [bind getitem read ret]. rewrite Ha, Hv.
    cbn beta iota. rewrite (sort_flat depth b items hc Hcb Hflat).
    cbn beta iota. unfold setitem. cbv [bind read write].
    rewrite lookup_app_l by done. rewrite Ha. cbn beta iota.
    fold dc1. fold h1. exact Hrun. }
  split; [done|]. split; [lia|]. split.
  { intros b0 Hb0 Hne. rewrite Hframe' by (done || lia). by apply Hframe1. }
  split.
  { rewrite Hkeys. unfold dc1. apply dict_set_same_keys. by eexists. }
  split.
  { intros k' Hk'. rewrite Hout by (intros ?; apply Hk'; by right).
    apply Hget1. intros ->. apply Hk'. by left. }
  intros k' [<-|Hk'].
  - rewrite Hv. exists (length hc), items.
    rewrite Hout by (by rewrite <- list_elem_of_In).
    unfold dc1. rewrite dict_get_set, String.eqb_refl.
    repeat split; try done.
    rewrite Hframe' by (lia || lia).
    unfold h1. rewrite list_lookup_insert_ne by lia.
    by rewrite list_lookup_middle.
  - specialize (Hin k' Hk').
    assert (k' ≠ k) by (intros ->; apply Hk; by apply list_elem_of_In).
    rewrite Hget1 in Hin by done.
    destruct (dict_get k' dc) as [[| | | | |b0|]|]; try done.
    destruct Hin as (b' & items' & ? & ? & ? & ?).
    exists b', items'. repeat split; try done. lia.
Qed.

(** [_sort] changes the dict it is given: every value that is a dict
    (holding no dict itself) is replaced in it by a new dict, the sorted
    copy of that value.  The keys and their order, the other values and
    the other dicts of the store stay as they were, the nested dicts
    included, which the dict no longer refers to; what is returned is one
    more new dict, the sorted items of the dict as it is then.  [key]
    calls [_sort] on the dict of its keyword arguments, and the loop of
    that call calls it on every dict among them. *)
Theorem sort_replaces_the_nested_dicts depth (dictionary : addr) (h : heap) d :
  h !! dictionary = Some d →
  NoDup (keys d) →
  (∀ k b, dict_get k d = Some (PDict b) →
          ∃ items, h !! b = Some items ∧ Reference.flat items = true) →
  ∃ h' d',
    _sort (S (S depth)) dictionary h = (h' ++ [sorted d'], Ok (length h'))
    ∧ h' !! dictionary = Some d'
    ∧ (∀ b, (b < length h)%nat → b ≠ dictionary → h' !! b = h !! b)
    ∧ keys d' = keys d
    ∧ (∀ k, match dict_get k d with
            | Some (PDict b) =>
                ∃ b' items,
                  dict_get k d' = Some (PDict b')
                  ∧ (length h ≤ b')%nat
                  ∧ h !! b = Some items
                  ∧ h' !! b' = Some (sorted items)
            | v => dict_get k d' = v
            end).
Proof.
  intros Hd Hnd Hnested.
  destruct (sort_values_repoints depth dictionary h (keys d) h d)
    as (h' & d' & Hrun & Hd' & Hlen & Hframe & Hkeys & Hout & Hin); try done.
  { intros k Hk. destruct (dict_get_keys k d Hk) as [v Hv]. rewrite Hv.
    destruct v as [| | | | |b|]; try done.
    destruct (Hnested k b Hv) as (items & Hitems & Hflat).
    split; [by eapply lookup_lt_Some|]. split; [|by exists items].
    intros ->. rewrite Hd in Hitems. injection Hitems as <-.
    by apply (flat_get _ _ _ Hflat Hv). }
  exists h', d'. split.
  { cbn [_sort]. cbv [bind read]. rewrite Hd. cbn beta iota.
    change (sort_values _ dictionary (keys d) h)
      with (sort_values (_sort (S depth)) dictionary (keys d) h).
    rewrite Hrun. cbn beta iota. by rewrite Hd'. }
  repeat split; try done.
  intros k. destruct (dict_get k d) as [v|] eqn:Hv.
  - assert (Hk : In k (keys d)).
    { apply dict_get_In in Hv. unfold keys. apply in_map_iff. by exists (k, v). }
    specialize (Hin k Hk). by rewrite Hv in Hin.
  - apply dict_get_None in Hv. rewrite Hout by done.
    by apply dict_get_None.
Qed.

End SortObjects.

(** The loader parameters of a configuration, with a nested dict: after
    the call the configuration refers to a sorted copy of the nested dict. *)
Lemma sort_replaces_the_split_of_the_loader :
  let loader :=
    [("input_path", SuperFactory.PStr "data.csv");
     ("split", SuperFactory.PDict 1)] in
  let split := [("train", SuperFactory.PInt 8); ("test", SuperFactory.PInt 2)] in
  ∃ h' d',
    CacheManagerObjects._sort 2 O [loader; split]
    = (h' ++ [CacheManagerObjects.sorted d'], Ok (length h'))
    ∧ h' !! O = Some d'
    ∧ (∀ b, (b < 2)%nat → b ≠ O → h' !! b = [loader; split] !! b)
    ∧ SuperFactory.keys d' = ["input_path"; "split"]
    ∧ (∀ k, match dict_get k loader with
            | Some (SuperFactory.PDict b) =>
                ∃ b' items,
                  dict_get k d' = Some (SuperFactory.PDict b')
                  ∧ (2 ≤ b')%nat
                  ∧ [loader; split] !! b = Some items
                  ∧ h' !! b' = Some (CacheManagerObjects.sorted items)
            | v => dict_get k d' = v
            end).
Proof.
  cbv zeta.
  apply (sort_replaces_the_nested_dicts O O
           [[("input_path", SuperFactory.PStr "data.csv");
             ("split", SuperFactory.PDict 1)];
            [("train", SuperFactory.PInt 8); ("test", SuperFactory.PInt 2)]]
           [("input_path", SuperFactory.PStr "data.csv");
            ("split", SuperFactory.PDict 1)]).
  - reflexivity.
  - apply NoDup_cons. split; [|apply NoDup_singleton].
    intros Hin. apply list_elem_of_In in Hin. simpl in Hin.
    destruct Hin as [Heq|[]]. discriminate Heq.
  - intros k b Hget. simpl in Hget.
    destruct (String.eqb k "input_path"); [discriminate Hget|].
    destruct (String.eqb k "split"); [|discriminate Hget].
    injection Hget as <-. eexists. split; reflexivity.
Defined.

Example sort_the_loader :
  CacheManagerObjects._sort 2 O
    [[("input_path", SuperFactory.PStr "data.csv");
      ("split", SuperFactory.PDict 1)];
     [("train", SuperFactory.PInt 8); ("test", SuperFactory.PInt 2)]]
  = ([[("input_path", SuperFactory.PStr "data.csv");
       ("split", SuperFactory.PDict 2)];
      [("train", SuperFactory.PInt 8); ("test", SuperFactory.PInt 2)];
      [("test", SuperFactory.PInt 2); ("train", SuperFactory.PInt 8)];
      [("input_path", SuperFactory.PStr "data.csv");
       ("split", SuperFactory.PDict 2)]],
     Ok 3%nat).
Proof. reflexivity. Qed.

(** ** The definitions on small inputs *)

Example slice_from_the_end : slice [1; 2; 3; 4; 5] (-3) (-1) = [3; 4].
Proof. reflexivity. Qed.

Example slice_past_the_end : slice [1; 2; 3; 4; 5] 4 8 = [5].
Proof. reflexivity. Qed.

Example get_chunks_10_3 :
  AbstractPreprocessor._get_chunks 3 10
  = Ok [[0; 1; 2]; [3; 4; 5]; [6; 7; 8]; [9]].
Proof. reflexivity. Qed.

Example get_chunks_8_4 :
  AbstractPreprocessor._get_chunks 4 8 = Ok [[0; 1]; [2; 3]; [4; 5]; [6; 7]].
Proof. reflexivity. Qed.

Example merge_disk_lists_three :
  AbstractPreprocessor.merge_disk_lists
    [[Scenario.sample 0 "C"]; []; [Scenario.sample 1 "N"; Scenario.sample 2 "O"]]
  = Ok [Scenario.sample 0 "C"; Scenario.sample 1 "N"; Scenario.sample 2 "O"].
Proof. reflexivity. Qed.

Example replace_abstract :
  Str.replace "Abstract" "" "AbstractFeaturizer" = "Featurizer"
  ∧ Str.replace "Abstract" "" "NonAbstractLoader" = "NonLoader"
  ∧ Str.replace "aa" "b" "aaa" = "ba".
Proof. repeat split; reflexivity. Qed.

Example rsplit_dot_path :
  Str.rsplit_dot "torch.nn.ReLU" = Some ("torch.nn", "ReLU").
Proof. reflexivity. Qed.

Example pascalize_message_passing :
  Scenario.pascalize "message_passing_Network" = "MessagePassingNetwork".
Proof. reflexivity. Qed.

(** The test suite of RFC 1321. *)
Example md5_test_suite :
  Md5.hexdigest (CacheManager.encode "") = "d41d8cd98f00b204e9800998ecf8427e"
  ∧ Md5.hexdigest (CacheManager.encode "a") = "0cc175b9c0f1b6a831c399e269772661"
  ∧ Md5.hexdigest (CacheManager.encode "abc") = "900150983cd24fb0d6963f7d28e17f72"
  ∧ Md5.hexdigest (CacheManager.encode "message digest")
    = "f96b697d7cb7938d525a2f31aaf161d0"
  ∧ Md5.hexdigest
      (CacheManager.encode
         "12345678901234567890123456789012345678901234567890123456789012345678901234567890")
    = "57edf4a22be3c955ac49da2e2107b67a".
Proof. repeat split; vm_compute; reflexivity. Qed.

Example dumps_sorted :
  CacheManager.dumps
    (CacheManager.Dict
       (CacheManager._sort
          [("b", CacheManager.Int (-12));
           ("a", CacheManager.Dict [("d", CacheManager.None_);
                                    ("c", CacheManager.Bool true)])]))
  = "{" +:+ CacheManager.dumps_str "a" +:+ ": {"
    +:+ CacheManager.dumps_str "c" +:+ ": true, "
    +:+ CacheManager.dumps_str "d" +:+ ": null}, "
    +:+ CacheManager.dumps_str "b" +:+ ": -12}".
Proof. reflexivity. Qed.

Example find_descendants_networks :
  SuperFactory.keys (SuperFactory.find_descendants Scenario.AbstractNetwork)
  = ["GraphConvolutionalNetwork"; "MessagePassingNetwork";
     "TripletMessagePassingNetwork"].
Proof. reflexivity. Qed.

(** A nested map becomes a nested object; the two dicts of the caller
    stay as they were and the copies follow them in the store. *)
Example create_nested :
  SuperFactory.create Scenario.pascalize Scenario.no_modules
    Scenario.step_types Scenario.not_covered 2
    (SuperFactory.T_class Scenario.AbstractStep) O None
    [[("type", SuperFactory.PStr "chain"); ("inner", SuperFactory.PDict 1)];
     [("type", SuperFactory.PStr "load")]]
  = ([[("type", SuperFactory.PStr "chain"); ("inner", SuperFactory.PDict 1)];
      [("type", SuperFactory.PStr "load")];
      [("inner", SuperFactory.PInstance "LoadStep" [])];
      []],
     Ok (SuperFactory.PInstance "ChainStep"
           [("inner", SuperFactory.PInstance "LoadStep" [])])).
Proof. reflexivity. Qed.

(** A dict that holds itself exhausts the stack. *)
Example create_cyclic :
  (SuperFactory.create Scenario.pascalize Scenario.no_modules
     Scenario.step_types Scenario.not_covered 50
     (SuperFactory.T_class Scenario.AbstractStep) O None
     [[("type", SuperFactory.PStr "chain"); ("inner", SuperFactory.PDict 0)]]).2
  = Raise RecursionError.
Proof. reflexivity. Qed.
